(** * News aggregation and relevance pipeline: a shallow embedding

    The pipeline of [backend/server/index.js] (article fetcher, relevance
    filter, uplifting-news classifier, summarizer, response backfill), the
    cache manager of [backend/server/cache.js] and the daily usage gate of
    [backend/models/User.js] and [backend/utils/fallbackAuth.js], written as
    Rocq functions, followed by the properties proved about them.

    Conventions of the embedding.
    - A JavaScript string is a [string] of 8-bit characters; the text is taken
      to be ASCII, so [toLowerCase] only touches the letters A..Z.
    - A JavaScript number that the code uses as a count or a size is a [Z];
      the relevance score, which adds 0.5, is a [Q].
    - A value that may be [undefined] or [null] is an [option].
    - An [async] function is a computation in the monad [Eff]: it threads the
      state of the outside world and either returns or throws.
    - An object whose identity matters (the articles put in a [Set] by the
      relevance filter) is a reference into a store. *)

From Stdlib Require Import ZArith QArith Qminmax List String Ascii Bool Lia.
From Stdlib Require Import Sorting.Sorted Sorting.Permutation.
From Stdlib Require Import Numbers.DecimalString.
From stdpp Require Import base gmap strings.

Import ListNotations.
#[local] Set Warnings "-clear-no-such-hyp".
Local Open Scope string_scope.
Local Open Scope list_scope.
Local Open Scope Z_scope.

(* ================================================================== *)
(** * Part I: the program *)
(* ================================================================== *)

(** ** JavaScript strings and arrays *)

Module JS.

(** [s || d] on strings: the empty string is falsy. *)
Definition orStr (s d : string) : string :=
  if String.eqb s "" then d else s.

(** [Boolean(s)] on a string. *)
Definition truthy (s : string) : bool := negb (String.eqb s "").

(** [o || d] where [o] may be undefined: undefined and the empty string are
    both falsy. *)
Definition orOpt (o : option string) (d : string) : string :=
  match o with
  | Some s => orStr s d
  | None => d
  end.

(** [o1 || o2] between two possibly undefined strings, the result again
    possibly falsy. *)
Definition orElse (o1 o2 : option string) : option string :=
  match o1 with
  | Some s => if truthy s then Some s else o2
  | None => o2
  end.

Definition isUpper (c : ascii) : bool :=
  let n := nat_of_ascii c in (Nat.leb 65 n && Nat.leb n 90)%bool.

Definition lowerChar (c : ascii) : ascii :=
  if isUpper c then ascii_of_nat (nat_of_ascii c + 32) else c.

(** [String.prototype.toLowerCase] *)
Fixpoint toLowerCase (s : string) : string :=
  match s with
  | EmptyString => EmptyString
  | String c s' => String (lowerChar c) (toLowerCase s')
  end.

(** [t.includes(k)]: [k] occurs in [t] as a contiguous substring. *)
Fixpoint includes (t k : string) : bool :=
  (String.prefix k t
   || match t with
      | EmptyString => false
      | String _ t' => includes t' k
      end)%bool.

(** The characters matched by the regular expression class [\s]. *)
Definition isSpace (c : ascii) : bool :=
  let n := nat_of_ascii c in
  (Nat.leb 9 n && Nat.leb n 13 || Nat.eqb n 32 || Nat.eqb n 160)%bool.

(** The characters matched by [[a-z0-9]] under the [i] flag. *)
Definition isAlnum (c : ascii) : bool :=
  let n := nat_of_ascii c in
  (Nat.leb 48 n && Nat.leb n 57
   || Nat.leb 65 n && Nat.leb n 90
   || Nat.leb 97 n && Nat.leb n 122)%bool.

Fixpoint trimStart (s : string) : string :=
  match s with
  | EmptyString => EmptyString
  | String c s' => if isSpace c then trimStart s' else s
  end.

(** Drops the longest suffix made of characters satisfying [p]. *)
Fixpoint dropTrailing (p : ascii -> bool) (s : string) : string :=
  match s with
  | EmptyString => EmptyString
  | String c s' =>
      match dropTrailing p s' with
      | EmptyString => if p c then EmptyString else String c EmptyString
      | r => String c r
      end
  end.

Definition trimEnd (s : string) : string := dropTrailing isSpace s.

(** [String.prototype.trim] *)
Definition trim (s : string) : string := trimEnd (trimStart s).

(** [s.replace(/\s+/g, " ")]: every maximal run of white space becomes one
    space. [inRun] tells that the previous character was white space. *)
Fixpoint collapseSpaces (inRun : bool) (s : string) : string :=
  match s with
  | EmptyString => EmptyString
  | String c s' =>
      if isSpace c
      then if inRun then collapseSpaces true s'
           else String " "%char (collapseSpaces true s')
      else String c (collapseSpaces false s')
  end.

(** [s.slice(0, n)] for a non-negative [n]. *)
Fixpoint sliceStr (n : nat) (s : string) : string :=
  match n, s with
  | S n', String c s' => String c (sliceStr n' s')
  | _, _ => EmptyString
  end.

(** [s.split(/[^a-z0-9]+/i)]: the pieces between the maximal runs of
    characters that are not alphanumeric. [cur] is the piece being read and
    [inSep] tells that the previous character belonged to a separator. *)
Fixpoint splitNonAlnum (cur : string) (inSep : bool) (s : string) : list string :=
  match s with
  | EmptyString => [cur]
  | String c s' =>
      if isAlnum c
      then splitNonAlnum (cur +:+ String c EmptyString) false s'
      else if inSep then splitNonAlnum cur true s'
           else cur :: splitNonAlnum EmptyString true s'
  end.

(** [parts.join(sep)] *)
Fixpoint join (sep : string) (parts : list string) : string :=
  match parts with
  | [] => EmptyString
  | [p] => p
  | p :: rest => p +:+ sep +:+ join sep rest
  end.

(** [new Set(l)] on strings, as the list of its members in insertion order. *)
Fixpoint setOf (l : list string) : list string :=
  match l with
  | [] => []
  | x :: rest =>
      x :: List.filter (fun y => negb (String.eqb x y)) (setOf rest)
  end.

(** [String(n)] for an integer. *)
Definition showZ (n : Z) : string := NilZero.string_of_int (Z.to_int n).

(** [l.slice(0, e)] on an array, for an integer [e]: a negative [e] counts
    from the end. *)
Definition slice0 {A : Type} (l : list A) (e : Z) : list A :=
  let len := Z.of_nat (List.length l) in
  let stop := if e <? 0 then Z.max (len + e) 0 else Z.min e len in
  firstn (Z.to_nat stop) l.

(** [Math.ceil(n / d)] for integers [n] and a positive [d]. *)
Definition ceilDiv (n d : Z) : Z := - ((- n) / d).

End JS.

(** ** Data model *)

(** A normalized provider record. *)
Record Article := mkArticle {
  title : string;
  description : string;
  url : string;
  source : string;
  publishedAt : string;
  urlToImage : string
}.

(** The geography read by the fetcher and the filter; every field may be
    missing. *)
Record Geo := mkGeo {
  city : option string;
  region : option string;
  state : option string;
  country : option string;
  countryCode : option string
}.

(** [geo?.f] on a geography that may itself be null. *)
Definition geoField (f : Geo -> option string) (geo : option Geo) : option string :=
  match geo with
  | Some g => f g
  | None => None
  end.

Definition CORE_CATEGORIES : list string :=
  ["business"; "entertainment"; "general"; "health"; "science"; "sports";
   "technology"; "world"].

(** [CORE_CATEGORIES.has(t)] *)
Definition isCore (t : string) : bool :=
  existsb (String.eqb t) CORE_CATEGORIES.

(** ** Uplifting-news classifier *)

Definition upliftingKeywords : list string :=
  ["breakthrough"; "achievement"; "success"; "victory"; "triumph"; "milestone";
   "innovation"; "discovery"; "progress"; "advancement"; "improvement"; "growth";
   "celebration"; "record"; "award"; "recognition"; "honor"; "accomplishment";
   "recovery"; "healing"; "cure"; "treatment"; "solution"; "rescue"; "save";
   "donation"; "charity"; "volunteer"; "help"; "support"; "community"; "kindness";
   "environmental"; "sustainability"; "green"; "renewable"; "clean energy"; "conservation";
   "education"; "learning"; "scholarship"; "graduation"; "inspiration"; "motivation";
   "art"; "culture"; "festival"; "celebration"; "music"; "creativity"; "beauty";
   "sports"; "championship"; "medal"; "gold"; "silver"; "bronze"; "teamwork";
   "technology"; "invention"; "startup"; "funding"; "investment"; "entrepreneur";
   "hope"; "optimism"; "resilience"; "courage"; "determination"; "perseverance"].

Definition negativeKeywords : list string :=
  ["death"; "died"; "killed"; "murder"; "crime"; "violence"; "attack";
   "war"; "conflict"; "battle"; "fighting"; "bomb"; "explosion";
   "disaster"; "accident"; "crash"; "fire"; "flood"; "earthquake";
   "crisis"; "emergency"; "danger"; "threat"; "risk"; "problem";
   "scandal"; "corruption"; "fraud"; "theft"; "robbery"; "arrest";
   "disease"; "pandemic"; "outbreak"; "infection"; "virus"; "illness";
   "recession"; "unemployment"; "layoff"; "bankruptcy"; "debt"; "loss"].

(** The text the classifier searches: lowercased title, one space,
    lowercased description. *)
Definition upliftingText (a : Article) : string :=
  JS.toLowerCase (JS.orStr (title a) "") +:+ " "
  +:+ JS.toLowerCase (JS.orStr (description a) "").

Definition isUpliftingNews (a : Article) : bool :=
  let text := upliftingText a in
  let hasNegative := existsb (fun keyword => JS.includes text keyword) negativeKeywords in
  if hasNegative then false
  else
    let hasUplifting := existsb (fun keyword => JS.includes text keyword) upliftingKeywords in
    hasUplifting.

(** ** Relevance filter *)

(** The filter puts article objects in a [Set], which compares them by
    identity. An article object is therefore a reference, and the store
    gives the record behind each reference. *)
Definition Ref := nat.
Definition Store := Ref -> Article.

Definition strLen (s : string) : Z := Z.of_nat (String.length s).
Definition len {A : Type} (l : list A) : Z := Z.of_nat (List.length l).

(** The set of lowercased geography tokens of length at least 2. *)
Definition geoTokens (geo : option Geo) : list string :=
  JS.setOf
    (List.filter (fun s => 2 <=? strLen s)
       (List.map (fun s => JS.toLowerCase (JS.orOpt s ""))
          [geoField city geo; geoField region geo;
           geoField country geo; geoField countryCode geo])).

(** The set of topic tokens of length at least 3. *)
Definition topicTokens (topicLower : string) : list string :=
  JS.setOf
    (List.filter (fun s => JS.truthy s && (3 <=? strLen s))
       (List.map (fun s => JS.toLowerCase (JS.trim s))
          (JS.splitNonAlnum "" false topicLower))).

Definition textHasAny (text : string) (tokens : list string) : bool :=
  let t := JS.toLowerCase (JS.orStr text "") in
  existsb (fun tok => JS.truthy tok && JS.includes t tok) tokens.

(** The test of the first pass: does the loop push this article? *)
Definition strictKeep (isLocal : bool) (topicLower : string)
    (geoT topicT : list string) (a : Article) : bool :=
  let t := JS.orStr (title a) "" in
  let d := JS.orStr (description a) "" in
  if isLocal then
    if (0 <? len geoT) && (textHasAny t geoT || textHasAny d geoT) then true
    else if len geoT =? 0 then true
    else false
  else
    if isCore topicLower then true
    else if (0 <? len topicT) && (textHasAny t topicT || textHasAny d topicT)
    then true
    else false.

(** One of the two scoring loops: [+2] for a token found in the title,
    otherwise [+1] for a token found in the description. *)
Definition scoreTokens (t d : string) (tokens : list string) (s : Q) : Q :=
  fold_left
    (fun (s : Q) (g : string) =>
       if negb (JS.truthy g) then s
       else if JS.includes t g then (s + 2)%Q
       else if JS.includes d g then (s + 1)%Q
       else s)
    tokens s.

Definition score (topicLower : string) (geoT topicT : list string)
    (a : Article) : Q :=
  let t := JS.toLowerCase (JS.orStr (title a) "") in
  let d := JS.toLowerCase (JS.orStr (description a) "") in
  let s := 0%Q in
  let s := scoreTokens t d geoT s in
  let s := if negb (isCore topicLower) then scoreTokens t d topicT s else s in
  let s := if JS.truthy (publishedAt a) then (s + (1 # 2))%Q else s in
  s.

(** [candidates.sort((x, y) => y.s - x.s)]: a stable sort that puts the
    higher score first (the language requires [sort] to be stable). *)
Fixpoint insertByScore (x : Ref * Q) (l : list (Ref * Q)) : list (Ref * Q) :=
  match l with
  | [] => [x]
  | y :: l' =>
      if Qle_bool (snd y) (snd x) then x :: y :: l'
      else y :: insertByScore x l'
  end.

Definition sortByScore (l : list (Ref * Q)) : list (Ref * Q) :=
  fold_right insertByScore [] l.

(** [for (const a of cands) { out.push(a); if (out.length >= minCount) break; }] *)
Fixpoint pushUntil (out cands : list Ref) (minCount : Z) : list Ref :=
  match cands with
  | [] => out
  | a :: rest =>
      let out' := out ++ [a] in
      if len out' >=? minCount then out' else pushUntil out' rest minCount
  end.

(** The first pass over the input. *)
Definition strictPass (h : Store) (topic : string) (geo : option Geo)
    (articles : list Ref) : list Ref :=
  let topicLower := JS.toLowerCase (JS.orStr topic "") in
  let isLocal := String.eqb topicLower "local" in
  List.filter
    (fun r => strictKeep isLocal topicLower (geoTokens geo)
                (topicTokens topicLower) (h r))
    articles.

(** The scored candidates of the second pass, best first. *)
Definition candidates (h : Store) (topic : string) (geo : option Geo)
    (articles : list Ref) : list (Ref * Q) :=
  let topicLower := JS.toLowerCase (JS.orStr topic "") in
  let selected : gset Ref := list_to_set (strictPass h topic geo articles) in
  sortByScore
    (List.map
       (fun r => (r, score topicLower (geoTokens geo) (topicTokens topicLower) (h r)))
       (List.filter (fun r => negb (bool_decide (r ∈ selected))) articles)).

(** [filterRelevantArticles(topic, geo, articles, minCount)]; the callers
    always pass [minCount]. *)
Definition filterRelevantArticles (h : Store) (topic : string)
    (geo : option Geo) (articles : list Ref) (minCount : Z) : list Ref :=
  let original := articles in
  let topicLower := JS.toLowerCase (JS.orStr topic "") in
  let isLocal := String.eqb topicLower "local" in
  let out := strictPass h topic geo original in
  if len out >=? minCount then JS.slice0 out minCount
  else
    let selected : gset Ref := list_to_set out in
    let out := pushUntil out (List.map fst (candidates h topic geo original)) minCount in
    let out :=
      if isLocal && (len out <? minCount) then
        let remaining :=
          List.filter (fun r => negb (bool_decide (r ∈ selected))) original in
        pushUntil out remaining minCount
      else out in
    if 0 <? len out then out else JS.slice0 original minCount.

(** ** Usage gate *)

(** A [Date] is its number of milliseconds since the epoch. *)
Definition Date := Z.

Record User := mkUser {
  isPremium : bool;
  dailyUsageCount : Z;
  lastUsageDate : Date
}.

(** The answer of [canFetchNews]; the premium answer carries no count. *)
Record UsageCheck := mkUsageCheck {
  allowed : bool;
  reason : string;
  dailyCount : option Z
}.

Section UsageGate.

(** [d.toDateString()]: the calendar day of a date in the server's time
    zone, as text. *)
Variable toDateString : Date -> string.

(** The part of [canFetchNews] that both implementations share, after the
    reset. *)
Definition evaluateQuota (u : User) : UsageCheck :=
  if isPremium u then mkUsageCheck true "premium" None
  else if dailyUsageCount u >=? 1
  then mkUsageCheck false "daily_limit_reached" (Some (dailyUsageCount u))
  else mkUsageCheck true "free_quota" (Some (dailyUsageCount u)).

(** [fallbackAuth.canFetchNews(user)] at the time [now]: the user object
    after the call and the answer. *)
Definition fallback_canFetchNews (now : Date) (user : User) : User * UsageCheck :=
  let today := toDateString now in
  let lastUsage := toDateString (lastUsageDate user) in
  let user :=
    if negb (String.eqb lastUsage today)
    then mkUser (isPremium user) 0 now
    else user in
  (user, evaluateQuota user).

(** [fallbackAuth.incrementUsage(user)] *)
Definition fallback_incrementUsage (now : Date) (user : User) : User :=
  mkUser (isPremium user) (dailyUsageCount user + 1) now.

(** A document of the database model: the object in memory and the
    snapshots handed to [save()], oldest first. *)
Record UserDoc := mkUserDoc {
  doc : User;
  saved : list User
}.

Definition save (d : UserDoc) : UserDoc :=
  mkUserDoc (doc d) (saved d ++ [doc d]).

(** [userSchema.methods.canFetchNews] at the time [now]. *)
Definition canFetchNews (now : Date) (this : UserDoc) : UserDoc * UsageCheck :=
  let today := toDateString now in
  let lastUsage := toDateString (lastUsageDate (doc this)) in
  let this :=
    if negb (String.eqb lastUsage today)
    then save (mkUserDoc (mkUser (isPremium (doc this)) 0 now) (saved this))
    else this in
  (this, evaluateQuota (doc this)).

(** [userSchema.methods.incrementUsage] *)
Definition incrementUsage (now : Date) (this : UserDoc) : UserDoc :=
  let u := doc this in
  save (mkUserDoc (mkUser (isPremium u) (dailyUsageCount u + 1) now) (saved this)).

End UsageGate.

(** A concrete calendar: the day number in UTC, printed in decimal. *)
Definition utcDateString (d : Date) : string := JS.showZ (d / 86400000).

(** ** Asynchronous code: state and exceptions *)

(** How a call ends: it returns a value or throws (for an [async]
    function: its promise is fulfilled or rejected). *)
Inductive Outcome (A : Type) : Type :=
| Returned (a : A)
| Thrown (e : string).

Arguments Returned {A} a.
Arguments Thrown {A} e.

(** A computation over a state [S]. *)
Definition Eff (S A : Type) : Type := S -> Outcome A * S.

Definition ret {S A : Type} (a : A) : Eff S A := fun s => (Returned a, s).

Definition throw {S A : Type} (e : string) : Eff S A := fun s => (Thrown e, s).

Definition bind {S A B : Type} (c : Eff S A) (k : A -> Eff S B) : Eff S B :=
  fun s =>
    match c s with
    | (Returned a, s') => k a s'
    | (Thrown e, s') => (Thrown e, s')
    end.

(** [try { body } catch (e) { handler }] *)
Definition tryCatch {S A : Type} (body : Eff S A) (handler : string -> Eff S A)
    : Eff S A :=
  fun s =>
    match body s with
    | (Returned a, s') => (Returned a, s')
    | (Thrown e, s') => handler e s'
    end.

Notation "x <- c ;; k" := (bind c (fun x => k))
  (at level 100, c at next level, right associativity).
Notation "c ;;; k" := (bind c (fun _ => k))
  (at level 100, right associativity).

(** [Promise.allSettled(promises)]: every computation runs, in the order in
    which the promises were created, and the outcomes are collected; the
    combined promise is never rejected. *)
Fixpoint allSettled {S A : Type} (promises : list (Eff S A))
    : Eff S (list (Outcome A)) :=
  match promises with
  | [] => ret []
  | p :: rest =>
      fun s =>
        let (o, s1) := p s in
        match allSettled rest s1 with
        | (Returned os, s2) => (Returned (o :: os), s2)
        | (Thrown e, s2) => (Thrown e, s2)
        end
  end.

(** [results.filter(r => r.status === 'fulfilled').flatMap(r => r.value)] *)
Definition fulfilledValues {A : Type} (results : list (Outcome (list A))) : list A :=
  flat_map (fun r => match r with Returned v => v | Thrown _ => [] end) results.

(** Runs a computation on a part of the state. *)
Definition zoom {S T A : Type} (get : S -> T) (set : T -> S -> S)
    (c : Eff T A) : Eff S A :=
  fun s => let (o, t) := c (get s) in (o, set t s).

(** ** Cache manager *)

(** The networked cache client and the JSON codec, each of which may throw.
    [R] is the state of the remote store and [V] the type of cached values. *)
Record Backend (R V : Type) := mkBackend {
  client_get : string -> Eff R (option string);
  client_setEx : string -> Z -> string -> Eff R unit;
  client_del : string -> Eff R unit;
  stringify : V -> Outcome string;
  parse : string -> Outcome (option V);
  truthyValue : V -> bool
}.

Arguments client_get {R V}.
Arguments client_setEx {R V}.
Arguments client_del {R V}.
Arguments stringify {R V}.
Arguments parse {R V}.
Arguments truthyValue {R V}.

(** The fields of a [CacheManager]; [timers] lists the deletions scheduled
    with [setTimeout], each with its key and its delay in milliseconds. *)
Record CacheManager (R V : Type) := mkCacheManager {
  isConnected : bool;
  client : option R;
  fallbackCache : gmap string V;
  timers : list (string * Z)
}.

Arguments mkCacheManager {R V}.
Arguments isConnected {R V}.
Arguments client {R V}.
Arguments fallbackCache {R V}.
Arguments timers {R V}.

Module Cache.
Section Methods.

Context {R V : Type} (B : Backend R V).

Definition ofOutcome {A : Type} (o : Outcome A) : Eff (CacheManager R V) A :=
  fun s => (o, s).

(** A call on [this.client], which is known to be set. *)
Definition onClient {A : Type} (r : R) (c : Eff R A) : Eff (CacheManager R V) A :=
  fun s =>
    let (o, r') := c r in
    (o, mkCacheManager (isConnected s) (Some r') (fallbackCache s) (timers s)).

Definition get (key : string) : Eff (CacheManager R V) (option V) :=
  tryCatch
    (fun this =>
       match isConnected this, client this with
       | true, Some r =>
           (value <- onClient r (client_get B key) ;;
            match value with
            | Some text =>
                if JS.truthy text then ofOutcome (parse B text) else ret None
            | None => ret None
            end) this
       | _, _ =>
           (match fallbackCache this !! key with
            | Some v => if truthyValue B v then ret (Some v) else ret None
            | None => ret None
            end) this
       end)
    (fun _ => ret None).

Definition set (key : string) (value : V) (ttlSeconds : Z)
    : Eff (CacheManager R V) unit :=
  tryCatch
    (fun this =>
       match isConnected this, client this with
       | true, Some r =>
           (text <- ofOutcome (stringify B value) ;;
            onClient r (client_setEx B key ttlSeconds text)) this
       | _, _ =>
           (Returned tt,
            mkCacheManager (isConnected this) (client this)
              (<[key := value]> (fallbackCache this))
              (timers this ++ [(key, ttlSeconds * 1000)]))
       end)
    (fun _ => ret tt).

Definition del (key : string) : Eff (CacheManager R V) unit :=
  tryCatch
    (fun this =>
       match isConnected this, client this with
       | true, Some r => onClient r (client_del B key) this
       | _, _ =>
           (Returned tt,
            mkCacheManager (isConnected this) (client this)
              (delete key (fallbackCache this)) (timers this))
       end)
    (fun _ => ret tt).

End Methods.

(** [`${x}`] for a field that may be undefined. *)
Definition show (o : option string) : string :=
  match o with
  | Some s => s
  | None => "undefined"
  end.

Definition getNewsKey (topic : string) (geo : option Geo) (wordCount : Z) : string :=
  let geoStr :=
    match geo with
    | Some g => show (country g) +:+ "-" +:+ show (region g) +:+ "-" +:+ show (city g)
    | None => "no-geo"
    end in
  "news:" +:+ topic +:+ ":" +:+ geoStr +:+ ":" +:+ JS.showZ wordCount.

End Cache.

(** ** Article provider *)

(** A raw provider record: every field is a string or is missing. *)
Module Raw.
Record Source := mkSource {
  id : option string;
  name : option string
}.
Record t := mk {
  title : option string;
  description : option string;
  url : option string;
  source : option Source;
  publishedAt : option string;
  urlToImage : option string
}.
End Raw.

(** The two query shapes. [Everything] also asks for English articles of
    the last three days, newest first. *)
Inductive Request : Type :=
| Everything (q : string) (pageSize : Z)
| TopHeadlines (category country q : option string) (pageSize : Z).

(** What comes back: the transport fails, the status is not ok, or a body
    whose [articles] field is an array (or is not). *)
Inductive Response : Type :=
| NetworkError
| HttpError (status : Z) (text : string)
| Body (articles : option (list Raw.t)).

(** A request to the completion service. *)
Record ChatRequest := mkChatRequest {
  model : string;
  systemContent : string;
  userContent : string;
  max_tokens : Q;
  temperature : Q
}.

(** What [fetchArticlesForTopic] returns and caches. *)
Record FetchResult := mkFetchResult {
  articles : list Article;
  note : option string
}.

Definition dquote : string := String (ascii_of_nat 34) EmptyString.
Definition nl : string := String (ascii_of_nat 10) EmptyString.

(** [Math.min(Math.max(Number(maxResults) || 5, 1), 50)] *)
Definition clampPageSize (maxResults : Z) : Z :=
  Z.min (Z.max (if maxResults =? 0 then 5 else maxResults) 1) 50.

(** The object literal built for each raw record. *)
Definition normalize (a : Raw.t) : Article :=
  {| title := JS.orOpt (Raw.title a) "";
     description := JS.orOpt (Raw.description a) "";
     url := JS.orOpt (Raw.url a) "";
     source :=
       match Raw.source a with
       | Some s => JS.orOpt (Raw.name s) ""
       | None => ""
       end;
     publishedAt := JS.orOpt (Raw.publishedAt a) "";
     urlToImage := JS.orOpt (Raw.urlToImage a) "" |}.

(** [s ? Some s : None], for a parameter that is set only when truthy. *)
Definition whenTruthy (s : string) : option string :=
  if JS.truthy s then Some s else None.

(** What a provider function makes of a response: it throws unless the
    status is ok, and returns [data.articles] when that is an array and the
    empty array otherwise. *)
Definition readResponse (resp : Response) : Outcome (list Raw.t) :=
  match resp with
  | NetworkError => Thrown "fetch failed"
  | HttpError status text =>
      Thrown ("NewsAPI error: " +:+ JS.showZ status +:+ " " +:+ text)
  | Body (Some l) => Returned l
  | Body None => Returned []
  end.

Section Pipeline.

(** The remote cache, the configuration and the two external services. Each
    service answers a request knowing the requests made before it. *)
Context {R : Type} (B : Backend R FetchResult).
Variable NEWSAPI_KEY : string.
Variable OPENAI_API_KEY : string.
Variable newsapi : list Request -> Request -> Response.
Variable openai : list ChatRequest -> ChatRequest -> Outcome (option string).

(** The world outside the pipeline: the cache and the requests sent so far
    to the provider and to the completion service, oldest first. *)
Record World := mkWorld {
  cache : CacheManager R FetchResult;
  newsLog : list Request;
  llmLog : list ChatRequest
}.

Definition onCache {A : Type} (c : Eff (CacheManager R FetchResult) A) : Eff World A :=
  zoom cache (fun c' w => mkWorld c' (newsLog w) (llmLog w)) c.

(** [fetch(url)] followed by the status check and the reading of the body. *)
Definition callNewsApi (req : Request) : Eff World (list Raw.t) :=
  fun w =>
    (readResponse (newsapi (newsLog w) req),
     mkWorld (cache w) (newsLog w ++ [req]) (llmLog w)).

Definition fetchArticlesEverything (qParts : list string) (maxResults : Z)
    : Eff World (list Raw.t) :=
  let q := JS.join " " (List.filter JS.truthy qParts) in
  let pageSize := clampPageSize maxResults in
  callNewsApi (Everything q pageSize).

Definition fetchTopHeadlinesByCategory (category countryCode : string)
    (maxResults : Z) (extraQuery : option string) : Eff World (list Raw.t) :=
  let pageSize := clampPageSize maxResults in
  callNewsApi
    (TopHeadlines (whenTruthy category)
       (option_map JS.toLowerCase (whenTruthy countryCode))
       (JS.orElse extraQuery None) pageSize).

(** The branches of the "general" topic: one article of each other topic,
    a failed branch giving no article. *)
Definition generalPromises (countryCode : string) : list (Eff World (list Raw.t)) :=
  let otherTopics :=
    ["business"; "entertainment"; "health"; "science"; "sports"; "technology";
     "world"] in
  List.map
    (fun category =>
       tryCatch
         (if String.eqb category "world" then
            worldArticles <- fetchArticlesEverything ["world"] 1 ;;
            ret (JS.slice0 worldArticles 1)
          else
            categoryArticles <- fetchTopHeadlinesByCategory category countryCode 1 None ;;
            ret (JS.slice0 categoryArticles 1))
         (fun _ => ret []))
    otherTopics.

(** The branches of the "local" topic, in the order in which the code puts
    them in [promises]. *)
Definition localPromises (city region countryCode : string) (pageSize : Z)
    : list (Eff World (list Raw.t)) :=
  (if JS.truthy city then
     [fetchTopHeadlinesByCategory "general" countryCode (JS.ceilDiv pageSize 3)
        (Some (dquote +:+ city +:+ dquote));
      fetchArticlesEverything ["title:" +:+ city] (JS.ceilDiv pageSize 3);
      fetchArticlesEverything [city] (JS.ceilDiv pageSize 3)]
   else [])
  ++ (if JS.truthy region then
        [fetchTopHeadlinesByCategory "general" countryCode (JS.ceilDiv pageSize 3)
           (Some (dquote +:+ region +:+ dquote));
         fetchArticlesEverything ["title:" +:+ region] (JS.ceilDiv pageSize 3);
         fetchArticlesEverything [region] (JS.ceilDiv pageSize 3)]
      else [])
  ++ (if JS.truthy countryCode then
        [fetchTopHeadlinesByCategory "general" countryCode (JS.ceilDiv pageSize 2) None]
      else [])
  ++ [fetchTopHeadlinesByCategory "general" "" (JS.ceilDiv pageSize 2) None].

(** The raw articles of a topic, by the strategy of its class. *)
Definition fetchRaw (topic : string) (geo : option Geo) (pageSize : Z)
    : Eff World (list Raw.t) :=
  let countryCode := JS.orOpt (JS.orElse (geoField country geo) (geoField countryCode geo)) "" in
  let region := JS.orOpt (JS.orElse (geoField region geo) (geoField state geo)) "" in
  let city := JS.orOpt (geoField city geo) "" in
  let queryParts :=
    [topic] ++ (if JS.truthy region then [region] else [])
            ++ (if JS.truthy city then [city] else []) in
  let normalizedTopic := JS.toLowerCase (JS.orStr topic "") in
  let useCategory := isCore normalizedTopic && negb (String.eqb normalizedTopic "world") in
  let isLocal := String.eqb normalizedTopic "local" in
  let isGeneral := String.eqb normalizedTopic "general" in
  if isGeneral then
    tryCatch
      (results <- allSettled (generalPromises countryCode) ;;
       ret (List.filter
              (fun article => JS.truthy (JS.orOpt (Raw.title article) ""))
              (fulfilledValues results)))
      (fun _ => fetchTopHeadlinesByCategory "general" countryCode pageSize None)
  else if isLocal then
    tryCatch
      (results <- allSettled (localPromises city region countryCode pageSize) ;;
       ret (JS.slice0 (fulfilledValues results) pageSize))
      (fun _ =>
         fetchTopHeadlinesByCategory "general" (JS.orStr countryCode "") pageSize None)
  else if useCategory then
    let category := normalizedTopic in
    let bias := JS.orStr city (JS.orStr region "") in
    articles <- fetchTopHeadlinesByCategory category countryCode pageSize
                  (whenTruthy bias) ;;
    if (len articles <? Z.min 5 pageSize) && JS.truthy bias then
      extra <- fetchArticlesEverything [normalizedTopic; bias]
                 (pageSize - len articles) ;;
      ret (articles ++ extra)
    else ret articles
  else fetchArticlesEverything queryParts pageSize.

Definition fetchArticlesForTopic (topic : string) (geo : option Geo)
    (maxResults : Z) : Eff World FetchResult :=
  let pageSize := clampPageSize maxResults in
  if negb (JS.truthy NEWSAPI_KEY) then
    ret {| articles := []; note := Some "Missing NEWSAPI_KEY" |}
  else
    let cacheKey := Cache.getNewsKey topic geo pageSize in
    cached <- onCache (Cache.get B cacheKey) ;;
    match cached with
    | Some hit => ret hit
    | None =>
        articles <- fetchRaw topic geo pageSize ;;
        let normalized := List.map normalize articles in
        let result := {| articles := normalized; note := None |} in
        onCache (Cache.set B cacheKey result 900) ;;;
        ret result
    end.

(** ** Summarizer *)

(** The words that name the request in the "no coverage" message: the
    trimmed topic, then the region and the country when they are set. *)
Definition summaryBase (topic : string) (geo : option Geo) : string :=
  let baseParts :=
    [JS.trim (JS.orStr topic "")]
    ++ (match geoField region geo with
        | Some r => if JS.truthy r then [r] else []
        | None => []
        end)
    ++ (match JS.orElse (geoField country geo) (geoField countryCode geo) with
        | Some c => if JS.truthy c then [c] else []
        | None => []
        end) in
  JS.join " " (List.filter JS.truthy baseParts).

Definition upliftingPrefix (goodNewsOnly : bool) : string :=
  if goodNewsOnly then "uplifting " else "".

(** One entry of the prompt's article list; [index] counts from 0. Of the
    characters that the title pattern strips at the end, the text model has
    white space and the hyphen; the en dash and the em dash are not ASCII. *)
Definition articleText (index : nat) (article : Article) : string :=
  let title :=
    JS.trim
      (JS.collapseSpaces false
         (JS.dropTrailing
            (fun c => JS.isSpace c || Ascii.eqb c "-"%char)
            (JS.orStr (title article) ""))) in
  let description :=
    JS.sliceStr 150
      (JS.trim (JS.collapseSpaces false (JS.orStr (description article) ""))) in
  let source := JS.orStr (source article) "Unknown" in
  JS.showZ (Z.of_nat index + 1) +:+ ". **" +:+ title +:+ "** (" +:+ source +:+ ")"
  +:+ nl +:+ description.

Fixpoint mapi {A C : Type} (f : nat -> A -> C) (i : nat) (l : list A) : list C :=
  match l with
  | [] => []
  | x :: rest => f i x :: mapi f (S i) rest
  end.

Definition buildPrompt (topic : string) (articles : list Article)
    (wordCount : Z) (goodNewsOnly : bool) : string :=
  let articleTexts :=
    JS.join (nl +:+ nl) (mapi articleText 0%nat (JS.slice0 articles 4)) in
  "Create a " +:+ JS.showZ wordCount +:+ "-word " +:+ upliftingPrefix goodNewsOnly
  +:+ topic +:+ " news summary in podcast style." +:+ nl +:+ nl
  +:+ "Articles:" +:+ nl +:+ articleTexts +:+ nl +:+ nl
  +:+ "Requirements:" +:+ nl
  +:+ "- Start with " +:+ dquote +:+ "Here's your " +:+ upliftingPrefix goodNewsOnly
  +:+ topic +:+ " news." +:+ dquote +:+ nl
  +:+ "- Cover key stories in conversational tone" +:+ nl
  +:+ "- Connect related stories naturally" +:+ nl
  +:+ "- Focus on most significant developments" +:+ nl
  +:+ "- Target " +:+ JS.showZ wordCount +:+ " words exactly".

(** [openai.chat.completions.create(...)] and the reading of
    [choices[0]?.message?.content]. *)
Definition callOpenAI (req : ChatRequest) : Eff World (option string) :=
  fun w =>
    (openai (llmLog w) req, mkWorld (cache w) (newsLog w) (llmLog w ++ [req])).

Definition summarizeArticles (topic : string) (geo : option Geo)
    (articles : list Article) (wordCount : Z) (goodNewsOnly : bool)
    : Eff World string :=
  let base := summaryBase topic geo in
  if len articles =? 0 then
    ret ("No recent coverage found for " +:+ base +:+ ".")
  else if negb (JS.truthy OPENAI_API_KEY) then
    ret ("Here's your " +:+ upliftingPrefix goodNewsOnly +:+ topic +:+ " news. "
         +:+ JS.join ". " (List.map title (JS.slice0 articles 3)) +:+ ".")
  else
    tryCatch
      (let prompt := buildPrompt topic articles wordCount goodNewsOnly in
       completion <-
         callOpenAI
           {| model := "gpt-4o-mini";
              systemContent :=
                "You are a professional news podcaster. Create engaging, conversational summaries with a warm, informative tone.";
              userContent := prompt;
              max_tokens := Qmin (inject_Z wordCount * (12 # 10)) 1200;
              temperature := 6 # 10 |} ;;
       let summary := option_map JS.trim completion in
       match summary with
       | Some text =>
           if JS.truthy text then ret text
           else throw "No summary generated by ChatGPT"
       | None => throw "No summary generated by ChatGPT"
       end)
      (fun _ =>
         let titles :=
           List.filter JS.truthy
             (List.map (fun a => JS.orStr (title a) "") (JS.slice0 articles 3)) in
         ret ("Here's your " +:+ upliftingPrefix goodNewsOnly +:+ topic +:+ " news. "
              +:+ JS.join ". " titles +:+ ".")).

End Pipeline.

Arguments cache {R}.
Arguments newsLog {R}.
Arguments llmLog {R}.
Arguments mkWorld {R}.

(** ** Response assembly: backfill from the candidate pool *)

Module Item.
Record t := mk {
  id : string;
  title : string;
  summary : string;
  source : string;
  url : string;
  topic : string
}.
End Item.

(** [i.url || i.id] *)
Definition itemKey (i : Item.t) : string := JS.orStr (Item.url i) (Item.id i).

(** The loop over [globalCandidates]; [have] is the set of keys present. *)
Fixpoint backfillLoop (have : gset string) (items globalCandidates : list Item.t)
    : list Item.t :=
  match globalCandidates with
  | [] => items
  | c :: rest =>
      let key := itemKey c in
      if bool_decide (key ∈ have) then backfillLoop have items rest
      else
        let items := items ++ [c] in
        let have := {[key]} ∪ have in
        if len items >=? 3 then items else backfillLoop have items rest
  end.

(** The block that ends both summarize handlers: at least 3 sources overall
    when the pool allows it. *)
Definition backfill (items globalCandidates : list Item.t) : list Item.t :=
  if (len items <? 3) && (0 <? len globalCandidates) then
    let have : gset string := list_to_set (List.map itemKey items) in
    backfillLoop have items globalCandidates
  else items.

(** ** Concrete instances *)

(** A deployment without a reachable networked cache: the client is never
    connected, so the in-process map serves every call. *)
Definition offlineBackend : Backend unit FetchResult :=
  {| client_get := fun _ => throw "ECONNREFUSED";
     client_setEx := fun _ _ _ => throw "ECONNREFUSED";
     client_del := fun _ => throw "ECONNREFUSED";
     stringify := fun _ => Thrown "not serialized";
     parse := fun _ => Thrown "not parsed";
     truthyValue := fun _ => true |}.

Definition offlineCache : CacheManager unit FetchResult :=
  mkCacheManager false None ∅ [].

Definition freshWorld : World := mkWorld offlineCache [] [].

Definition austin : Geo :=
  mkGeo (Some "Austin") (Some "Texas") None (Some "US") (Some "US").

Definition austinOnly : Geo := mkGeo (Some "Austin") None None None None.

Definition sampleRaw : Raw.t :=
  Raw.mk (Some "Austin opens a new library") None
    (Some "https://example.com/library")
    (Some (Raw.mkSource None (Some "Example Times")))
    (Some "2024-11-02T10:00:00Z") None.

(** A provider that answers every query with the same single story. *)
Definition sameStoryProvider : list Request -> Request -> Response :=
  fun _ _ => Body (Some [sampleRaw]).

(** A provider that answers every query with five stories. *)
Definition fiveStoriesProvider : list Request -> Request -> Response :=
  fun _ _ => Body (Some [sampleRaw; sampleRaw; sampleRaw; sampleRaw; sampleRaw]).

(** A networked cache whose client and codec throw on every call. *)
Definition brokenBackend : Backend unit nat :=
  {| client_get := fun _ => throw "connection lost";
     client_setEx := fun _ _ _ => throw "connection lost";
     client_del := fun _ => throw "connection lost";
     stringify := fun _ => Thrown "circular structure";
     parse := fun _ => Thrown "unexpected token";
     truthyValue := fun n => negb (Nat.eqb n 0) |}.

Definition connectedCache : CacheManager unit nat :=
  mkCacheManager true (Some tt) ∅ [].

(** Four articles about Austin, Texas and the markets, as a store. *)
Definition sampleStore : Store :=
  fun r =>
    match r with
    | 0%nat => mkArticle "Austin council votes" "" "https://example.com/0" ""
                 "2024-11-02T08:00:00Z" ""
    | 1%nat => mkArticle "Weather" "Rain in Texas today" "https://example.com/1" ""
                 "" ""
    | 2%nat => mkArticle "Markets rally" "Stocks up" "https://example.com/2" ""
                 "2024-11-02T09:00:00Z" ""
    | 3%nat => mkArticle "Texas and Austin festival" "" "https://example.com/3" ""
                 "" ""
    | _ => mkArticle "" "" "" "" "" ""
    end.

(** One emitted item and a pool of four candidates, two of them with the
    same url and one with the url of the emitted item. *)
Definition emittedItem : Item.t :=
  Item.mk "sports-0-1730592000000" "Final tonight" "" "" "https://example.com/final"
    "sports".

Definition samplePool : list Item.t :=
  [Item.mk "sports-cand-0-1730592000000" "Final tonight" "" ""
     "https://example.com/final" "sports";
   Item.mk "sports-cand-1-1730592000000" "Transfer news" "" ""
     "https://example.com/transfer" "sports";
   Item.mk "local-cand-0-1730592000000" "Transfer news" "" ""
     "https://example.com/transfer" "local";
   Item.mk "local-cand-1-1730592000000" "Road works" "" "" "" "local"].

(** ** Vocabulary of the statements *)

(** [k] occurs in [t] as a contiguous substring. *)
Definition occursIn (k t : string) : Prop :=
  exists pre post : string, t = pre +:+ k +:+ post.

(** How many of the tokens occur in [t], and how many occur in [d] but not
    in [t]. *)
Definition countIn (t : string) (tokens : list string) : Z :=
  len (List.filter (fun g => JS.includes t g) tokens).

Definition countOnlyIn (d t : string) (tokens : list string) : Z :=
  len (List.filter (fun g => negb (JS.includes t g) && JS.includes d g) tokens).

(** The score of the second pass, as the specification words it. *)
Definition specScore (topic : string) (geo : option Geo) (a : Article) : Q :=
  let topicLower := JS.toLowerCase topic in
  let t := JS.toLowerCase (title a) in
  let d := JS.toLowerCase (description a) in
  (inject_Z (2 * countIn t (geoTokens geo) + countOnlyIn d t (geoTokens geo))
   + (if isCore topicLower then 0
      else inject_Z (2 * countIn t (topicTokens topicLower)
                     + countOnlyIn d t (topicTokens topicLower)))
   + (if String.eqb (publishedAt a) "" then 0 else 1 # 2))%Q.

(** The order of the sorted candidates: the higher score first. *)
Definition byScoreDesc (x y : Ref * Q) : Prop := (snd y <= snd x)%Q.

(** The test of the first pass and the score of the second, on a reference. *)
Definition keeps (h : Store) (topic : string) (geo : option Geo) (r : Ref) : bool :=
  let topicLower := JS.toLowerCase (JS.orStr topic "") in
  strictKeep (String.eqb topicLower "local") topicLower (geoTokens geo)
    (topicTokens topicLower) (h r).

Definition scoreOf (h : Store) (topic : string) (geo : option Geo) (r : Ref) : Q :=
  let topicLower := JS.toLowerCase (JS.orStr topic "") in
  score topicLower (geoTokens geo) (topicTokens topicLower) (h r).

(** No two articles at different positions share a url that is not empty. *)
Definition distinctUrls (l : list Article) : Prop :=
  forall (i j : nat) (a b : Article),
    i <> j -> nth_error l i = Some a -> nth_error l j = Some b ->
    url a <> "" -> url a <> url b.

(** The outcomes of a list of requests sent one after the other, the
    provider seeing the log grow. *)
Fixpoint settled (newsapi : list Request -> Request -> Response)
    (log reqs : list Request) : list (Outcome (list Raw.t)) :=
  match reqs with
  | [] => []
  | req :: rest =>
      readResponse (newsapi log req) :: settled newsapi (log ++ [req]) rest
  end.

(** The requests behind the branches of the "local" topic. *)
Definition localRequests (city region countryCode : string) (pageSize : Z)
    : list Request :=
  let cc := option_map JS.toLowerCase (whenTruthy countryCode) in
  let third := clampPageSize (JS.ceilDiv pageSize 3) in
  let half := clampPageSize (JS.ceilDiv pageSize 2) in
  (if JS.truthy city then
     [TopHeadlines (Some "general") cc (Some (dquote +:+ city +:+ dquote)) third;
      Everything ("title:" +:+ city) third;
      Everything city third]
   else [])
  ++ (if JS.truthy region then
        [TopHeadlines (Some "general") cc (Some (dquote +:+ region +:+ dquote)) third;
         Everything ("title:" +:+ region) third;
         Everything region third]
      else [])
  ++ (if JS.truthy countryCode then [TopHeadlines (Some "general") cc None half] else [])
  ++ [TopHeadlines (Some "general") None None half].

(** ** Further code of the same files *)

(** *** User model: custom topics and summary history *)

(** [addCustomTopic] and [removeCustomTopic], in the model method and in
    [fallbackAuth] alike, as functions of the [customTopics] array. *)
Definition addCustomTopic (topic : string) (customTopics : list string)
    : list string :=
  if existsb (String.eqb topic) customTopics then customTopics
  else customTopics ++ [topic].

Definition removeCustomTopic (topic : string) (customTopics : list string)
    : list string :=
  List.filter (fun t => negb (String.eqb t topic)) customTopics.

(** [addSummaryToHistory], as a function of the [summaryHistory] array and
    of the entry built from the request: [unshift], then the cut to 50. *)
Definition addSummaryToHistory {E : Type} (historyEntry : E)
    (summaryHistory : list E) : list E :=
  let summaryHistory := historyEntry :: summaryHistory in
  if 50 <? len summaryHistory then JS.slice0 summaryHistory 50
  else summaryHistory.

(** *** routes/customTopics.js *)

(** The answer of a route: the new list, or status 400 with its message. *)
Inductive Reply (A : Type) : Type :=
| Accepted (a : A)
| BadRequest (error : string).

Arguments Accepted {A} a.
Arguments BadRequest {A} error.

(** [POST /]: the body's [topic], when it is a string, and the user's list. *)
Definition postCustomTopic (topic : option string) (customTopics : list string)
    : Reply (list string) :=
  match topic with
  | None => BadRequest "Topic is required and must be a non-empty string"
  | Some topic =>
      if negb (JS.truthy topic) || (strLen (JS.trim topic) =? 0) then
        BadRequest "Topic is required and must be a non-empty string"
      else
        let trimmedTopic := JS.trim topic in
        if 50 <? strLen trimmedTopic then
          BadRequest "Topic must be 50 characters or less"
        else Accepted (addCustomTopic trimmedTopic customTopics)
  end.

(** The validation loop of [PUT /]: the first complaint, if any. *)
Fixpoint validateTopics (customTopics : list string) : option string :=
  match customTopics with
  | [] => None
  | topic :: rest =>
      if strLen (JS.trim topic) =? 0 then
        Some "All topics must be non-empty strings"
      else if 50 <? strLen (JS.trim topic) then
        Some "All topics must be 50 characters or less"
      else validateTopics rest
  end.

(** [PUT /]: the list that replaces the user's custom topics. *)
Definition putCustomTopics (customTopics : list string) : Reply (list string) :=
  match validateTopics customTopics with
  | Some error => BadRequest error
  | None => Accepted (JS.setOf (List.map JS.trim customTopics))
  end.

(** *** The usage gate around a summarize request *)

(** How a summarize request of a signed-in user ends: turned away with
    status 429, ended before the usage was recorded (a 400 or 500 answer),
    or answered. *)
Inductive GateOutcome : Type :=
| Denied
| NotCompleted
| Completed.

(** The gate of both summarize handlers for the in-memory user store: the
    check at [tCheck], and the increment at [tDone] when the handler gets
    that far ([completes]). *)
Definition gatedSummarize (toDateString : Date -> string)
    (tCheck tDone : Date) (completes : bool) (user : User)
    : User * GateOutcome :=
  let (user, usageCheck) := fallback_canFetchNews toDateString tCheck user in
  if negb (allowed usageCheck) then (user, Denied)
  else if completes then (fallback_incrementUsage tDone user, Completed)
  else (user, NotCompleted).

(** A series of such requests, one after the other. *)
Fixpoint gatedRun (toDateString : Date -> string)
    (requests : list (Date * Date * bool)) (user : User)
    : User * list GateOutcome :=
  match requests with
  | [] => (user, [])
  | (tCheck, tDone, completes) :: rest =>
      let (user, outcome) := gatedSummarize toDateString tCheck tDone completes user in
      let (user, outcomes) := gatedRun toDateString rest user in
      (user, outcome :: outcomes)
  end.

(** Three requests on one day, the first of which does not complete, from
    a user whose last use was the day before. *)
Definition sampleDayRequests : list (Date * Date * bool) :=
  [(1730592000000, 1730592005000, false);
   (1730592010000, 1730592015000, true);
   (1730592020000, 1730592025000, true)].

Definition yesterdayUser : User := mkUser false 1 (1730592000000 - 86400000).

(** *** More vocabulary *)

Definition requestPageSize (req : Request) : Z :=
  match req with
  | Everything _ pageSize => pageSize
  | TopHeadlines _ _ _ pageSize => pageSize
  end.

(** The page size of a request is one the provider accepts. *)
Definition validRequest (req : Request) : Prop :=
  1 <= requestPageSize req <= 50.

(** The requests behind the branches of the "general" topic. *)
Definition generalRequests (countryCode : string) : list Request :=
  List.map
    (fun category =>
       TopHeadlines (Some category)
         (option_map JS.toLowerCase (whenTruthy countryCode)) None 1)
    ["business"; "entertainment"; "health"; "science"; "sports"; "technology"]
  ++ [Everything "world" 1].

(** What a branch of the "general" topic makes of the outcome of its
    request: the first article, or nothing. *)
Definition firstArticle (o : Outcome (list Raw.t)) : list Raw.t :=
  match o with
  | Returned l => JS.slice0 l 1
  | Thrown _ => []
  end.

(** One branch of the "general" topic, on the request it sends. *)
Definition generalBranch {R : Type} (newsapi : list Request -> Request -> Response)
    (req : Request) : Eff (@World R) (list Raw.t) :=
  tryCatch (articles <- callNewsApi newsapi req ;; ret (JS.slice0 articles 1))
    (fun _ => ret []).

(** Proves that each request of a list built with [clampPageSize] is valid,
    from the two lemmas that say so for the two kinds of request. *)
Ltac valid_requests everything headlines :=
  repeat (apply List.Forall_cons;
          [first [apply everything | apply headlines] |]);
  apply List.Forall_nil.

(** The first request of a topic that is neither "general" nor "local":
    the category query of a core category, the free-text query otherwise. *)
Definition primaryRequest (topic : string) (geo : option Geo) (pageSize : Z)
    : Request :=
  let countryCode :=
    JS.orOpt (JS.orElse (geoField country geo) (geoField countryCode geo)) "" in
  let region :=
    JS.orOpt (JS.orElse (geoField region geo) (geoField state geo)) "" in
  let city := JS.orOpt (geoField city geo) "" in
  let normalizedTopic := JS.toLowerCase (JS.orStr topic "") in
  if isCore normalizedTopic && negb (String.eqb normalizedTopic "world") then
    TopHeadlines (whenTruthy normalizedTopic)
      (option_map JS.toLowerCase (whenTruthy countryCode))
      (JS.orElse (whenTruthy (JS.orStr city (JS.orStr region ""))) None)
      (clampPageSize pageSize)
  else
    Everything
      (JS.join " "
         (List.filter JS.truthy
            ([topic] ++ (if JS.truthy region then [region] else [])
                     ++ (if JS.truthy city then [city] else []))))
      (clampPageSize pageSize).

(** The article mentions one of the tokens, in its title or in its
    description, case apart. *)
Definition mentions (tokens : list string) (a : Article) : Prop :=
  exists tok,
    In tok tokens
    /\ (occursIn tok (JS.toLowerCase (title a))
        \/ occursIn tok (JS.toLowerCase (description a))).

(** Two geographies that differ in [countryCode] only. *)
Definition geoUS : Geo := mkGeo None None None None (Some "US").
Definition geoGB : Geo := mkGeo None None None None (Some "GB").

(** A provider that answers its first request and is down afterwards. *)
Definition onceProvider : list Request -> Request -> Response :=
  fun log _ =>
    match log with
    | [] => Body (Some [sampleRaw])
    | _ => HttpError 503 "Service Unavailable"
    end.

(** A provider that is down. *)
Definition downProvider : list Request -> Request -> Response :=
  fun _ _ => HttpError 503 "Service Unavailable".

(** The request a completion is asked with. *)
Definition chatRequestFor (topic : string) (articles : list Article)
    (wordCount : Z) (goodNewsOnly : bool) : ChatRequest :=
  {| model := "gpt-4o-mini";
     systemContent :=
       "You are a professional news podcaster. Create engaging, conversational summaries with a warm, informative tone.";
     userContent := buildPrompt topic articles wordCount goodNewsOnly;
     max_tokens := Qmin (inject_Z wordCount * (12 # 10)) 1200;
     temperature := 6 # 10 |}.

(** The opening sentence of every summary built without the completion
    service. *)
Definition opening (topic : string) (goodNewsOnly : bool) : string :=
  "Here's your " +:+ upliftingPrefix goodNewsOnly +:+ topic +:+ " news. ".

(** The summary built from the titles when the completion fails. *)
Definition titlesFallback (topic : string) (articles : list Article)
    (goodNewsOnly : bool) : string :=
  opening topic goodNewsOnly
  +:+ JS.join ". "
        (List.filter JS.truthy
           (List.map (fun a => JS.orStr (title a) "") (JS.slice0 articles 3)))
  +:+ ".".

(** *** The fetcher on untyped provider data *)

(** What [JSON.parse] gives: the provider's body is any JSON value, and
    nothing in the fetcher checks the type of a field. An object is the
    list of its members, read by the first member of a name. A number is
    the value parsed, of which only being zero matters here (JSON has no
    NaN). *)
Module Json.

#[local] Set Warnings "-register-all".

Inductive t : Type :=
| Null
| Bool (b : bool)
| Number (n : Q)
| String (s : string)
| Array (items : list t)
| Object (members : list (string * t)).

(** [Boolean(v)] *)
Definition truthy (v : t) : bool :=
  match v with
  | Null => false
  | Bool b => b
  | Number n => negb (Qeq_bool n 0)
  | String s => JS.truthy s
  | Array _ => true
  | Object _ => true
  end.

(** [v[name]] for a value other than null, [None] being undefined: only
    an object has members of the names read here. *)
Definition member (name : string) (v : t) : option t :=
  match v with
  | Object members =>
      option_map snd (List.find (fun m => String.eqb (fst m) name) members)
  | _ => None
  end.

(** [Boolean(o)] for a value that may be undefined. *)
Definition truthyOpt (o : option t) : bool :=
  match o with
  | Some v => truthy v
  | None => false
  end.

(** [o || ""] *)
Definition orEmpty (o : option t) : t :=
  match o with
  | Some v => if truthy v then v else String ""
  | None => String ""
  end.


(** Whether the conversion of [v] to a string in a template literal
    succeeds. An object with a member [toString] cannot be converted (the
    member is not a function, and [valueOf] gives the object back); an array
    is joined, which converts each element. *)
Fixpoint printable (v : t) : bool :=
  match v with
  | Array items => forallb printable items
  | Object members =>
      negb (existsb (fun m => String.eqb (fst m) "toString") members)
  | _ => true
  end.

Definition printableOpt (o : option t) : bool :=
  match o with
  | Some v => printable v
  | None => true
  end.

End Json.

(** [l.map(f)] with a callback that may throw. *)
Fixpoint mapOutcome {A C : Type} (f : A -> Outcome C) (l : list A)
    : Outcome (list C) :=
  match l with
  | [] => Returned []
  | x :: rest =>
      match f x with
      | Thrown e => Thrown e
      | Returned y =>
          match mapOutcome f rest with
          | Thrown e => Thrown e
          | Returned ys => Returned (y :: ys)
          end
      end
  end.

(** [fetchArticlesForTopic] once more, with the provider's records as the
    JSON values they are. The requests, the cache and the strategies are
    those of the model above; what differs is what a record and a field of
    a normalized article can be. *)
Module Untyped.

Record Article := mkArticle {
  title : Json.t;
  description : Json.t;
  url : Json.t;
  source : Json.t;
  publishedAt : Json.t;
  urlToImage : Json.t
}.

Record FetchResult := mkFetchResult {
  articles : list Article;
  note : option string
}.

(** What comes back: the transport fails, the status is not ok, the body
    is not JSON, or the body is the value [data]. *)
Inductive Response : Type :=
| NetworkError
| HttpError (status : Z) (text : string)
| InvalidJson
| Body (data : Json.t).

(** The rest of a provider function after [fetch]: [data.articles] when
    that is an array and the empty array otherwise; reading [articles] of
    null throws. *)
Definition readResponse (resp : Response) : Outcome (list Json.t) :=
  match resp with
  | NetworkError => Thrown "fetch failed"
  | HttpError status text =>
      Thrown ("NewsAPI error: " +:+ JS.showZ status +:+ " " +:+ text)
  | InvalidJson => Thrown "SyntaxError: Unexpected token in JSON"
  | Body Json.Null =>
      Thrown "TypeError: Cannot read properties of null (reading 'articles')"
  | Body data =>
      match Json.member "articles" data with
      | Some (Json.Array l) => Returned l
      | _ => Returned []
      end
  end.

(** The object literal built for each raw record; reading [title] of null
    throws. *)
Definition normalize (a : Json.t) : Outcome Article :=
  match a with
  | Json.Null =>
      Thrown "TypeError: Cannot read properties of null (reading 'title')"
  | _ =>
      Returned
        {| title := Json.orEmpty (Json.member "title" a);
           description := Json.orEmpty (Json.member "description" a);
           url := Json.orEmpty (Json.member "url" a);
           source :=
             Json.orEmpty
               (match Json.member "source" a with
                | Some s => if Json.truthy s then Json.member "name" s else Some s
                | None => None
                end);
           publishedAt := Json.orEmpty (Json.member "publishedAt" a);
           urlToImage := Json.orEmpty (Json.member "urlToImage" a) |}
  end.

Section Fetcher.

Context {R : Type} (B : Backend R FetchResult).
Variable NEWSAPI_KEY : string.
Variable newsapi : list Request -> Request -> Response.

(** The cache and the requests sent so far to the provider. *)
Record World := mkWorld {
  cache : CacheManager R FetchResult;
  newsLog : list Request
}.

Definition onCache {A : Type} (c : Eff (CacheManager R FetchResult) A) : Eff World A :=
  zoom cache (fun c' w => mkWorld c' (newsLog w)) c.

Definition callNewsApi (req : Request) : Eff World (list Json.t) :=
  fun w => (readResponse (newsapi (newsLog w) req), mkWorld (cache w) (newsLog w ++ [req])).

Definition fetchArticlesEverything (qParts : list string) (maxResults : Z)
    : Eff World (list Json.t) :=
  let q := JS.join " " (List.filter JS.truthy qParts) in
  let pageSize := clampPageSize maxResults in
  callNewsApi (Everything q pageSize).

Definition fetchTopHeadlinesByCategory (category countryCode : string)
    (maxResults : Z) (extraQuery : option string) : Eff World (list Json.t) :=
  let pageSize := clampPageSize maxResults in
  callNewsApi
    (TopHeadlines (whenTruthy category)
       (option_map JS.toLowerCase (whenTruthy countryCode))
       (JS.orElse extraQuery None) pageSize).

Definition generalPromises (countryCode : string) : list (Eff World (list Json.t)) :=
  let otherTopics :=
    ["business"; "entertainment"; "health"; "science"; "sports"; "technology";
     "world"] in
  List.map
    (fun category =>
       tryCatch
         (if String.eqb category "world" then
            worldArticles <- fetchArticlesEverything ["world"] 1 ;;
            ret (JS.slice0 worldArticles 1)
          else
            categoryArticles <- fetchTopHeadlinesByCategory category countryCode 1 None ;;
            ret (JS.slice0 categoryArticles 1))
         (fun _ => ret []))
    otherTopics.

Definition localPromises (city region countryCode : string) (pageSize : Z)
    : list (Eff World (list Json.t)) :=
  (if JS.truthy city then
     [fetchTopHeadlinesByCategory "general" countryCode (JS.ceilDiv pageSize 3)
        (Some (dquote +:+ city +:+ dquote));
      fetchArticlesEverything ["title:" +:+ city] (JS.ceilDiv pageSize 3);
      fetchArticlesEverything [city] (JS.ceilDiv pageSize 3)]
   else [])
  ++ (if JS.truthy region then
        [fetchTopHeadlinesByCategory "general" countryCode (JS.ceilDiv pageSize 3)
           (Some (dquote +:+ region +:+ dquote));
         fetchArticlesEverything ["title:" +:+ region] (JS.ceilDiv pageSize 3);
         fetchArticlesEverything [region] (JS.ceilDiv pageSize 3)]
      else [])
  ++ (if JS.truthy countryCode then
        [fetchTopHeadlinesByCategory "general" countryCode (JS.ceilDiv pageSize 2) None]
      else [])
  ++ [fetchTopHeadlinesByCategory "general" "" (JS.ceilDiv pageSize 2) None].

(** The raw articles of a topic. In the "general" branch the log line that
    prints each title and source runs inside the [try]: when a title or a
    source cannot be converted to a string the [catch] replaces the
    articles by the plain "general" headlines. *)
Definition fetchRaw (topic : string) (geo : option Geo) (pageSize : Z)
    : Eff World (list Json.t) :=
  let countryCode := JS.orOpt (JS.orElse (geoField country geo) (geoField countryCode geo)) "" in
  let region := JS.orOpt (JS.orElse (geoField region geo) (geoField state geo)) "" in
  let city := JS.orOpt (geoField city geo) "" in
  let queryParts :=
    [topic] ++ (if JS.truthy region then [region] else [])
            ++ (if JS.truthy city then [city] else []) in
  let normalizedTopic := JS.toLowerCase (JS.orStr topic "") in
  let useCategory := isCore normalizedTopic && negb (String.eqb normalizedTopic "world") in
  let isLocal := String.eqb normalizedTopic "local" in
  let isGeneral := String.eqb normalizedTopic "general" in
  if isGeneral then
    tryCatch
      (results <- allSettled (generalPromises countryCode) ;;
       let articles :=
         List.filter
           (fun article =>
              Json.truthy article && Json.truthyOpt (Json.member "title" article))
           (fulfilledValues results) in
       if forallb
            (fun a => Json.printableOpt (Json.member "title" a)
                      && Json.printableOpt (Json.member "source" a))
            articles
       then ret articles
       else throw "TypeError: Cannot convert object to primitive value")
      (fun _ => fetchTopHeadlinesByCategory "general" countryCode pageSize None)
  else if isLocal then
    tryCatch
      (results <- allSettled (localPromises city region countryCode pageSize) ;;
       ret (JS.slice0 (fulfilledValues results) pageSize))
      (fun _ =>
         fetchTopHeadlinesByCategory "general" (JS.orStr countryCode "") pageSize None)
  else if useCategory then
    let category := normalizedTopic in
    let bias := JS.orStr city (JS.orStr region "") in
    articles <- fetchTopHeadlinesByCategory category countryCode pageSize
                  (whenTruthy bias) ;;
    if (len articles <? Z.min 5 pageSize) && JS.truthy bias then
      extra <- fetchArticlesEverything [normalizedTopic; bias]
                 (pageSize - len articles) ;;
      ret (articles ++ extra)
    else ret articles
  else fetchArticlesEverything queryParts pageSize.

Definition fetchArticlesForTopic (topic : string) (geo : option Geo)
    (maxResults : Z) : Eff World FetchResult :=
  let pageSize := clampPageSize maxResults in
  if negb (JS.truthy NEWSAPI_KEY) then
    ret {| articles := []; note := Some "Missing NEWSAPI_KEY" |}
  else
    let cacheKey := Cache.getNewsKey topic geo pageSize in
    cached <- onCache (Cache.get B cacheKey) ;;
    match cached with
    | Some hit => ret hit
    | None =>
        articles <- fetchRaw topic geo pageSize ;;
        normalized <- (fun w => (mapOutcome normalize articles, w)) ;;
        let result := {| articles := normalized; note := None |} in
        onCache (Cache.set B cacheKey result 900) ;;;
        ret result
    end.

End Fetcher.

Arguments cache {R}.
Arguments newsLog {R}.
Arguments mkWorld {R}.

End Untyped.

(** **** Vocabulary of the normalized fields *)








(** A raw record of the typed model as the JSON object it stands for. *)
Definition fieldMember (name : string) (o : option string)
    : list (string * Json.t) :=
  match o with
  | Some s => [(name, Json.String s)]
  | None => []
  end.

Definition rawToJson (a : Raw.t) : Json.t :=
  Json.Object
    (fieldMember "title" (Raw.title a)
     ++ fieldMember "description" (Raw.description a)
     ++ fieldMember "url" (Raw.url a)
     ++ (match Raw.source a with
         | Some s =>
             [("source",
               Json.Object (fieldMember "id" (Raw.id s)
                            ++ fieldMember "name" (Raw.name s)))]
         | None => []
         end)
     ++ fieldMember "publishedAt" (Raw.publishedAt a)
     ++ fieldMember "urlToImage" (Raw.urlToImage a)).

Definition articleToJson (a : Article) : Untyped.Article :=
  {| Untyped.title := Json.String (title a);
     Untyped.description := Json.String (description a);
     Untyped.url := Json.String (url a);
     Untyped.source := Json.String (source a);
     Untyped.publishedAt := Json.String (publishedAt a);
     Untyped.urlToImage := Json.String (urlToImage a) |}.

(** **** Instances *)





(** *** Expiry of the in-process cache *)

(** The timer has run out after [elapsed] milliseconds. *)
Definition due (elapsed : Z) (timer : string * Z) : bool :=
  snd timer <=? elapsed.

(** Time passing for a cache manager. [timers] holds, for each pending
    [setTimeout] of [set], the key and the delay that is left. After
    [elapsed] milliseconds the callbacks whose delay has run out have run,
    each deleting its key from the in-process map, and the other timers
    have that much less to wait. *)
Definition elapse {R V : Type} (elapsed : Z) (this : CacheManager R V)
    : CacheManager R V :=
  mkCacheManager (isConnected this) (client this)
    (fold_left (fun m timer => delete (fst timer) m)
       (List.filter (due elapsed) (timers this)) (fallbackCache this))
    (List.map (fun timer => (fst timer, snd timer - elapsed))
       (List.filter (fun timer => negb (due elapsed timer)) (timers this))).

(** The world [elapsed] milliseconds later, nothing else having happened. *)
Definition later {R : Type} (elapsed : Z) (w : @World R) : @World R :=
  mkWorld (elapse elapsed (cache w)) (newsLog w) (llmLog w).

(** *** Text to speech ([/api/tts]) *)

(** The text of a speech request is an arbitrary JavaScript string, a
    sequence of UTF-16 code units: its sanitisation reads code units above
    the Latin-1 range. *)
Module Utf16.

Definition str : Type := list N.

(** White space and line terminators: the class [\s] of a regular
    expression without the [u] flag, and what [trim] strips. *)
Definition isWhite (c : N) : bool :=
  ((9 <=? c) && (c <=? 13) || (c =? 32) || (c =? 0xa0) || (c =? 0x1680)
   || (0x2000 <=? c) && (c <=? 0x200a) || (c =? 0x2028) || (c =? 0x2029)
   || (c =? 0x202f) || (c =? 0x205f) || (c =? 0x3000) || (c =? 0xfeff))%N.

(** The callback of [replace(/[\n\r\u2018\u2019\u201C\u201D]/g, ...)],
    extended by the identity on the code units the class does not match:
    line breaks become a space, curly quotes become straight ones. *)
Definition plainQuote (c : N) : N :=
  (if (c =? 10) || (c =? 13) then 32
   else if (c =? 0x2018) || (c =? 0x2019) then 39
   else if (c =? 0x201c) || (c =? 0x201d) then 34
   else c)%N.

(** [s.replace(/\s+/g, " ")], as [JS.collapseSpaces]. *)
Fixpoint collapse (inRun : bool) (s : str) : str :=
  match s with
  | [] => []
  | c :: s' =>
      if isWhite c
      then if inRun then collapse true s' else 32%N :: collapse true s'
      else c :: collapse false s'
  end.

Fixpoint trimStart (s : str) : str :=
  match s with
  | [] => []
  | c :: s' => if isWhite c then trimStart s' else s
  end.

Fixpoint trimEnd (s : str) : str :=
  match s with
  | [] => []
  | c :: s' =>
      match trimEnd s' with
      | [] => if isWhite c then [] else [c]
      | r => c :: r
      end
  end.

(** [String.prototype.trim] *)
Definition trim (s : str) : str := trimEnd (trimStart s).

(** The string ["..."]. *)
Definition ellipsis : str := [46; 46; 46]%N.

End Utf16.

(** [cleaned]: the two replacements, then [trim]. *)
Definition cleanText (text : Utf16.str) : Utf16.str :=
  Utf16.trim (Utf16.collapse false (List.map Utf16.plainQuote text)).

Definition maxLength : Z := 4000.

(** [finalText], the text that is spoken. *)
Definition finalTextOf (text : Utf16.str) : Utf16.str :=
  let cleaned := cleanText text in
  if maxLength <? len cleaned
  then JS.slice0 cleaned (maxLength - 3) ++ Utf16.ellipsis
  else cleaned.

Definition availableVoices : list string :=
  ["alloy"; "echo"; "fable"; "onyx"; "nova"; "shimmer"].

(** [selectedVoice] for the [voice] of the request body; a missing voice
    is ["alloy"] by the parameter's default. *)
Definition selectVoice (voice : option string) : string :=
  let normalizedVoice := JS.toLowerCase (JS.orOpt voice "alloy") in
  if existsb (String.eqb normalizedVoice) availableVoices
  then normalizedVoice else "alloy".

(** The argument of [openai.audio.speech.create]; the format is always
    ["mp3"]. *)
Module Speech.
Record t := mk {
  model : string;
  voice : string;
  input : Utf16.str
}.
End Speech.

(** The speech service answers a request with audio, with nothing, or
    fails; its answer may depend on the requests made before. The state of
    the computations below is the log of the requests made. *)
Section TextToSpeech.

Context {Audio : Type}.
Variable create : list Speech.t -> Speech.t -> Outcome (option Audio).

Definition tryModel (finalText : Utf16.str) (model voice : string)
    : Eff (list Speech.t) (option Audio) :=
  fun log =>
    let request :=
      {| Speech.model := model; Speech.voice := voice;
         Speech.input := finalText |} in
    (create log request, log ++ [request]).

(** One [for] loop over attempts. The loop leaves with the first audio
    obtained; a failed attempt is remembered in [lastErr] and an empty
    answer leaves [lastErr] as it is. The result is the pair of the loop's
    variables [speech] and [lastErr]. *)
Fixpoint attemptLoop (finalText : Utf16.str) (attempts : list (string * string))
    (lastErr : option string)
    : Eff (list Speech.t) (option Audio * option string) :=
  match attempts with
  | [] => ret (None, lastErr)
  | (model, attemptVoice) :: rest =>
      r <- tryCatch
             (speech <- tryModel finalText model attemptVoice ;;
              ret (speech, lastErr))
             (fun e => ret (None, Some e)) ;;
      match r with
      | (Some speech, _) => ret r
      | (None, lastErr) => attemptLoop finalText rest lastErr
      end
  end.

(** The attempts of the handler, from the choice of the voice to the
    [throw] that ends them when no audio was obtained. *)
Definition synthesize (voice : option string) (finalText : Utf16.str)
    : Eff (list Speech.t) Audio :=
  let selectedVoice := selectVoice voice in
  let attempts :=
    [("tts-1", selectedVoice); ("tts-1-hd", selectedVoice);
     ("gpt-4o-mini-tts", selectedVoice)] in
  let fallbackAttempts := [("tts-1", "alloy"); ("tts-1-hd", "alloy")] in
  r <- attemptLoop finalText attempts None ;;
  r <- match r with
       | (Some _, _) => ret r
       | (None, lastErr) => attemptLoop finalText fallbackAttempts lastErr
       end ;;
  match r with
  | (Some speech, _) => ret speech
  | (None, Some lastErr) => throw lastErr
  | (None, None) => throw "All TTS attempts failed"
  end.

End TextToSpeech.

(** The five requests the attempts can make, in their order. *)
Definition speechRequests (voice : option string) (finalText : Utf16.str)
    : list Speech.t :=
  List.map (fun mv => Speech.mk (fst mv) (snd mv) finalText)
    [("tts-1", selectVoice voice); ("tts-1-hd", selectVoice voice);
     ("gpt-4o-mini-tts", selectVoice voice);
     ("tts-1", "alloy"); ("tts-1-hd", "alloy")].

(** White space occurs in [s] as single U+0020 only; [prevWhite] tells that
    the code unit before [s] is white space. *)
Fixpoint singleSpaced (prevWhite : bool) (s : Utf16.str) : bool :=
  match s with
  | [] => true
  | c :: s' =>
      if Utf16.isWhite c
      then (c =? 32)%N && negb prevWhite && singleSpaced true s'
      else singleSpaced false s'
  end.

(** The attempts as one pass over a list of requests: the first audio
    obtained ends the pass; without any audio the pass fails with the last
    failure met, or with the handler's own error when every answer was
    empty. The result comes with the log of the requests made. *)
Fixpoint firstAudio {Audio : Type}
    (create : list Speech.t -> Speech.t -> Outcome (option Audio))
    (requests : list Speech.t) (lastErr : option string) (log : list Speech.t)
    : Outcome Audio * list Speech.t :=
  match requests with
  | [] =>
      (Thrown (match lastErr with
               | Some e => e
               | None => "All TTS attempts failed"
               end), log)
  | request :: rest =>
      match create log request with
      | Returned (Some speech) => (Returned speech, log ++ [request])
      | Returned None => firstAudio create rest lastErr (log ++ [request])
      | Thrown e => firstAudio create rest (Some e) (log ++ [request])
      end
  end.

(** A speech service that only serves its high-definition model. *)
Definition hdOnly : list Speech.t -> Speech.t -> Outcome (option (list Z)) :=
  fun _ request =>
    if String.eqb (Speech.model request) "tts-1-hd"
    then Returned (Some [73; 68; 51])
    else Thrown "model_not_found".

(* ================================================================== *)
(** * Part II: properties *)
(* ================================================================== *)

(** ** Strings *)

Lemma append_nil_l (s : string) : "" +:+ s = s.
Proof. reflexivity. Qed.

Lemma append_cons (c : ascii) (s1 s2 : string) :
  String c s1 +:+ s2 = String c (s1 +:+ s2).
Proof. reflexivity. Qed.

Lemma append_empty_r (s : string) : s +:+ "" = s.
Proof.
  induction s as [|c s IH]; [reflexivity | now rewrite append_cons, IH].
Qed.

Lemma append_assoc (s1 s2 s3 : string) :
  (s1 +:+ s2) +:+ s3 = s1 +:+ (s2 +:+ s3).
Proof.
  induction s1 as [|c s1 IH]; [reflexivity | now rewrite !append_cons, IH].
Qed.

Lemma prefix_spec (k t : string) :
  String.prefix k t = true <-> exists post, t = k +:+ post.
Proof.
  revert k. induction t as [|c' t IH]; intros [|c k]; simpl.
  - split; [intros _; now exists "" | reflexivity].
  - split; [discriminate | intros [post H]; discriminate].
  - split; [intros _; now exists (String c' t) | reflexivity].
  - destruct (Ascii.ascii_dec c c') as [->|Hne].
    + rewrite IH. split; intros [post H]; exists post.
      * now rewrite H.
      * rewrite append_cons in H. now inversion H.
    + split; [discriminate |].
      intros [post H]. rewrite append_cons in H. inversion H. congruence.
Qed.

Lemma includes_spec (t k : string) :
  JS.includes t k = true <-> occursIn k t.
Proof.
  induction t as [|c t IH].
  - cbn [JS.includes]. rewrite orb_false_r, prefix_spec. split.
    + intros [post H]. now exists "", post.
    + intros [pre [post H]]. destruct pre; [now exists post | discriminate].
  - cbn [JS.includes]. rewrite orb_true_iff, prefix_spec, IH. split.
    + intros [[post H] | [pre [post H]]].
      * now exists "", post.
      * exists (String c pre), post. rewrite append_cons. now rewrite H.
    + intros [pre [post H]]. destruct pre as [|c' pre].
      * left. now exists post.
      * right. exists pre, post. rewrite append_cons in H. now inversion H.
Qed.

Lemma includes_false_spec (t k : string) :
  JS.includes t k = false <-> ~ occursIn k t.
Proof.
  rewrite <- includes_spec. destruct (JS.includes t k); split; intros H;
    try reflexivity; try discriminate; try (intros H'; discriminate).
  now contradiction H.
Qed.

Lemma orStr_empty (s : string) : JS.orStr s "" = s.
Proof.
  unfold JS.orStr. destruct (String.eqb_spec s ""); [now subst | reflexivity].
Qed.

Lemma toLowerCase_app (s1 s2 : string) :
  JS.toLowerCase (s1 +:+ s2) = JS.toLowerCase s1 +:+ JS.toLowerCase s2.
Proof.
  induction s1 as [|c s1 IH]; [reflexivity |].
  rewrite append_cons. simpl. now rewrite IH.
Qed.

Lemma existsb_false_iff {A : Type} (f : A -> bool) (l : list A) :
  existsb f l = false <-> forall x, In x l -> f x = false.
Proof.
  induction l as [|y l IH]; simpl.
  - split; [intros _ x [] | reflexivity].
  - rewrite orb_false_iff, IH. split.
    + intros [Hy Hl] x [<- | Hx]; auto.
    + intros H. split; [apply H; now left | intros x Hx; apply H; now right].
Qed.

(** ** Uplifting-news classifier *)

Lemma upliftingText_lower (a : Article) :
  upliftingText a = JS.toLowerCase (title a +:+ " " +:+ description a).
Proof.
  unfold upliftingText. rewrite !orStr_empty, !toLowerCase_app. reflexivity.
Qed.

(** C8. The classifier answers [false] as soon as a negative keyword occurs
    in the lowercased text "title description", whatever positive keywords
    occur; and it answers [true] exactly when no negative keyword occurs and
    some positive keyword does. *)
Theorem isUpliftingNews_negative_first (a : Article) :
  let text := JS.toLowerCase (title a +:+ " " +:+ description a) in
  ((exists k, In k negativeKeywords /\ occursIn k text) ->
   isUpliftingNews a = false)
  /\ (isUpliftingNews a = true <->
      (forall k, In k negativeKeywords -> ~ occursIn k text)
      /\ (exists k, In k upliftingKeywords /\ occursIn k text)).
Proof.
  intros text. unfold isUpliftingNews.
  rewrite upliftingText_lower. fold text.
  destruct (existsb (fun keyword => JS.includes text keyword) negativeKeywords)
    eqn:Hneg.
  - apply existsb_exists in Hneg. destruct Hneg as [k [Hin Hk]].
    apply includes_spec in Hk. split; [reflexivity |].
    split; [discriminate |]. intros [Hnone _]. exfalso. exact (Hnone k Hin Hk).
  - rewrite existsb_false_iff in Hneg. split.
    + intros [k [Hin Hk]]. apply includes_spec in Hk.
      rewrite (Hneg k Hin) in Hk. discriminate.
    + rewrite existsb_exists. split.
      * intros [k [Hin Hk]]. split.
        -- intros k' Hin'. apply includes_false_spec. now apply Hneg.
        -- exists k. split; [assumption | now apply includes_spec].
      * intros [_ [k [Hin Hk]]]. exists k. split; [assumption |].
        now apply includes_spec.
Qed.

Example uplifting_breakthrough :
  isUpliftingNews
    (mkArticle "Scientists report a Breakthrough" "A new battery design." "" "" "" "")
  = true.
Proof. vm_compute. reflexivity. Qed.

Example uplifting_negative_wins :
  isUpliftingNews
    (mkArticle "Hope and recovery after the flood" "Volunteers help." "" "" "" "")
  = false.
Proof. vm_compute. reflexivity. Qed.

Example uplifting_neutral :
  isUpliftingNews (mkArticle "Council meets on Monday" "Agenda published." "" "" "" "")
  = false.
Proof. vm_compute. reflexivity. Qed.

(** ** Usage gate *)

Lemma evaluateQuota_free (u : User) :
  isPremium u = false -> dailyUsageCount u = 0 ->
  allowed (evaluateQuota u) = true /\ dailyCount (evaluateQuota u) = Some 0.
Proof.
  intros Hfree Hzero. unfold evaluateQuota. rewrite Hfree, Hzero. simpl.
  split; reflexivity.
Qed.

Lemma evaluateQuota_premium (u : User) :
  isPremium u = true -> allowed (evaluateQuota u) = true.
Proof. intros Hp. unfold evaluateQuota. now rewrite Hp. Qed.

Section UsageGateFacts.

Variable toDateString : Date -> string.

(** The database-backed method and the in-memory fallback compute the same
    user object and the same answer. *)
Lemma canFetchNews_agree (now : Date) (this : UserDoc) :
  doc (fst (canFetchNews toDateString now this))
  = fst (fallback_canFetchNews toDateString now (doc this))
  /\ snd (canFetchNews toDateString now this)
     = snd (fallback_canFetchNews toDateString now (doc this)).
Proof.
  unfold canFetchNews, fallback_canFetchNews.
  destruct (String.eqb _ _); simpl; split; reflexivity.
Qed.

Lemma fallback_canFetchNews_new_day (now : Date) (user : User) :
  toDateString (lastUsageDate user) <> toDateString now ->
  fallback_canFetchNews toDateString now user
  = (mkUser (isPremium user) 0 now,
     evaluateQuota (mkUser (isPremium user) 0 now)).
Proof.
  intros Hday. unfold fallback_canFetchNews.
  destruct (String.eqb_spec (toDateString (lastUsageDate user)) (toDateString now));
    [contradiction | reflexivity].
Qed.

Lemma fallback_canFetchNews_same_day (now : Date) (user : User) :
  toDateString (lastUsageDate user) = toDateString now ->
  fallback_canFetchNews toDateString now user = (user, evaluateQuota user).
Proof.
  intros Hday. unfold fallback_canFetchNews.
  rewrite Hday, String.eqb_refl. reflexivity.
Qed.

Lemma canFetchNews_new_day (now : Date) (this : UserDoc) :
  toDateString (lastUsageDate (doc this)) <> toDateString now ->
  canFetchNews toDateString now this
  = (mkUserDoc (mkUser (isPremium (doc this)) 0 now)
       (saved this ++ [mkUser (isPremium (doc this)) 0 now]),
     evaluateQuota (mkUser (isPremium (doc this)) 0 now)).
Proof.
  intros Hday. unfold canFetchNews.
  destruct (String.eqb_spec (toDateString (lastUsageDate (doc this)))
              (toDateString now)); [contradiction | reflexivity].
Qed.

Lemma canFetchNews_same_day (now : Date) (this : UserDoc) :
  toDateString (lastUsageDate (doc this)) = toDateString now ->
  canFetchNews toDateString now this = (this, evaluateQuota (doc this)).
Proof.
  intros Hday. unfold canFetchNews. rewrite Hday, String.eqb_refl. reflexivity.
Qed.

(** C2. On a calendar day other than that of [lastUsageDate], both
    implementations of [canFetchNews] set the count to 0 and the date to
    now, the database one saving the reset, and only then evaluate the
    quota: a user who is not premium is allowed, whatever the old count.
    After every call the date is on today's calendar day, the count being
    0 when the day changed and untouched otherwise. *)
Theorem canFetchNews_daily_rollover (now : Date) (this : UserDoc) (user : User) :
  let after := fst (canFetchNews toDateString now this) in
  let check := snd (canFetchNews toDateString now this) in
  let after' := fst (fallback_canFetchNews toDateString now user) in
  let check' := snd (fallback_canFetchNews toDateString now user) in
  (toDateString (lastUsageDate (doc this)) <> toDateString now ->
   dailyUsageCount (doc after) = 0
   /\ lastUsageDate (doc after) = now
   /\ saved after = saved this ++ [doc after]
   /\ check = evaluateQuota (doc after)
   /\ (isPremium (doc this) = false ->
       allowed check = true /\ dailyCount check = Some 0))
  /\ (toDateString (lastUsageDate user) <> toDateString now ->
      dailyUsageCount after' = 0
      /\ lastUsageDate after' = now
      /\ check' = evaluateQuota after'
      /\ (isPremium user = false ->
          allowed check' = true /\ dailyCount check' = Some 0))
  /\ (toDateString (lastUsageDate (doc after)) = toDateString now
      /\ (toDateString (lastUsageDate (doc this)) = toDateString now ->
          after = this))
  /\ (toDateString (lastUsageDate after') = toDateString now
      /\ (toDateString (lastUsageDate user) = toDateString now ->
          after' = user)).
Proof.
  cbv zeta. split; [| split; [| split; split]].
  - intros Hday. rewrite (canFetchNews_new_day now this Hday). cbn [fst snd doc saved].
    do 4 (split; [reflexivity |]).
    intros Hfree. apply evaluateQuota_free; [exact Hfree | reflexivity].
  - intros Hday. rewrite (fallback_canFetchNews_new_day now user Hday).
    cbn [fst snd]. do 3 (split; [reflexivity |]).
    intros Hfree. apply evaluateQuota_free; [exact Hfree | reflexivity].
  - destruct (string_dec (toDateString (lastUsageDate (doc this)))
                (toDateString now)) as [Heq | Hne].
    + rewrite (canFetchNews_same_day now this Heq). exact Heq.
    + rewrite (canFetchNews_new_day now this Hne). reflexivity.
  - intros Heq. rewrite (canFetchNews_same_day now this Heq). reflexivity.
  - destruct (string_dec (toDateString (lastUsageDate user)) (toDateString now))
      as [Heq | Hne].
    + rewrite (fallback_canFetchNews_same_day now user Heq). exact Heq.
    + rewrite (fallback_canFetchNews_new_day now user Hne). reflexivity.
  - intros Heq. rewrite (fallback_canFetchNews_same_day now user Heq). reflexivity.
Qed.

End UsageGateFacts.

(** The rollover on a concrete calendar: a free user who used the one daily
    summary yesterday is allowed today, with the count back at 0. *)
Lemma canFetchNews_daily_rollover_witness :
  let now := 1730592000000 + 3600000 in
  let user := mkUser false 1 (now - 86400000) in
  utcDateString (lastUsageDate user) <> utcDateString now
  /\ allowed (snd (fallback_canFetchNews utcDateString now user)) = true
  /\ dailyCount (snd (fallback_canFetchNews utcDateString now user)) = Some 0
  /\ allowed (snd (canFetchNews utcDateString now (mkUserDoc user []))) = true.
Proof.
  cbv zeta.
  pose proof (canFetchNews_daily_rollover utcDateString
                (1730592000000 + 3600000)
                (mkUserDoc (mkUser false 1 (1730592000000 + 3600000 - 86400000)) [])
                (mkUser false 1 (1730592000000 + 3600000 - 86400000))) as H.
  cbv zeta in H. destruct H as [Hdb [Hfb _]].
  assert (Hday : utcDateString (1730592000000 + 3600000 - 86400000)
                 <> utcDateString (1730592000000 + 3600000))
    by (vm_compute; discriminate).
  split; [exact Hday |].
  destruct (Hfb Hday) as [_ [_ [_ Hfree]]].
  destruct (Hfree eq_refl) as [Hallowed Hcount].
  destruct (Hdb Hday) as [_ [_ [_ [_ Hfree']]]].
  destruct (Hfree' eq_refl) as [Hallowed' _].
  repeat split; assumption.
Defined.

(** ** Asynchronous code *)

Lemma tryCatch_returns {S A : Type} (body : Eff S A) (handler : string -> Eff S A)
    (s : S) :
  (forall e s', exists a, fst (handler e s') = Returned a) ->
  exists a, fst (tryCatch body handler s) = Returned a.
Proof.
  intros Hh. unfold tryCatch. destruct (body s) as [[a | e] s'].
  - now exists a.
  - apply Hh.
Qed.

Lemma tryCatch_ret_total {S A : Type} (body : Eff S A) (d : A) (s : S) :
  exists a, fst (tryCatch body (fun _ => ret d) s) = Returned a.
Proof. apply tryCatch_returns. intros e s'. now exists d. Qed.

Lemma allSettled_returns {S A : Type} (promises : list (Eff S A)) (s : S) :
  exists os, fst (allSettled promises s) = Returned os
             /\ List.length os = List.length promises.
Proof.
  revert s. induction promises as [|p rest IH]; intros s; simpl.
  - now exists [].
  - destruct (p s) as [o s1]. destruct (IH s1) as [os [Hos Hlen]].
    destruct (allSettled rest s1) as [[os' | e] s2]; simpl in Hos.
    + inversion Hos; subst. exists (o :: os). simpl. now rewrite Hlen.
    + discriminate.
Qed.

(** ** Cache manager *)

Section CacheFacts.

Context {R V : Type} (B : Backend R V).

Lemma cache_get_returns (key : string) (this : CacheManager R V) :
  exists v, fst (Cache.get B key this) = Returned v.
Proof. unfold Cache.get. apply tryCatch_ret_total. Qed.

Lemma cache_set_returns (key : string) (value : V) (ttlSeconds : Z)
    (this : CacheManager R V) :
  fst (Cache.set B key value ttlSeconds this) = Returned tt.
Proof.
  destruct (tryCatch_ret_total
              (fun this : CacheManager R V =>
                 match isConnected this, client this with
                 | true, Some r =>
                     (text <- Cache.ofOutcome (stringify B value) ;;
                      Cache.onClient r (client_setEx B key ttlSeconds text)) this
                 | _, _ =>
                     (Returned tt,
                      mkCacheManager (isConnected this) (client this)
                        (<[key := value]> (fallbackCache this))
                        (timers this ++ [(key, ttlSeconds * 1000)]))
                 end) tt this) as [[] H].
  exact H.
Qed.

Lemma cache_del_returns (key : string) (this : CacheManager R V) :
  fst (Cache.del B key this) = Returned tt.
Proof.
  unfold Cache.del.
  match goal with
  | |- fst (tryCatch ?b _ _) = _ =>
      destruct (tryCatch_ret_total b tt this) as [[] H]
  end.
  exact H.
Qed.

(** The in-memory path, taken when the networked client is not connected. *)
Lemma cache_get_fallback (key : string) (this : CacheManager R V) :
  isConnected this = false \/ client this = None ->
  Cache.get B key this
  = (Returned match fallbackCache this !! key with
              | Some v => if truthyValue B v then Some v else None
              | None => None
              end, this).
Proof.
  intros Hoff. unfold Cache.get, tryCatch.
  destruct (isConnected this) eqn:Hc, (client this) as [r|] eqn:Hr;
    try (destruct Hoff; discriminate);
    destruct (fallbackCache this !! key) as [v|]; try reflexivity;
    destruct (truthyValue B v); reflexivity.
Qed.

Lemma cache_set_fallback (key : string) (value : V) (ttlSeconds : Z)
    (this : CacheManager R V) :
  isConnected this = false \/ client this = None ->
  Cache.set B key value ttlSeconds this
  = (Returned tt,
     mkCacheManager (isConnected this) (client this)
       (<[key := value]> (fallbackCache this))
       (timers this ++ [(key, ttlSeconds * 1000)])).
Proof.
  intros Hoff. unfold Cache.set, tryCatch.
  destruct (isConnected this) eqn:Hc, (client this) as [r|] eqn:Hr;
    try (destruct Hoff; discriminate); reflexivity.
Qed.

(** C9. [get], [set] and [del] return for every key, value and TTL and
    every behaviour of the backend. When the networked client or the JSON
    codec throws, [get] returns null, and [set] and [del] return leaving the
    manager's own map and timers as they were. *)
Theorem cache_never_throws (this : CacheManager R V) (key : string) (value : V)
    (ttlSeconds : Z) :
  (exists v, fst (Cache.get B key this) = Returned v)
  /\ fst (Cache.set B key value ttlSeconds this) = Returned tt
  /\ fst (Cache.del B key this) = Returned tt
  /\ (forall r : R, isConnected this = true -> client this = Some r ->
      ((exists e, fst (client_get B key r) = Thrown e) ->
       fst (Cache.get B key this) = Returned None)
      /\ (forall text e,
            fst (client_get B key r) = Returned (Some text) ->
            JS.truthy text = true -> parse B text = Thrown e ->
            fst (Cache.get B key this) = Returned None)
      /\ ((exists e, stringify B value = Thrown e) ->
          snd (Cache.set B key value ttlSeconds this) = this)
      /\ (forall text e,
            stringify B value = Returned text ->
            fst (client_setEx B key ttlSeconds text r) = Thrown e ->
            let this' := snd (Cache.set B key value ttlSeconds this) in
            fallbackCache this' = fallbackCache this
            /\ timers this' = timers this
            /\ isConnected this' = isConnected this)
      /\ ((exists e, fst (client_del B key r) = Thrown e) ->
          let this' := snd (Cache.del B key this) in
          fallbackCache this' = fallbackCache this
          /\ timers this' = timers this
          /\ isConnected this' = isConnected this)).
Proof.
  split; [apply cache_get_returns |].
  split; [apply cache_set_returns |].
  split; [apply cache_del_returns |].
  intros r Hc Hr. repeat apply conj.
  - intros [e He]. unfold Cache.get, tryCatch, bind, Cache.onClient. cbv beta.
    rewrite Hc, Hr. destruct (client_get B key r) as [o r']. simpl in He.
    subst o. reflexivity.
  - intros text e Hget Htruthy Hparse.
    unfold Cache.get, tryCatch, bind, Cache.onClient, Cache.ofOutcome. cbv beta.
    rewrite Hc, Hr. destruct (client_get B key r) as [o r']. simpl in Hget.
    subst o. rewrite Htruthy, Hparse. reflexivity.
  - intros [e He]. unfold Cache.set, tryCatch, bind, Cache.ofOutcome, ret.
    cbv beta. rewrite Hc, Hr, He. reflexivity.
  - intros text e Hs Hset.
    unfold Cache.set, tryCatch, bind, Cache.ofOutcome, Cache.onClient, ret.
    cbv beta. rewrite Hc, Hr, Hs.
    destruct (client_setEx B key ttlSeconds text r) as [o r'].
    simpl in Hset. subst o. simpl. repeat split; reflexivity.
  - intros [e He]. unfold Cache.del, tryCatch, Cache.onClient, ret. cbv beta.
    rewrite Hc, Hr. destruct (client_del B key r) as [o r']. simpl in He.
    subst o. simpl. repeat split; reflexivity.
Qed.

End CacheFacts.

(** ** Lists *)

Lemma len_nonneg {A : Type} (l : list A) : 0 <= len l.
Proof. unfold len. lia. Qed.

Lemma len_app {A : Type} (l1 l2 : list A) : len (l1 ++ l2) = len l1 + len l2.
Proof. unfold len. rewrite length_app. lia. Qed.

Lemma len_map {A C : Type} (f : A -> C) (l : list A) : len (List.map f l) = len l.
Proof. unfold len. now rewrite length_map. Qed.

Lemma slice0_nil {A : Type} (e : Z) : JS.slice0 (@nil A) e = [].
Proof. unfold JS.slice0. now rewrite firstn_nil. Qed.

Lemma len_slice0 {A : Type} (l : list A) (e : Z) :
  len (JS.slice0 l e)
  = if e <? 0 then Z.max (len l + e) 0 else Z.min e (len l).
Proof.
  unfold JS.slice0, len. rewrite length_firstn.
  destruct (Z.ltb_spec e 0); lia.
Qed.

Lemma len_slice0_le {A : Type} (l : list A) (e : Z) :
  0 <= e -> len (JS.slice0 l e) <= e.
Proof. intros He. rewrite len_slice0. destruct (Z.ltb_spec e 0); lia. Qed.

(** ** Article fetcher *)

Lemma clampPageSize_range (maxResults : Z) :
  1 <= clampPageSize maxResults <= 50.
Proof. unfold clampPageSize. destruct (maxResults =? 0); lia. Qed.

Lemma clampPageSize_le (maxResults : Z) :
  1 <= maxResults -> clampPageSize maxResults <= maxResults.
Proof.
  intros H. unfold clampPageSize. destruct (Z.eqb_spec maxResults 0); lia.
Qed.

(** The fields of a normalized article: the raw field, or the empty string
    when the raw field is missing. *)
Lemma normalize_fields (a : Raw.t) :
  title (normalize a) = default "" (Raw.title a)
  /\ description (normalize a) = default "" (Raw.description a)
  /\ url (normalize a) = default "" (Raw.url a)
  /\ source (normalize a)
     = default "" (Raw.name (default (Raw.mkSource None None) (Raw.source a)))
  /\ publishedAt (normalize a) = default "" (Raw.publishedAt a)
  /\ urlToImage (normalize a) = default "" (Raw.urlToImage a).
Proof.
  assert (H : forall o, JS.orOpt o "" = default "" o)
    by (intros [s|]; simpl; [apply orStr_empty | reflexivity]).
  unfold normalize; simpl. rewrite !H.
  destruct (Raw.source a) as [src|]; simpl; rewrite ?H; repeat split; reflexivity.
Qed.

Section PipelineFacts.

Context {R : Type} (B : Backend R FetchResult).
Variable NEWSAPI_KEY : string.
Variable OPENAI_API_KEY : string.
Variable newsapi : list Request -> Request -> Response.
Variable openai : list ChatRequest -> ChatRequest -> Outcome (option string).

Lemma join_single_truthy (s : string) :
  JS.truthy s = true -> JS.join " " (List.filter JS.truthy [s]) = s.
Proof. intros Hs. cbn [List.filter]. now rewrite Hs. Qed.

Lemma cityBranches_requests (place countryCode : string) (size : Z) :
  JS.truthy place = true ->
  [fetchTopHeadlinesByCategory (R := R) newsapi "general" countryCode size
     (Some (dquote +:+ place +:+ dquote));
   fetchArticlesEverything newsapi ["title:" +:+ place] size;
   fetchArticlesEverything newsapi [place] size]
  = List.map (callNewsApi newsapi)
      [TopHeadlines (Some "general")
         (option_map JS.toLowerCase (whenTruthy countryCode))
         (Some (dquote +:+ place +:+ dquote)) (clampPageSize size);
       Everything ("title:" +:+ place) (clampPageSize size);
       Everything place (clampPageSize size)].
Proof.
  intros Hplace. unfold fetchTopHeadlinesByCategory, fetchArticlesEverything.
  rewrite (join_single_truthy place Hplace).
  rewrite (join_single_truthy ("title:" +:+ place) eq_refl).
  reflexivity.
Qed.

Lemma localPromises_requests (city region countryCode : string) (pageSize : Z) :
  localPromises (R := R) newsapi city region countryCode pageSize
  = List.map (callNewsApi newsapi) (localRequests city region countryCode pageSize).
Proof.
  unfold localPromises, localRequests. rewrite !map_app. repeat f_equal.
  - destruct (JS.truthy city) eqn:Hcity; [| reflexivity].
    now apply cityBranches_requests.
  - destruct (JS.truthy region) eqn:Hregion; [| reflexivity].
    now apply cityBranches_requests.
  - destruct (JS.truthy countryCode); reflexivity.
Qed.

Lemma localRequests_length (city region countryCode : string) (pageSize : Z) :
  List.length (localRequests city region countryCode pageSize)
  = ((if JS.truthy city then 3 else 0) + (if JS.truthy region then 3 else 0)
     + (if JS.truthy countryCode then 1 else 0) + 1)%nat.
Proof.
  unfold localRequests.
  destruct (JS.truthy city), (JS.truthy region), (JS.truthy countryCode);
    reflexivity.
Qed.

(** Settling a list of provider calls sends exactly their requests, in
    order, and touches nothing else. *)
Lemma allSettled_calls (reqs : list Request) (w : @World R) :
  allSettled (List.map (callNewsApi newsapi) reqs) w
  = (Returned (settled newsapi (newsLog w) reqs),
     mkWorld (cache w) (newsLog w ++ reqs) (llmLog w)).
Proof.
  revert w. induction reqs as [|req rest IH]; intros w.
  - simpl. unfold ret. rewrite app_nil_r. destruct w; reflexivity.
  - cbn [List.map allSettled settled]. unfold callNewsApi at 1. rewrite IH.
    cbn [cache newsLog llmLog]. rewrite <- app_assoc. reflexivity.
Qed.


(** The "local" strategy: its result and the requests it sends. *)
Lemma fetchRaw_local (topic : string) (geo : option Geo) (pageSize : Z)
    (w : @World R) :
  JS.toLowerCase (JS.orStr topic "") = "local" ->
  let countryCode :=
    JS.orOpt (JS.orElse (geoField country geo) (geoField countryCode geo)) "" in
  let region :=
    JS.orOpt (JS.orElse (geoField region geo) (geoField state geo)) "" in
  let city := JS.orOpt (geoField city geo) "" in
  let reqs := localRequests city region countryCode pageSize in
  fetchRaw newsapi topic geo pageSize w
  = (Returned (JS.slice0 (fulfilledValues (settled newsapi (newsLog w) reqs)) pageSize),
     mkWorld (cache w) (newsLog w ++ reqs) (llmLog w)).
Proof.
  intros Hlocal countryCode region city reqs.
  unfold fetchRaw. rewrite Hlocal.
  change (String.eqb "local" "general") with false.
  change (String.eqb "local" "local") with true. cbv iota.
  fold countryCode region city. rewrite localPromises_requests. fold reqs.
  unfold tryCatch, bind. rewrite allSettled_calls. reflexivity.
Qed.

Lemma fetchArticlesForTopic_no_key (topic : string) (geo : option Geo)
    (maxResults : Z) (w : @World R) :
  JS.truthy NEWSAPI_KEY = false ->
  fetchArticlesForTopic B NEWSAPI_KEY newsapi topic geo maxResults w
  = (Returned {| articles := []; note := Some "Missing NEWSAPI_KEY" |}, w).
Proof. intros Hkey. unfold fetchArticlesForTopic. rewrite Hkey. reflexivity. Qed.

(** A cache hit: the cached value is returned and the provider is not asked. *)
Lemma fetchArticlesForTopic_hit (topic : string) (geo : option Geo)
    (maxResults : Z) (w : @World R) (hit : FetchResult)
    (c0 : CacheManager R FetchResult) :
  JS.truthy NEWSAPI_KEY = true ->
  Cache.get B (Cache.getNewsKey topic geo (clampPageSize maxResults)) (cache w)
  = (Returned (Some hit), c0) ->
  fetchArticlesForTopic B NEWSAPI_KEY newsapi topic geo maxResults w
  = (Returned hit, mkWorld c0 (newsLog w) (llmLog w)).
Proof.
  intros Hkey Hget. unfold fetchArticlesForTopic. rewrite Hkey. change (negb true) with false.
  cbv iota. unfold bind at 1. unfold onCache, zoom. cbv beta. rewrite Hget. reflexivity.
Qed.

(** A cache miss: the raw articles of the strategy are normalized one by
    one, and the result is stored for 900 seconds and returned. *)
Lemma fetchArticlesForTopic_miss (topic : string) (geo : option Geo)
    (maxResults : Z) (w w1 : @World R) (c0 : CacheManager R FetchResult)
    (raws : list Raw.t) :
  JS.truthy NEWSAPI_KEY = true ->
  Cache.get B (Cache.getNewsKey topic geo (clampPageSize maxResults)) (cache w)
  = (Returned None, c0) ->
  fetchRaw newsapi topic geo (clampPageSize maxResults)
    (mkWorld c0 (newsLog w) (llmLog w)) = (Returned raws, w1) ->
  let result := {| articles := List.map normalize raws; note := None |} in
  fetchArticlesForTopic B NEWSAPI_KEY newsapi topic geo maxResults w
  = (Returned result,
     mkWorld
       (snd (Cache.set B (Cache.getNewsKey topic geo (clampPageSize maxResults))
               result 900 (cache w1)))
       (newsLog w1) (llmLog w1)).
Proof.
  intros Hkey Hget Hraw result. unfold fetchArticlesForTopic.
  rewrite Hkey. change (negb true) with false. cbv iota. unfold bind at 1. unfold onCache at 1, zoom.
  cbv beta. rewrite Hget. unfold bind at 1. rewrite Hraw. fold result.
  unfold bind, onCache, zoom.
  pose proof (cache_set_returns B
                (Cache.getNewsKey topic geo (clampPageSize maxResults))
                result 900 (cache w1)) as Hset.
  destruct (Cache.set B _ result 900 (cache w1)) as [o c1]. simpl in Hset.
  subst o. reflexivity.
Qed.

(** A thrown strategy: nothing is cached and the exception reaches the
    caller. *)
Lemma fetchArticlesForTopic_throws (topic : string) (geo : option Geo)
    (maxResults : Z) (w w1 : @World R) (c0 : CacheManager R FetchResult)
    (e : string) :
  JS.truthy NEWSAPI_KEY = true ->
  Cache.get B (Cache.getNewsKey topic geo (clampPageSize maxResults)) (cache w)
  = (Returned None, c0) ->
  fetchRaw newsapi topic geo (clampPageSize maxResults)
    (mkWorld c0 (newsLog w) (llmLog w)) = (Thrown e, w1) ->
  fetchArticlesForTopic B NEWSAPI_KEY newsapi topic geo maxResults w
  = (Thrown e, w1).
Proof.
  intros Hkey Hget Hraw. unfold fetchArticlesForTopic.
  rewrite Hkey. change (negb true) with false. cbv iota. unfold bind at 1. unfold onCache at 1, zoom.
  cbv beta. rewrite Hget. unfold bind at 1. rewrite Hraw. reflexivity.
Qed.

Lemma filterRelevantArticles_nil (h : Store) (topic : string) (geo : option Geo)
    (minCount : Z) :
  filterRelevantArticles h topic geo [] minCount = [].
Proof.
  unfold filterRelevantArticles, candidates, strictPass. simpl.
  destruct (len [] >=? minCount); [apply slice0_nil |].
  destruct (_ && _); simpl; apply slice0_nil.
Qed.

Lemma summarizeArticles_nil (topic : string) (geo : option Geo) (wordCount : Z)
    (goodNewsOnly : bool) (w : @World R) :
  summarizeArticles OPENAI_API_KEY openai topic geo [] wordCount goodNewsOnly w
  = (Returned ("No recent coverage found for " +:+ summaryBase topic geo +:+ "."),
     w).
Proof. reflexivity. Qed.

(** C5. Without a provider key, [fetchArticlesForTopic] returns the empty
    list with the note "Missing NEWSAPI_KEY" and changes nothing; the
    relevance filter maps the empty list to the empty list; and
    [summarizeArticles] on the empty list returns the fixed "No recent
    coverage found for ..." sentence and leaves the world as it was, the
    log of completion requests included: no LLM call is made. *)
Theorem missing_key_pipeline (topic : string) (geo : option Geo)
    (maxResults minCount wordCount : Z) (goodNewsOnly : bool) (h : Store)
    (w : @World R) :
  fetchArticlesForTopic B "" newsapi topic geo maxResults w
  = (Returned {| articles := []; note := Some "Missing NEWSAPI_KEY" |}, w)
  /\ filterRelevantArticles h topic geo [] minCount = []
  /\ summarizeArticles OPENAI_API_KEY openai topic geo [] wordCount goodNewsOnly w
     = (Returned ("No recent coverage found for " +:+ summaryBase topic geo +:+ "."),
        w)
  /\ llmLog
       (snd (summarizeArticles OPENAI_API_KEY openai topic geo [] wordCount
               goodNewsOnly w))
     = llmLog w.
Proof.
  split; [reflexivity |].
  split; [apply filterRelevantArticles_nil |].
  split; [apply summarizeArticles_nil |].
  rewrite summarizeArticles_nil. reflexivity.
Qed.

(** C3, as the code has it. On a cache miss with the provider key set, the
    list that [fetchArticlesForTopic] caches and returns is the raw list of
    the topic's strategy normalized record by record: same length, same
    order, the url of each raw record (or the empty string) at its place.
    Nothing is removed, so a url that occurs twice in the raw list occurs
    twice in the result. *)
Theorem fetch_returns_every_raw_article (topic : string) (geo : option Geo)
    (maxResults : Z) (w w1 : @World R) (c0 : CacheManager R FetchResult)
    (raws : list Raw.t) :
  JS.truthy NEWSAPI_KEY = true ->
  Cache.get B (Cache.getNewsKey topic geo (clampPageSize maxResults)) (cache w)
  = (Returned None, c0) ->
  fetchRaw newsapi topic geo (clampPageSize maxResults)
    (mkWorld c0 (newsLog w) (llmLog w)) = (Returned raws, w1) ->
  exists r w',
    fetchArticlesForTopic B NEWSAPI_KEY newsapi topic geo maxResults w
    = (Returned r, w')
    /\ articles r = List.map normalize raws
    /\ List.length (articles r) = List.length raws
    /\ List.map url (articles r) = List.map (fun a => default "" (Raw.url a)) raws
    /\ cache w'
       = snd (Cache.set B (Cache.getNewsKey topic geo (clampPageSize maxResults))
                r 900 (cache w1))
    /\ (isConnected (cache w1) = false \/ client (cache w1) = None ->
        fallbackCache (cache w')
          !! Cache.getNewsKey topic geo (clampPageSize maxResults)
        = Some r).
Proof.
  intros Hkey Hget Hraw.
  pose proof (fetchArticlesForTopic_miss topic geo maxResults w w1 c0 raws
                Hkey Hget Hraw) as Hrun.
  cbv zeta in Hrun. eexists. eexists. split; [exact Hrun |].
  cbn [articles cache]. split; [reflexivity |].
  split; [now rewrite length_map |].
  split.
  - rewrite map_map. apply map_ext. intros a.
    destruct (normalize_fields a) as [_ [_ [Hurl _]]]. exact Hurl.
  - split; [reflexivity |]. intros Hoff.
    rewrite (cache_set_fallback B _ _ _ _ Hoff). cbn [snd fallbackCache].
    apply lookup_insert_eq.
Qed.

(** C6, as the code has it. For a topic that lowercases to "local", the
    fetcher builds three queries for a city, three for a region, one for a
    country code and one generic fallback: 8 at most. On a cache miss all of
    them are sent, and the merged list is cut to the page size, which is
    [maxResults] clamped to 1..50 (5 when [maxResults] is 0): at most
    [maxResults] articles whenever [maxResults] is at least 1. *)
Theorem local_fetch_queries (topic : string) (geo : option Geo)
    (maxResults : Z) (w : @World R) (c0 : CacheManager R FetchResult) :
  JS.toLowerCase (JS.orStr topic "") = "local" ->
  JS.truthy NEWSAPI_KEY = true ->
  Cache.get B (Cache.getNewsKey topic geo (clampPageSize maxResults)) (cache w)
  = (Returned None, c0) ->
  let pageSize := clampPageSize maxResults in
  let countryCode :=
    JS.orOpt (JS.orElse (geoField country geo) (geoField countryCode geo)) "" in
  let region :=
    JS.orOpt (JS.orElse (geoField region geo) (geoField state geo)) "" in
  let city := JS.orOpt (geoField city geo) "" in
  let reqs := localRequests city region countryCode pageSize in
  List.length (localPromises (R := R) newsapi city region countryCode pageSize)
  = ((if JS.truthy city then 3 else 0) + (if JS.truthy region then 3 else 0)
     + (if JS.truthy countryCode then 1 else 0) + 1)%nat
  /\ (List.length (localPromises (R := R) newsapi city region countryCode pageSize)
      <= 8)%nat
  /\ exists r w',
       fetchArticlesForTopic B NEWSAPI_KEY newsapi topic geo maxResults w
       = (Returned r, w')
       /\ newsLog w' = newsLog w ++ reqs
       /\ List.length reqs
          = List.length (localPromises (R := R) newsapi city region countryCode pageSize)
       /\ articles r
          = List.map normalize
              (JS.slice0 (fulfilledValues (settled newsapi (newsLog w) reqs)) pageSize)
       /\ len (articles r) <= pageSize
       /\ 1 <= pageSize <= 50
       /\ (1 <= maxResults -> len (articles r) <= maxResults).
Proof.
  intros Hlocal Hkey Hget pageSize countryCode region city reqs.
  assert (Hcount :
            List.length (localPromises (R := R) newsapi city region countryCode pageSize)
            = List.length reqs)
    by (rewrite localPromises_requests; apply length_map).
  rewrite Hcount. unfold reqs at 1 2. rewrite localRequests_length.
  split; [reflexivity |].
  split; [destruct (JS.truthy city), (JS.truthy region), (JS.truthy countryCode);
          simpl; lia |].
  pose proof (fetchRaw_local topic geo pageSize
                (mkWorld c0 (newsLog w) (llmLog w)) Hlocal) as Hraw.
  cbv zeta in Hraw. fold countryCode region city reqs in Hraw.
  cbn [newsLog] in Hraw.
  pose proof (fetchArticlesForTopic_miss topic geo maxResults w _ c0 _
                Hkey Hget Hraw) as Hrun.
  cbv zeta in Hrun. eexists. eexists. split; [exact Hrun |].
  cbn [articles newsLog]. split; [reflexivity |].
  split; [reflexivity |]. split; [reflexivity |].
  pose proof (clampPageSize_range maxResults) as Hrange. fold pageSize in Hrange.
  assert (Hcut : len (List.map normalize
                        (JS.slice0 (fulfilledValues (settled newsapi (newsLog w) reqs))
                           pageSize))
                 <= pageSize)
    by (rewrite len_map; apply len_slice0_le; lia).
  split; [exact Hcut |]. split; [exact Hrange |].
  intros Hmax. pose proof (clampPageSize_le maxResults Hmax). fold pageSize in H.
  lia.
Qed.

(** Where the provider's fields are strings or missing, whatever
    [fetchArticlesForTopic] returns comes from one of three
    places: the empty list when the key is missing, the cached value on a
    hit, or, on a miss, the raw list of the strategy with every record
    normalized: each of the six fields is the raw string, or the empty
    string when the raw field is missing, and [source] is the name inside
    the raw [source] object. *)
Theorem fetched_articles_are_normalized (topic : string) (geo : option Geo)
    (maxResults : Z) (w w' : @World R) (r : FetchResult) :
  fetchArticlesForTopic B NEWSAPI_KEY newsapi topic geo maxResults w
  = (Returned r, w') ->
  let key := Cache.getNewsKey topic geo (clampPageSize maxResults) in
  (JS.truthy NEWSAPI_KEY = false /\ articles r = [])
  \/ (JS.truthy NEWSAPI_KEY = true
      /\ fst (Cache.get B key (cache w)) = Returned (Some r))
  \/ (JS.truthy NEWSAPI_KEY = true
      /\ fst (Cache.get B key (cache w)) = Returned None
      /\ exists raws w1,
           fetchRaw newsapi topic geo (clampPageSize maxResults)
             (mkWorld (snd (Cache.get B key (cache w))) (newsLog w) (llmLog w))
           = (Returned raws, w1)
           /\ articles r = List.map normalize raws
           /\ Forall2
                (fun raw a =>
                   title a = default "" (Raw.title raw)
                   /\ description a = default "" (Raw.description raw)
                   /\ url a = default "" (Raw.url raw)
                   /\ source a
                      = default ""
                          (Raw.name (default (Raw.mkSource None None) (Raw.source raw)))
                   /\ publishedAt a = default "" (Raw.publishedAt raw)
                   /\ urlToImage a = default "" (Raw.urlToImage raw))
                raws (articles r)).
Proof.
  intros Hrun key.
  destruct (JS.truthy NEWSAPI_KEY) eqn:Hkey.
  - right.
    destruct (cache_get_returns B key (cache w)) as [v Hv].
    destruct (Cache.get B key (cache w)) as [o c0] eqn:Hget. simpl in Hv.
    subst o. destruct v as [hit |].
    + left. split; [reflexivity |].
      rewrite (fetchArticlesForTopic_hit topic geo maxResults w hit c0 Hkey Hget)
        in Hrun.
      inversion Hrun; subst. reflexivity.
    + right. split; [reflexivity |]. split; [reflexivity |]. cbn [snd].
      destruct (fetchRaw newsapi topic geo (clampPageSize maxResults)
                  (mkWorld c0 (newsLog w) (llmLog w))) as [[raws | e] w1] eqn:Hraw.
      * rewrite (fetchArticlesForTopic_miss topic geo maxResults w w1 c0 raws
                   Hkey Hget Hraw) in Hrun.
        inversion Hrun; subst. exists raws, w1. split; [reflexivity |].
        cbn [articles]. split; [reflexivity |].
        clear. induction raws as [|raw raws IH]; simpl; constructor.
        -- apply normalize_fields.
        -- exact IH.
      * rewrite (fetchArticlesForTopic_throws topic geo maxResults w w1 c0 e
                   Hkey Hget Hraw) in Hrun.
        discriminate.
  - left. split; [reflexivity |].
    rewrite (fetchArticlesForTopic_no_key topic geo maxResults w Hkey) in Hrun.
    inversion Hrun; subst. reflexivity.
Qed.

End PipelineFacts.

(** *** Concrete runs of the fetcher *)

(** C3 fails as stated: for "local" news about Austin, a provider that
    lists the same story under each of the four queries makes the fetcher
    return, and cache, that story four times under one url. *)
Lemma fetch_keeps_duplicate_urls :
  exists r w',
    fetchArticlesForTopic offlineBackend "key" sameStoryProvider "local"
      (Some austinOnly) 6 freshWorld = (Returned r, w')
    /\ List.map url (articles r)
       = ["https://example.com/library"; "https://example.com/library";
          "https://example.com/library"; "https://example.com/library"]
    /\ fallbackCache (cache w') !! "news:local:undefined-undefined-Austin:6" = Some r
    /\ ~ distinctUrls (articles r).
Proof.
  eexists. eexists. split; [vm_compute; reflexivity |].
  split; [reflexivity |]. split; [vm_compute; reflexivity |].
  intros Hdistinct.
  apply (Hdistinct 0%nat 1%nat (normalize sampleRaw) (normalize sampleRaw));
    try reflexivity; discriminate.
Qed.

Lemma fetch_returns_every_raw_article_witness :
  exists r w',
    fetchArticlesForTopic offlineBackend "key" sameStoryProvider "local"
      (Some austinOnly) 6 freshWorld = (Returned r, w')
    /\ articles r = List.map normalize [sampleRaw; sampleRaw; sampleRaw; sampleRaw]
    /\ List.length (articles r) = 4%nat.
Proof.
  destruct (fetch_returns_every_raw_article offlineBackend "key" sameStoryProvider
              "local" (Some austinOnly) 6 freshWorld
              (mkWorld offlineCache
                 (localRequests "Austin" "" "" 6) [])
              offlineCache [sampleRaw; sampleRaw; sampleRaw; sampleRaw]
              eq_refl eq_refl eq_refl)
    as [r [w' [Hrun [Harticles [Hlength _]]]]].
  exists r, w'. split; [exact Hrun |]. split; [exact Harticles | exact Hlength].
Defined.

(** C6 fails as stated: with a city, a region and a country the "local"
    strategy builds and sends 8 queries, one more than 7. *)
Lemma local_fetch_builds_eight_queries :
  List.length (localPromises (R := unit) sameStoryProvider "Austin" "Texas" "US"
                 (clampPageSize 6)) = 8%nat
  /\ exists r w',
       fetchArticlesForTopic offlineBackend "key" sameStoryProvider "local"
         (Some austin) 6 freshWorld = (Returned r, w')
       /\ List.length (newsLog w') = 8%nat
       /\ ~ (List.length (newsLog w') <= 7)%nat.
Proof.
  split; [reflexivity |].
  eexists. eexists. split; [vm_compute; reflexivity |].
  split; [reflexivity |]. cbn [newsLog List.length]. lia.
Qed.

Lemma local_fetch_queries_witness :
  exists r w',
    fetchArticlesForTopic offlineBackend "key" sameStoryProvider "local"
      (Some austin) 6 freshWorld = (Returned r, w')
    /\ newsLog w' = localRequests "Austin" "Texas" "US" 6
    /\ len (articles r) <= 6.
Proof.
  destruct (local_fetch_queries offlineBackend "key" sameStoryProvider "local"
              (Some austin) 6 freshWorld offlineCache eq_refl eq_refl eq_refl)
    as [_ [_ [r [w' [Hrun [Hlog [_ [_ [Hcut _]]]]]]]]].
  exists r, w'. split; [exact Hrun |]. split; [exact Hlog | exact Hcut].
Defined.

Lemma fetched_articles_are_normalized_witness :
  exists raws,
    raws = [sampleRaw]
    /\ fst (fetchArticlesForTopic offlineBackend "key" sameStoryProvider
              "technology" None 6 freshWorld)
       = Returned {| articles := List.map normalize raws; note := None |}
    /\ Forall (fun a => description a = "" /\ urlToImage a = ""
                        /\ source a = "Example Times")
         (List.map normalize raws).
Proof.
  pose proof (fetched_articles_are_normalized offlineBackend "key"
                sameStoryProvider "technology" None 6 freshWorld
                (mkWorld
                   (mkCacheManager false None
                      (<["news:technology:no-geo:6" :=
                           {| articles := [normalize sampleRaw]; note := None |}]> ∅)
                      [("news:technology:no-geo:6", 900000)])
                   [TopHeadlines (Some "technology") None None 6] [])
                {| articles := [normalize sampleRaw]; note := None |}
                eq_refl) as H.
  cbv zeta in H. exists [sampleRaw]. split; [reflexivity |].
  split; [reflexivity |].
  destruct H as [[Hkey _] | [[_ Hhit] | [_ [_ [raws [w1 [Hraw [Harticles Hfields]]]]]]]].
  - discriminate Hkey.
  - discriminate Hhit.
  - repeat constructor.
Defined.

(** ** Normalized fields of untyped provider data *)







(** On provider data whose fields are strings or are missing, the untyped
    normalization is the typed one. *)
Lemma normalize_typed_agrees (raw : Raw.t) :
  Untyped.normalize (rawToJson raw) = Returned (articleToJson (normalize raw)).
Proof.
  destruct raw as [[[|? ?] |] [[|? ?] |] [[|? ?] |] [[[?|] [[|? ?] |]] |]
                   [[|? ?] |] [[|? ?] |]];
    reflexivity.
Qed.

Section UntypedFacts.

Context {R : Type} (B : Backend R Untyped.FetchResult).
Variable NEWSAPI_KEY : string.
Variable newsapi : list Request -> Request -> Untyped.Response.











End UntypedFacts.



(** ** Relevance filter *)

Lemma filter_length_split {A : Type} (f : A -> bool) (l : list A) :
  len (List.filter f l) + len (List.filter (fun x => negb (f x)) l) = len l.
Proof.
  unfold len. induction l as [|x l IH]; simpl; [reflexivity |].
  destruct (f x); simpl; lia.
Qed.

Lemma setOf_incl (l : list string) (x : string) : In x (JS.setOf l) -> In x l.
Proof.
  induction l as [|y l IH]; simpl; [tauto |].
  intros [-> | Hx]; [now left |].
  apply filter_In in Hx. right. apply IH. tauto.
Qed.

Lemma strLen_truthy (s : string) : 1 <= strLen s -> JS.truthy s = true.
Proof. destruct s; unfold strLen; simpl; [lia | reflexivity]. Qed.

Lemma geoTokens_truthy (geo : option Geo) :
  Forall (fun g => JS.truthy g = true) (geoTokens geo).
Proof.
  apply List.Forall_forall. intros g Hg. unfold geoTokens in Hg.
  apply setOf_incl, filter_In in Hg. destruct Hg as [_ Hlen].
  apply strLen_truthy. apply Z.leb_le in Hlen. lia.
Qed.

Lemma topicTokens_truthy (topicLower : string) :
  Forall (fun g => JS.truthy g = true) (topicTokens topicLower).
Proof.
  apply List.Forall_forall. intros g Hg. unfold topicTokens in Hg.
  apply setOf_incl, filter_In in Hg. destruct Hg as [_ Hlen].
  apply andb_true_iff in Hlen. tauto.
Qed.

(** *** The score *)

Lemma inject_Z_step (s : Q) (k n m : Z) :
  m = n + k -> (s + inject_Z k + inject_Z n == s + inject_Z m)%Q.
Proof. intros ->. rewrite inject_Z_plus. ring. Qed.

Lemma scoreTokens_count (t d : string) (tokens : list string) (s : Q) :
  Forall (fun g => JS.truthy g = true) tokens ->
  (scoreTokens t d tokens s
   == s + inject_Z (2 * countIn t tokens + countOnlyIn d t tokens))%Q.
Proof.
  unfold scoreTokens, countIn, countOnlyIn, len.
  intros Htok. revert s. induction Htok as [|g tokens Hg Htok IH]; intros s.
  - change (s == s + 0)%Q. ring.
  - cbn [fold_left List.filter]. rewrite Hg. cbn [negb]. rewrite IH.
    destruct (JS.includes t g); cbn [negb andb List.length].
    + apply (inject_Z_step s 2). lia.
    + destruct (JS.includes d g); cbn [List.length].
      * apply (inject_Z_step s 1). lia.
      * reflexivity.
Qed.

Lemma score_spec (topic : string) (geo : option Geo) (a : Article) :
  (score (JS.toLowerCase (JS.orStr topic "")) (geoTokens geo)
     (topicTokens (JS.toLowerCase (JS.orStr topic ""))) a
   == specScore topic geo a)%Q.
Proof.
  unfold score, specScore. rewrite !orStr_empty.
  set (topicLower := JS.toLowerCase topic).
  set (t := JS.toLowerCase (title a)). set (d := JS.toLowerCase (description a)).
  unfold JS.truthy.
  pose proof (scoreTokens_count t d (geoTokens geo) 0 (geoTokens_truthy geo)) as Hgeo.
  destruct (isCore topicLower); simpl negb; cbv iota.
  - destruct (String.eqb (publishedAt a) ""); simpl negb; cbv iota;
      rewrite Hgeo; ring.
  - pose proof (scoreTokens_count t d (topicTokens topicLower)
                  (scoreTokens t d (geoTokens geo) 0)
                  (topicTokens_truthy topicLower)) as Htopic.
    destruct (String.eqb (publishedAt a) ""); simpl negb; cbv iota;
      rewrite Htopic, Hgeo; ring.
Qed.

(** *** The sort *)

Lemma insertByScore_perm (x : Ref * Q) (l : list (Ref * Q)) :
  Permutation (insertByScore x l) (x :: l).
Proof.
  induction l as [|y l IH]; simpl; [reflexivity |].
  destruct (Qle_bool (snd y) (snd x)); [reflexivity |].
  rewrite IH. apply perm_swap.
Qed.

Lemma sortByScore_perm (l : list (Ref * Q)) : Permutation (sortByScore l) l.
Proof.
  induction l as [|x l IH]; simpl; [reflexivity |].
  rewrite insertByScore_perm. now constructor.
Qed.

Lemma insertByScore_sorted (x : Ref * Q) (l : list (Ref * Q)) :
  StronglySorted byScoreDesc l -> StronglySorted byScoreDesc (insertByScore x l).
Proof.
  induction 1 as [|y l Hsorted IH Hall]; simpl.
  - repeat constructor.
  - destruct (Qle_bool (snd y) (snd x)) eqn:Hle.
    + apply Qle_bool_iff in Hle. constructor.
      * now constructor.
      * constructor; [exact Hle |].
        apply (List.Forall_impl (P := byScoreDesc y)); [| exact Hall].
        intros z Hz. unfold byScoreDesc in *. eapply Qle_trans; eassumption.
    + constructor; [exact IH |].
      assert (Hlt : (snd x <= snd y)%Q).
      { apply Qlt_le_weak, Qnot_le_lt. intros Hc.
        apply Qle_bool_iff in Hc. congruence. }
      apply (Permutation_Forall (Permutation_sym (insertByScore_perm x l))).
      now constructor.
Qed.

Lemma sortByScore_sorted (l : list (Ref * Q)) :
  StronglySorted byScoreDesc (sortByScore l).
Proof.
  induction l as [|x l IH]; simpl; [constructor | now apply insertByScore_sorted].
Qed.

(** *** The two passes *)

Lemma strictPass_filter (h : Store) (topic : string) (geo : option Geo)
    (articles : list Ref) :
  strictPass h topic geo articles = List.filter (keeps h topic geo) articles.
Proof. reflexivity. Qed.

(** Membership in the [Set] of kept objects is the test of the first pass:
    an object is kept for what its record says. *)
Lemma not_selected_filter (P : Ref -> bool) (articles : list Ref) :
  List.filter
    (fun r => negb (bool_decide (r ∈ (list_to_set (List.filter P articles) : gset Ref))))
    articles
  = List.filter (fun r => negb (P r)) articles.
Proof.
  apply filter_ext_in. intros r Hin. f_equal.
  destruct (P r) eqn:HP.
  - apply bool_decide_eq_true. apply elem_of_list_to_set, list_elem_of_In.
    apply filter_In. auto.
  - apply bool_decide_eq_false. rewrite elem_of_list_to_set, list_elem_of_In.
    rewrite filter_In. intros [_ HP']. congruence.
Qed.

Lemma candidates_eq (h : Store) (topic : string) (geo : option Geo)
    (articles : list Ref) :
  candidates h topic geo articles
  = sortByScore
      (List.map (fun r => (r, scoreOf h topic geo r))
         (List.filter (fun r => negb (keeps h topic geo r)) articles)).
Proof.
  unfold candidates. rewrite strictPass_filter, not_selected_filter. reflexivity.
Qed.

Lemma candidates_perm (h : Store) (topic : string) (geo : option Geo)
    (articles : list Ref) :
  Permutation (List.map fst (candidates h topic geo articles))
    (List.filter (fun r => negb (keeps h topic geo r)) articles).
Proof.
  rewrite candidates_eq.
  rewrite (Permutation_map fst (sortByScore_perm _)).
  rewrite map_map. simpl. rewrite map_id. reflexivity.
Qed.

Lemma candidates_scores (h : Store) (topic : string) (geo : option Geo)
    (articles : list Ref) :
  Forall (fun p => snd p = scoreOf h topic geo (fst p))
    (candidates h topic geo articles).
Proof.
  rewrite candidates_eq.
  apply (Permutation_Forall (Permutation_sym (sortByScore_perm _))).
  apply List.Forall_forall. intros p Hp. apply in_map_iff in Hp.
  destruct Hp as [r [<- _]]. reflexivity.
Qed.

Lemma candidates_len (h : Store) (topic : string) (geo : option Geo)
    (articles : list Ref) :
  len (strictPass h topic geo articles)
  + len (List.map fst (candidates h topic geo articles))
  = len articles.
Proof.
  rewrite strictPass_filter. unfold len at 2.
  rewrite (Permutation_length (candidates_perm h topic geo articles)).
  apply filter_length_split.
Qed.

Lemma sorted_refs (f : Ref -> Q) (l : list (Ref * Q)) :
  StronglySorted byScoreDesc l ->
  Forall (fun p => snd p = f (fst p)) l ->
  StronglySorted (fun r1 r2 => (f r2 <= f r1)%Q) (List.map fst l).
Proof.
  induction 1 as [|x l Hsorted IH Hall]; intros Hf; simpl; [constructor |].
  inversion Hf as [|? ? Hx Hl]; subst. constructor; [now apply IH |].
  apply List.Forall_forall. intros r Hr. apply in_map_iff in Hr.
  destruct Hr as [y [<- Hy]].
  rewrite List.Forall_forall in Hall, Hl.
  specialize (Hall y Hy). unfold byScoreDesc in Hall.
  rewrite <- Hx, <- (Hl y Hy). exact Hall.
Qed.

Lemma candidates_sorted (h : Store) (topic : string) (geo : option Geo)
    (articles : list Ref) :
  StronglySorted
    (fun r1 r2 => (scoreOf h topic geo r2 <= scoreOf h topic geo r1)%Q)
    (List.map fst (candidates h topic geo articles)).
Proof.
  apply sorted_refs; [| apply candidates_scores].
  rewrite candidates_eq. apply sortByScore_sorted.
Qed.

Lemma in_firstn {A : Type} (n : nat) (l : list A) (y : A) :
  In y (firstn n l) -> In y l.
Proof.
  revert l. induction n as [|n IH]; intros [|x l]; simpl; try tauto.
  intros [-> | Hy]; [now left | right; now apply IH].
Qed.

Lemma StronglySorted_firstn {A : Type} (Rel : A -> A -> Prop) (n : nat) (l : list A) :
  StronglySorted Rel l -> StronglySorted Rel (firstn n l).
Proof.
  intros Hs. revert n. induction Hs as [|x l Hs IH Hall]; intros [|n]; simpl;
    try constructor.
  - apply IH.
  - apply List.Forall_forall. intros y Hy. rewrite List.Forall_forall in Hall.
    apply Hall. eapply in_firstn. exact Hy.
Qed.

Lemma pushUntil_exact (out cands : list Ref) (minCount : Z) :
  len out < minCount ->
  pushUntil out cands minCount
  = out ++ firstn (Z.to_nat (minCount - len out)) cands.
Proof.
  revert out. induction cands as [|a rest IH]; intros out Hlt.
  - simpl. now rewrite firstn_nil, app_nil_r.
  - cbn [pushUntil]. rewrite len_app. change (len [a]) with 1.
    destruct (Z.geb_spec (len out + 1) minCount) as [Hge | Hlt'].
    + replace (minCount - len out) with 1 by lia. reflexivity.
    + rewrite IH by (rewrite len_app; change (len [a]) with 1; lia).
      rewrite len_app. change (len [a]) with 1.
      replace (Z.to_nat (minCount - len out))
        with (S (Z.to_nat (minCount - (len out + 1)))) by lia.
      cbn [firstn]. now rewrite <- app_assoc.
Qed.

Lemma len_firstn {A : Type} (n : nat) (l : list A) :
  len (firstn n l) = Z.min (Z.of_nat n) (len l).
Proof. unfold len. rewrite length_firstn. lia. Qed.

Lemma len_zero_nil {A : Type} (l : list A) : len l = 0 -> l = [].
Proof. destruct l; unfold len; simpl; [reflexivity | lia]. Qed.

(** The first pass already gives enough: its first [minCount] articles. *)
Lemma filterRelevantArticles_enough (h : Store) (topic : string)
    (geo : option Geo) (articles : list Ref) (minCount : Z) :
  minCount <= len (strictPass h topic geo articles) ->
  filterRelevantArticles h topic geo articles minCount
  = JS.slice0 (strictPass h topic geo articles) minCount.
Proof.
  intros Hle. unfold filterRelevantArticles.
  destruct (Z.geb_spec (len (strictPass h topic geo articles)) minCount);
    [reflexivity | lia].
Qed.

(** The first pass falls short: the kept articles, then the best candidates
    up to [minCount], then (for "local" only) the extra articles of the
    permissive pass. *)
Lemma filterRelevantArticles_backfill (h : Store) (topic : string)
    (geo : option Geo) (articles : list Ref) (minCount : Z) :
  len (strictPass h topic geo articles) < minCount ->
  exists extra,
    filterRelevantArticles h topic geo articles minCount
    = strictPass h topic geo articles
      ++ firstn (Z.to_nat (minCount - len (strictPass h topic geo articles)))
           (List.map fst (candidates h topic geo articles))
      ++ extra
    /\ (JS.toLowerCase (JS.orStr topic "") <> "local" -> extra = []).
Proof.
  intros Hlt. unfold filterRelevantArticles.
  set (strict := strictPass h topic geo articles) in *.
  set (cands := List.map fst (candidates h topic geo articles)).
  destruct (Z.geb_spec (len strict) minCount) as [Hge | _]; [lia |].
  rewrite (pushUntil_exact strict cands minCount Hlt).
  set (k := Z.to_nat (minCount - len strict)).
  set (remaining :=
         List.filter (fun r => negb (bool_decide (r ∈ (list_to_set strict : gset Ref))))
           articles).
  assert (Hfinal : forall extra,
             (if 0 <? len ((strict ++ firstn k cands) ++ extra)
              then (strict ++ firstn k cands) ++ extra
              else JS.slice0 articles minCount)
             = strict ++ firstn k cands ++ extra).
  { intros extra. rewrite <- app_assoc.
    destruct (Z.ltb_spec 0 (len (strict ++ firstn k cands ++ extra)))
      as [Hpos | Hzero]; [reflexivity |].
    assert (Hnil : strict ++ firstn k cands ++ extra = [])
      by (apply len_zero_nil; pose proof (len_nonneg (strict ++ firstn k cands ++ extra)); lia).
    rewrite Hnil. apply app_eq_nil in Hnil. destruct Hnil as [Hs Hrest].
    apply app_eq_nil in Hrest. destruct Hrest as [Hfirst _].
    assert (Hc : cands = []).
    { destruct cands as [|c cands']; [reflexivity |].
      assert (Hk : k = S (Nat.pred k))
        by (unfold k; lia).
      rewrite Hk in Hfirst. discriminate. }
    pose proof (candidates_len h topic geo articles) as Hlen.
    fold strict cands in Hlen. rewrite Hs, Hc in Hlen.
    change (len (@nil Ref)) with 0 in Hlen.
    rewrite (len_zero_nil articles) by lia. apply slice0_nil. }
  destruct (String.eqb_spec (JS.toLowerCase (JS.orStr topic "")) "local")
    as [Hlocal | Hother].
  - destruct (Z.ltb_spec (len (strict ++ firstn k cands)) minCount) as [Hshort | Hfull].
    + cbn [andb].
      rewrite (pushUntil_exact (strict ++ firstn k cands) remaining minCount Hshort).
      eexists. split; [apply Hfinal | intros Hne; contradiction].
    + cbn [andb]. exists []. split; [| reflexivity].
      rewrite <- (Hfinal []). now rewrite !app_nil_r.
  - cbn [andb]. exists []. split; [| reflexivity].
    rewrite <- (Hfinal []). now rewrite !app_nil_r.
Qed.

(** C1. The relevance filter returns at least [min(minCount, n)] articles
    for an input of [n] articles; so a non-empty input with [minCount >= 1]
    gives a non-empty output. *)
Theorem filterRelevantArticles_min_length (h : Store) (topic : string)
    (geo : option Geo) (articles : list Ref) (minCount : Z) :
  Z.min minCount (len articles)
  <= len (filterRelevantArticles h topic geo articles minCount)
  /\ (articles <> [] -> 1 <= minCount ->
      filterRelevantArticles h topic geo articles minCount <> []).
Proof.
  assert (Hmin : Z.min minCount (len articles)
                 <= len (filterRelevantArticles h topic geo articles minCount)).
  { pose proof (candidates_len h topic geo articles) as Hsplit.
    pose proof (len_nonneg (List.map fst (candidates h topic geo articles))) as Hc.
    pose proof (len_nonneg (strictPass h topic geo articles)) as Hs.
    destruct (Z.le_gt_cases minCount (len (strictPass h topic geo articles)))
      as [Hle | Hgt].
    - rewrite (filterRelevantArticles_enough h topic geo articles minCount Hle).
      rewrite len_slice0. destruct (Z.ltb_spec minCount 0); lia.
    - destruct (filterRelevantArticles_backfill h topic geo articles minCount
                  ltac:(lia)) as [extra [Hrun _]].
      rewrite Hrun, !len_app, len_firstn.
      pose proof (len_nonneg extra). lia. }
  split; [exact Hmin |].
  intros Hne Hone Hnil. rewrite Hnil in Hmin. change (len (@nil Ref)) with 0 in Hmin.
  destruct articles as [|a rest]; [contradiction |].
  unfold len in Hmin. simpl List.length in Hmin. lia.
Qed.

(** C7. The score the code gives an article is the score of the
    specification: 2 per geography token in the title, 1 per geography
    token in the description only, the same for the topic tokens unless the
    topic is a core category, and one half when [publishedAt] is not empty.
    Every article the first pass did not keep is a scored candidate, and the
    candidates are in non-increasing order of score. When the first pass
    falls short of [minCount], the output is the kept articles followed by
    the first [minCount - kept] candidates, in that order, followed by
    nothing more unless the topic is "local". *)
Theorem scored_backfill_order (h : Store) (topic : string) (geo : option Geo)
    (articles : list Ref) (minCount : Z) :
  let strict := strictPass h topic geo articles in
  let cands := candidates h topic geo articles in
  let byScore := fun r1 r2 : Ref =>
    (scoreOf h topic geo r2 <= scoreOf h topic geo r1)%Q in
  (forall r, (scoreOf h topic geo r == specScore topic geo (h r))%Q)
  /\ Permutation (List.map fst cands)
       (List.filter (fun r => negb (keeps h topic geo r)) articles)
  /\ Forall (fun p => snd p = scoreOf h topic geo (fst p)) cands
  /\ StronglySorted byScore (List.map fst cands)
  /\ (len strict < minCount ->
      exists backfilled extra,
        filterRelevantArticles h topic geo articles minCount
        = strict ++ backfilled ++ extra
        /\ backfilled
           = firstn (Z.to_nat (minCount - len strict)) (List.map fst cands)
        /\ StronglySorted byScore backfilled
        /\ (JS.toLowerCase (JS.orStr topic "") <> "local" -> extra = [])).
Proof.
  intros strict cands byScore.
  split; [intros r; apply score_spec |].
  split; [apply candidates_perm |].
  split; [apply candidates_scores |].
  split; [apply candidates_sorted |].
  intros Hlt.
  destruct (filterRelevantArticles_backfill h topic geo articles minCount Hlt)
    as [extra [Hrun Hextra]].
  eexists. exists extra. split; [exact Hrun |]. split; [reflexivity |].
  split; [| exact Hextra].
  apply StronglySorted_firstn, candidates_sorted.
Qed.

(** ** Response assembly *)

Lemma size_list_to_set_le (l : list string) :
  (size (list_to_set l : gset string) <= List.length l)%nat.
Proof.
  induction l as [|x l IH].
  - rewrite list_to_set_nil, size_empty. simpl. lia.
  - rewrite list_to_set_cons, size_union_alt, size_singleton. cbn [List.length].
    assert (Hsub : (size ((list_to_set l : gset string) ∖ {[x]})
                    <= size (list_to_set l : gset string))%nat)
      by (apply subseteq_size; set_solver).
    lia.
Qed.

(** The loop reaches 3 items when enough keys of the pool are not yet
    present. *)
Lemma backfillLoop_length (have : gset string) (items pool : list Item.t) :
  3 <= len items
       + Z.of_nat (size ((list_to_set (List.map itemKey pool) : gset string) ∖ have)) ->
  3 <= len (backfillLoop have items pool).
Proof.
  revert have items. induction pool as [|c rest IH]; intros have items Hfresh.
  - cbn [backfillLoop List.map] in *. rewrite list_to_set_nil in Hfresh.
    assert (Hnone : (∅ : gset string) ∖ have = ∅) by set_solver.
    rewrite Hnone, size_empty in Hfresh. lia.
  - cbn [backfillLoop]. cbn [List.map] in Hfresh. rewrite list_to_set_cons in Hfresh.
    destruct (bool_decide_reflect (itemKey c ∈ have)) as [Hin | Hout].
    + apply IH.
      set (keys := list_to_set (List.map itemKey rest) : gset string) in *.
      assert (Hsame : ({[itemKey c]} ∪ keys) ∖ have = keys ∖ have) by set_solver.
      rewrite <- Hsame. exact Hfresh.
    + destruct (Z.geb_spec (len (items ++ [c])) 3) as [Hge | Hlt]; [exact Hge |].
      apply IH. rewrite len_app. change (len [c]) with 1.
      set (keys := list_to_set (List.map itemKey rest) : gset string) in *.
      assert (Hsplit : ({[itemKey c]} ∪ keys) ∖ have
                       = {[itemKey c]} ∪ (keys ∖ ({[itemKey c]} ∪ have)))
        by (apply set_eq; intros x; destruct (decide (x = itemKey c)); set_solver).
      assert (Hdisj : ({[itemKey c]} : gset string) ## keys ∖ ({[itemKey c]} ∪ have))
        by set_solver.
      rewrite Hsplit, (size_union _ _ Hdisj), size_singleton in Hfresh.
      lia.
Qed.

(** What the loop appends: pool entries, in pool order, with keys that are
    new and pairwise different, until there are 3 items or no pool entry
    with a new key is left. *)
Lemma backfillLoop_spec (have : gset string) (items pool : list Item.t) :
  len items < 3 ->
  exists added,
    backfillLoop have items pool = items ++ added
    /\ sublist added pool
    /\ NoDup (List.map itemKey added)
    /\ (forall c, In c added -> itemKey c ∉ have)
    /\ (len (items ++ added) = 3
        \/ (len (items ++ added) < 3
            /\ forall c, In c pool ->
                 itemKey c ∈ have ∪ list_to_set (List.map itemKey added))).
Proof.
  revert have items. induction pool as [|c rest IH]; intros have items Hlt.
  - exists []. rewrite app_nil_r. simpl.
    repeat split; [constructor | constructor | intros c [] |].
    right. split; [exact Hlt | intros c []].
  - cbn [backfillLoop].
    destruct (bool_decide_reflect (itemKey c ∈ have)) as [Hin | Hout].
    + destruct (IH have items Hlt) as [added [Hrun [Hsub [Hnd [Hnew Hend]]]]].
      exists added. split; [exact Hrun |].
      split; [now apply sublist_cons |]. split; [exact Hnd |].
      split; [exact Hnew |].
      destruct Hend as [Hthree | [Hshort Hcover]]; [now left | right].
      split; [exact Hshort |].
      intros c' [<- | Hc']; [set_solver | now apply Hcover].
    + destruct (Z.geb_spec (len (items ++ [c])) 3) as [Hge | Hlt'].
      * exists [c]. split; [reflexivity |].
        split; [apply sublist_skip, sublist_nil_l |].
        split; [simpl; apply NoDup_singleton |].
        split; [intros c' [<- | []]; exact Hout |].
        left. rewrite len_app in *. change (len [c]) with 1 in *. lia.
      * destruct (IH ({[itemKey c]} ∪ have) (items ++ [c]) Hlt')
          as [added [Hrun [Hsub [Hnd [Hnew Hend]]]]].
        exists (c :: added). rewrite <- app_assoc in Hrun. simpl in Hrun.
        split; [exact Hrun |].
        split; [now apply sublist_skip |].
        split.
        { simpl. apply NoDup_cons. split; [| exact Hnd].
          rewrite list_elem_of_In, in_map_iff. intros [c' [Hkey Hc']].
          specialize (Hnew c' Hc'). rewrite Hkey in Hnew. set_solver. }
        split.
        { intros c' [<- | Hc']; [exact Hout |].
          specialize (Hnew c' Hc'). set_solver. }
        rewrite <- app_assoc in Hend. simpl in Hend.
        destruct Hend as [Hthree | [Hshort Hcover]]; [now left | right].
        split; [exact Hshort |].
        intros c' [<- | Hc']; [set_solver |].
        specialize (Hcover c' Hc'). set_solver.
Qed.

(** C4. If the candidate pool holds at least 3 different url-or-id keys,
    the assembled response has at least 3 items. With fewer than 3 items to
    start from, the block appends pool entries in pool order, each with a
    key not present so far, and stops at exactly 3 items or when every key
    of the pool is present; with 3 items or more it changes nothing. *)
Theorem backfill_guarantee (items globalCandidates : list Item.t) :
  ((3 <= size (list_to_set (List.map itemKey globalCandidates) : gset string))%nat ->
   3 <= len (backfill items globalCandidates))
  /\ (len items < 3 ->
      exists added,
        backfill items globalCandidates = items ++ added
        /\ sublist added globalCandidates
        /\ NoDup (List.map itemKey added)
        /\ (forall c, In c added -> ~ In (itemKey c) (List.map itemKey items))
        /\ (len (backfill items globalCandidates) = 3
            \/ (len (backfill items globalCandidates) < 3
                /\ forall c, In c globalCandidates ->
                     In (itemKey c)
                       (List.map itemKey (backfill items globalCandidates)))))
  /\ (3 <= len items -> backfill items globalCandidates = items).
Proof.
  split; [| split].
  - intros Hpool. unfold backfill.
    destruct (Z.ltb_spec (len items) 3) as [Hlt | Hge]; [| exact Hge].
    destruct globalCandidates as [|c rest].
    + cbn [List.map] in Hpool. rewrite list_to_set_nil, size_empty in Hpool. lia.
    + change (0 <? len (c :: rest)) with true. cbn [andb].
      apply backfillLoop_length.
      set (pool := list_to_set (List.map itemKey (c :: rest)) : gset string) in *.
      set (have := list_to_set (List.map itemKey items) : gset string).
      assert (Hhave : (size have <= List.length items)%nat).
      { unfold have. etransitivity; [apply size_list_to_set_le |].
        now rewrite length_map. }
      assert (Hsplit : (size pool <= size have + size (pool ∖ have))%nat).
      { rewrite <- size_union_alt. apply subseteq_size. set_solver. }
      unfold len. lia.
  - intros Hlt. unfold backfill.
    apply Z.ltb_lt in Hlt as Hlt'. rewrite Hlt'. cbn [andb].
    destruct globalCandidates as [|c rest].
    + exists []. rewrite app_nil_r. simpl.
      repeat split; [constructor | constructor | intros c [] |].
      right. split; [exact Hlt | intros c []].
    + change (0 <? len (c :: rest)) with true. cbv iota.
      destruct (backfillLoop_spec (list_to_set (List.map itemKey items)) items
                  (c :: rest) Hlt) as [added [Hrun [Hsub [Hnd [Hnew Hend]]]]].
      exists added. split; [exact Hrun |]. split; [exact Hsub |].
      split; [exact Hnd |].
      split.
      { intros c' Hc' Hin. apply (Hnew c' Hc').
        apply elem_of_list_to_set, list_elem_of_In. exact Hin. }
      rewrite Hrun.
      destruct Hend as [Hthree | [Hshort Hcover]]; [now left | right].
      split; [exact Hshort |].
      intros c' Hc'. specialize (Hcover c' Hc').
      rewrite map_app, in_app_iff.
      apply elem_of_union in Hcover. destruct Hcover as [Hh | Ha].
      * left. apply elem_of_list_to_set in Hh. now apply list_elem_of_In in Hh.
      * right. apply list_elem_of_In.
        now apply (elem_of_list_to_set (C := gset string)) in Ha.
  - intros Hge. unfold backfill.
    destruct (Z.ltb_spec (len items) 3); [lia | reflexivity].
Qed.

(** ** Concrete runs *)

Example backfill_sample :
  backfill [emittedItem] samplePool
  = [emittedItem;
     Item.mk "sports-cand-1-1730592000000" "Transfer news" "" ""
       "https://example.com/transfer" "sports";
     Item.mk "local-cand-1-1730592000000" "Road works" "" "" "" "local"].
Proof. vm_compute. reflexivity. Qed.

Lemma backfill_guarantee_witness :
  (3 <= size (list_to_set (List.map itemKey samplePool) : gset string))%nat
  /\ 3 <= len (backfill [emittedItem] samplePool).
Proof.
  assert (Hpool : (3 <= size (list_to_set (List.map itemKey samplePool) : gset string))%nat)
    by (vm_compute; lia).
  split; [exact Hpool |].
  exact (proj1 (backfill_guarantee [emittedItem] samplePool) Hpool).
Defined.

Example filter_local_sample :
  filterRelevantArticles sampleStore "local" (Some austin) [0; 1; 2; 3]%nat 3
  = [0; 1; 3]%nat.
Proof. vm_compute. reflexivity. Qed.

Example filter_local_permissive_sample :
  filterRelevantArticles sampleStore "local" (Some austin) [0; 1; 2; 3]%nat 6
  = [0; 1; 3; 2; 2]%nat.
Proof. vm_compute. reflexivity. Qed.

Example filter_core_sample :
  filterRelevantArticles sampleStore "Technology" None [0; 1; 2; 3]%nat 6
  = [0; 1; 2; 3]%nat.
Proof. vm_compute. reflexivity. Qed.

Example candidates_sample :
  candidates sampleStore "bitcoin" (Some austin) [0; 1; 2; 3]%nat
  = [(3%nat, 6%Q); (0%nat, 9 # 2); (1%nat, 1%Q); (2%nat, 1 # 2)].
Proof. vm_compute. reflexivity. Qed.

Lemma filterRelevantArticles_min_length_witness :
  3 <= len (filterRelevantArticles sampleStore "bitcoin" (Some austin)
              [0; 1; 2; 3]%nat 3)
  /\ filterRelevantArticles sampleStore "bitcoin" (Some austin) [0; 1; 2; 3]%nat 3
     <> [].
Proof.
  destruct (filterRelevantArticles_min_length sampleStore "bitcoin" (Some austin)
              [0; 1; 2; 3]%nat 3) as [Hmin Hnonempty].
  split.
  - exact Hmin.
  - apply Hnonempty; [discriminate | lia].
Defined.

Lemma scored_backfill_order_witness :
  exists backfilled extra,
    filterRelevantArticles sampleStore "bitcoin" (Some austin) [0; 1; 2; 3]%nat 3
    = strictPass sampleStore "bitcoin" (Some austin) [0; 1; 2; 3]%nat
      ++ backfilled ++ extra
    /\ backfilled = [3; 0; 1]%nat
    /\ extra = [].
Proof.
  destruct (scored_backfill_order sampleStore "bitcoin" (Some austin)
              [0; 1; 2; 3]%nat 3) as [_ [_ [_ [_ Hshort]]]].
  destruct Hshort as [backfilled [extra [Hrun [Hbackfilled [_ Hextra]]]]];
    [vm_compute; reflexivity |].
  exists backfilled, extra. split; [exact Hrun |].
  split.
  - rewrite Hbackfilled. vm_compute. reflexivity.
  - apply Hextra. vm_compute. discriminate.
Defined.

Lemma cache_never_throws_witness :
  fst (Cache.get brokenBackend "news:local:no-geo:6" connectedCache) = Returned None
  /\ Cache.set brokenBackend "news:local:no-geo:6" 7%nat 900 connectedCache
     = (Returned tt, connectedCache)
  /\ fst (Cache.del brokenBackend "news:local:no-geo:6" connectedCache) = Returned tt.
Proof.
  destruct (cache_never_throws brokenBackend connectedCache "news:local:no-geo:6"
              7%nat 900) as [_ [Hset [Hdel Hfail]]].
  destruct (Hfail tt eq_refl eq_refl) as [Hget [_ [Hnoop _]]].
  split; [apply Hget; now exists "connection lost" |].
  split; [| exact Hdel].
  rewrite (surjective_pairing (Cache.set brokenBackend _ 7%nat 900 connectedCache)).
  rewrite Hset, Hnoop; [reflexivity | now exists "circular structure"].
Defined.

Example missing_key_local_scenario :
  fetchArticlesForTopic offlineBackend "" sameStoryProvider "local" None 6 freshWorld
  = (Returned {| articles := []; note := Some "Missing NEWSAPI_KEY" |}, freshWorld)
  /\ filterRelevantArticles sampleStore "local" None [] 6 = []
  /\ summarizeArticles "sk-test" (fun _ _ => Thrown "unreachable") "local" None []
       200 false freshWorld
     = (Returned "No recent coverage found for local.", freshWorld).
Proof. repeat split; vm_compute; reflexivity. Qed.

Example summarize_fallback_sample :
  fst (summarizeArticles "sk-test" (fun _ _ => Thrown "timeout") "technology" None
         [normalize sampleRaw] 200 false freshWorld)
  = Returned "Here's your technology news. Austin opens a new library.".
Proof. vm_compute. reflexivity. Qed.

Example local_fetch_truncates :
  exists r w',
    fetchArticlesForTopic offlineBackend "key" fiveStoriesProvider "Local"
      (Some austin) 6 freshWorld = (Returned r, w')
    /\ List.length (newsLog w') = 8%nat
    /\ List.length (articles r) = 6%nat.
Proof. eexists. eexists. repeat split; vm_compute; reflexivity. Qed.

Example general_fetch_sample :
  exists r w',
    fetchArticlesForTopic offlineBackend "key" fiveStoriesProvider "general"
      None 6 freshWorld = (Returned r, w')
    /\ newsLog w'
       = [TopHeadlines (Some "business") None None 1;
          TopHeadlines (Some "entertainment") None None 1;
          TopHeadlines (Some "health") None None 1;
          TopHeadlines (Some "science") None None 1;
          TopHeadlines (Some "sports") None None 1;
          TopHeadlines (Some "technology") None None 1;
          Everything "world" 1]
    /\ List.length (articles r) = 7%nat.
Proof. eexists. eexists. repeat split; vm_compute; reflexivity. Qed.

Example free_text_fetch_sample :
  newsLog
    (snd (fetchArticlesForTopic offlineBackend "key" sameStoryProvider
            "electric vehicles" (Some austin) 12 freshWorld))
  = [Everything "electric vehicles Texas Austin" 12].
Proof. vm_compute. reflexivity. Qed.

(** A second call for the same topic, geography and size is answered from
    the cache: the provider log does not grow. *)
Example cached_fetch_sample :
  let w1 :=
    snd (fetchArticlesForTopic offlineBackend "key" sameStoryProvider "technology"
           None 6 freshWorld) in
  let run2 :=
    fetchArticlesForTopic offlineBackend "key" sameStoryProvider "technology"
      None 6 w1 in
  fst run2
  = fst (fetchArticlesForTopic offlineBackend "key" sameStoryProvider "technology"
           None 6 freshWorld)
  /\ newsLog (snd run2) = newsLog w1
  /\ List.length (newsLog w1) = 1%nat.
Proof. cbv zeta. repeat split; vm_compute; reflexivity. Qed.

(** The quota over two days: allowed, used, denied the same day, allowed
    again the next day. *)
Example quota_cycle_sample :
  let day1 := 1730592000000 in
  let day2 := day1 + 86400000 in
  let u0 := mkUser false 0 day1 in
  let '(u1, c1) := fallback_canFetchNews utcDateString (day1 + 1000) u0 in
  let u2 := fallback_incrementUsage (day1 + 2000) u1 in
  let '(u3, c3) := fallback_canFetchNews utcDateString (day1 + 3000) u2 in
  let '(u4, c4) := fallback_canFetchNews utcDateString (day2 + 1000) u3 in
  allowed c1 = true /\ allowed c3 = false /\ dailyCount c3 = Some 1
  /\ allowed c4 = true /\ dailyUsageCount u4 = 0.
Proof. vm_compute. repeat split; reflexivity. Qed.

(* ================================================================== *)
(** * Part III: further properties of the code *)
(* ================================================================== *)

(** ** Usage gate *)

Section UsageGateMore.

Variable toDateString : Date -> string.

(** X1. A premium user is always allowed, whatever the count and the date
    of the last use, by the model method and by the fallback alike. *)
Theorem premium_always_allowed (now : Date) (this : UserDoc) (user : User) :
  (isPremium (doc this) = true ->
   allowed (snd (canFetchNews toDateString now this)) = true)
  /\ (isPremium user = true ->
      allowed (snd (fallback_canFetchNews toDateString now user)) = true).
Proof.
  split; intros Hpremium.
  - unfold canFetchNews. destruct (negb _); cbn [snd doc save];
      apply evaluateQuota_premium; exact Hpremium.
  - unfold fallback_canFetchNews. destruct (negb _); cbn [snd];
      apply evaluateQuota_premium; exact Hpremium.
Qed.

(** X2. Once a use has been recorded, a free user is turned away for the
    rest of that calendar day: the check after [incrementUsage] answers
    "daily_limit_reached" with the new count and changes nothing. *)
Theorem free_user_denied_after_use (tUse tCheck : Date) (this : UserDoc)
    (user : User) :
  toDateString tUse = toDateString tCheck ->
  (isPremium (doc this) = false -> 0 <= dailyUsageCount (doc this) ->
   canFetchNews toDateString tCheck (incrementUsage tUse this)
   = (incrementUsage tUse this,
      mkUsageCheck false "daily_limit_reached"
        (Some (dailyUsageCount (doc this) + 1))))
  /\ (isPremium user = false -> 0 <= dailyUsageCount user ->
      fallback_canFetchNews toDateString tCheck (fallback_incrementUsage tUse user)
      = (fallback_incrementUsage tUse user,
         mkUsageCheck false "daily_limit_reached"
           (Some (dailyUsageCount user + 1)))).
Proof.
  intros Hday. split; intros Hfree Hcount.
  - rewrite canFetchNews_same_day by exact Hday.
    unfold evaluateQuota, incrementUsage. cbn [doc save isPremium dailyUsageCount].
    rewrite Hfree. destruct (Z.geb_spec (dailyUsageCount (doc this) + 1) 1);
      [reflexivity | lia].
  - rewrite fallback_canFetchNews_same_day by exact Hday.
    unfold evaluateQuota, fallback_incrementUsage. cbn [isPremium dailyUsageCount].
    rewrite Hfree. destruct (Z.geb_spec (dailyUsageCount user + 1) 1);
      [reflexivity | lia].
Qed.

(** The count never becomes negative. *)
Lemma gatedSummarize_count (tCheck tDone : Date) (completes : bool) (user : User) :
  0 <= dailyUsageCount user ->
  0 <= dailyUsageCount (fst (gatedSummarize toDateString tCheck tDone completes user)).
Proof.
  intros Hcount. unfold gatedSummarize, fallback_canFetchNews.
  destruct (negb (String.eqb _ _)); cbn [fst snd];
    match goal with |- context [evaluateQuota ?u] => destruct (allowed (evaluateQuota u)) end;
    destruct completes; cbn [negb fst fallback_incrementUsage dailyUsageCount]; lia.
Qed.

(** After a recorded use on day [D], every later request on that day is
    turned away and leaves the user as it is. *)
Lemma gatedRun_exhausted (day : string) (requests : list (Date * Date * bool))
    (user : User) :
  isPremium user = false ->
  1 <= dailyUsageCount user ->
  toDateString (lastUsageDate user) = day ->
  Forall (fun r => toDateString (fst (fst r)) = day) requests ->
  gatedRun toDateString requests user
  = (user, List.map (fun _ => Denied) requests).
Proof.
  intros Hfree Hcount Hlast Hdays.
  induction Hdays as [|[[tCheck tDone] completes] rest Hr Hrest IH];
    [reflexivity |].
  cbn [gatedRun fst] in *. unfold gatedSummarize.
  rewrite fallback_canFetchNews_same_day by congruence.
  unfold evaluateQuota. rewrite Hfree.
  destruct (Z.geb_spec (dailyUsageCount user) 1); [| lia].
  cbn [allowed negb]. rewrite IH. reflexivity.
Qed.

(** X3. A free user gets at most one summarize request answered per
    calendar day: in any series of requests whose checks and increments
    all fall on one day, handled one after the other, at most one ends
    [Completed]. *)
Theorem one_summary_per_day (day : string)
    (requests : list (Date * Date * bool)) (user : User) :
  isPremium user = false ->
  0 <= dailyUsageCount user ->
  Forall (fun r => toDateString (fst (fst r)) = day
                   /\ toDateString (snd (fst r)) = day) requests ->
  (List.length
     (List.filter (fun o => match o with Completed => true | _ => false end)
        (snd (gatedRun toDateString requests user)))
   <= 1)%nat.
Proof.
  intros Hfree Hcount Hdays. revert user Hfree Hcount.
  induction Hdays as [|[[tCheck tDone] completes] rest [HdayC HdayD] Hrest IH];
    intros user Hfree Hcount; [simpl; lia |].
  cbn [fst snd] in HdayC, HdayD.
  assert (Hrest' : Forall (fun r => toDateString (fst (fst r)) = day) rest)
    by (eapply List.Forall_impl; [| exact Hrest]; intros r [Hr _]; exact Hr).
  cbn [gatedRun]. unfold gatedSummarize.
  destruct (fallback_canFetchNews toDateString tCheck user) as [user1 check] eqn:Hcheck.
  assert (Hfacts : isPremium user1 = false /\ 0 <= dailyUsageCount user1
                   /\ toDateString (lastUsageDate user1) = day
                   /\ check = evaluateQuota user1).
  { unfold fallback_canFetchNews in Hcheck.
    destruct (String.eqb_spec (toDateString (lastUsageDate user))
                (toDateString tCheck)) as [Heq | Hne];
      cbn [negb] in Hcheck; inversion Hcheck; subst; cbn [isPremium dailyUsageCount lastUsageDate];
      repeat split; try assumption; try lia; congruence. }
  destruct Hfacts as [Hfree1 [Hcount1 [Hlast1 Hcheck1]]].
  subst check. unfold evaluateQuota. rewrite Hfree1.
  destruct (Z.geb_spec (dailyUsageCount user1) 1) as [Hused | Hunused];
    cbn [allowed negb].
  - rewrite (gatedRun_exhausted day rest user1 Hfree1 Hused Hlast1 Hrest').
    cbn [snd List.filter]. clear. induction rest; simpl; lia.
  - destruct completes.
    + rewrite (gatedRun_exhausted day rest (fallback_incrementUsage tDone user1));
        [| exact Hfree1 | cbn [fallback_incrementUsage dailyUsageCount]; lia
         | exact HdayD | exact Hrest'].
      cbn [snd List.filter List.length].
      assert (Hnone : forall l : list (Date * Date * bool),
                 List.filter
                   (fun o => match o with Completed => true | _ => false end)
                   (List.map (fun _ => Denied) l) = [])
        by (intros l; induction l; simpl; auto).
      rewrite Hnone. simpl. lia.
    + specialize (IH user1 Hfree1 Hcount1).
      destruct (gatedRun toDateString rest user1) as [user2 outcomes].
      cbn [snd List.filter] in *. exact IH.
Qed.

End UsageGateMore.

Lemma premium_always_allowed_witness :
  allowed (snd (fallback_canFetchNews utcDateString 1730592000000
                  (mkUser true 37 1730592000000))) = true.
Proof.
  exact (proj2 (premium_always_allowed utcDateString 1730592000000
                  (mkUserDoc (mkUser true 37 1730592000000) [])
                  (mkUser true 37 1730592000000)) eq_refl).
Defined.

Lemma free_user_denied_after_use_witness :
  fallback_canFetchNews utcDateString (1730592000000 + 7200000)
    (fallback_incrementUsage (1730592000000 + 3600000)
       (mkUser false 0 1730592000000))
  = (mkUser false 1 (1730592000000 + 3600000),
     mkUsageCheck false "daily_limit_reached" (Some 1)).
Proof.
  exact (proj2 (free_user_denied_after_use utcDateString
                  (1730592000000 + 3600000) (1730592000000 + 7200000)
                  (mkUserDoc (mkUser false 0 1730592000000) [])
                  (mkUser false 0 1730592000000) eq_refl)
           eq_refl ltac:(cbn; lia)).
Defined.

Lemma one_summary_per_day_witness :
  (List.length
     (List.filter (fun o => match o with Completed => true | _ => false end)
        (snd (gatedRun utcDateString sampleDayRequests yesterdayUser)))
   <= 1)%nat.
Proof.
  apply (one_summary_per_day utcDateString (utcDateString 1730592000000)).
  - reflexivity.
  - cbn. lia.
  - repeat constructor.
Defined.

Example gatedRun_sample :
  snd (gatedRun utcDateString sampleDayRequests yesterdayUser)
  = [NotCompleted; Completed; Denied].
Proof. vm_compute. reflexivity. Qed.

(** ** Cache manager: the in-process map *)

Section CacheMore.

Context {R V : Type} (B : Backend R V).

Lemma cache_del_fallback (key : string) (this : CacheManager R V) :
  isConnected this = false \/ client this = None ->
  Cache.del B key this
  = (Returned tt,
     mkCacheManager (isConnected this) (client this)
       (delete key (fallbackCache this)) (timers this)).
Proof.
  intros Hoff. unfold Cache.del, tryCatch.
  destruct (isConnected this) eqn:Hc, (client this) as [r|] eqn:Hr;
    try (destruct Hoff; discriminate); reflexivity.
Qed.

(** X4. Without a connected networked client the manager is a map with
    scheduled expiry: a value that was set is what [get] returns (null for a
    falsy value), other keys are untouched, [get] changes nothing, [del]
    makes the key a miss, and each [set] schedules one deletion of its key
    after [ttlSeconds * 1000] milliseconds. *)
Theorem cache_fallback_round_trip (this : CacheManager R V) (key other : string)
    (value : V) (ttlSeconds : Z) :
  isConnected this = false \/ client this = None ->
  let this1 := snd (Cache.set B key value ttlSeconds this) in
  Cache.get B key this1
  = (Returned (if truthyValue B value then Some value else None), this1)
  /\ (other <> key ->
      fst (Cache.get B other this1) = fst (Cache.get B other this))
  /\ fst (Cache.get B key (snd (Cache.del B key this1))) = Returned None
  /\ timers this1 = timers this ++ [(key, ttlSeconds * 1000)].
Proof.
  intros Hoff this1.
  assert (Hthis1 : this1
                   = mkCacheManager (isConnected this) (client this)
                       (<[key := value]> (fallbackCache this))
                       (timers this ++ [(key, ttlSeconds * 1000)]))
    by (unfold this1; now rewrite cache_set_fallback).
  assert (Hoff1 : isConnected this1 = false \/ client this1 = None)
    by (rewrite Hthis1; exact Hoff).
  split; [| split; [| split]].
  - rewrite (cache_get_fallback B key this1 Hoff1). f_equal. f_equal.
    rewrite Hthis1. cbn [fallbackCache]. now rewrite lookup_insert_eq.
  - intros Hother.
    rewrite (cache_get_fallback B other this1 Hoff1),
            (cache_get_fallback B other this Hoff).
    rewrite Hthis1. cbn [fallbackCache fst].
    now rewrite lookup_insert_ne by congruence.
  - rewrite (cache_del_fallback key this1 Hoff1). cbn [snd].
    rewrite cache_get_fallback by exact Hoff1. cbn [fst fallbackCache].
    now rewrite lookup_delete_eq.
  - rewrite Hthis1. reflexivity.
Qed.

End CacheMore.

Lemma cache_fallback_round_trip_witness :
  fst (Cache.get offlineBackend "news:sports:no-geo:6"
         (snd (Cache.set offlineBackend "news:sports:no-geo:6"
                 {| articles := [normalize sampleRaw]; note := None |} 900
                 offlineCache)))
  = Returned (Some {| articles := [normalize sampleRaw]; note := None |}).
Proof.
  destruct (cache_fallback_round_trip offlineBackend offlineCache
              "news:sports:no-geo:6" "news:local:no-geo:6"
              {| articles := [normalize sampleRaw]; note := None |} 900
              (or_introl eq_refl)) as [Hget _].
  cbv zeta in Hget. rewrite Hget. reflexivity.
Defined.

(** ** User model: custom topics and summary history *)

Lemma existsb_eqb_In (x : string) (l : list string) :
  existsb (String.eqb x) l = true <-> In x l.
Proof.
  rewrite existsb_exists. split.
  - intros [y [Hy Heq]]. apply String.eqb_eq in Heq. now subst.
  - intros Hx. exists x. split; [exact Hx | apply String.eqb_refl].
Qed.

Lemma removeCustomTopic_In (topic x : string) (customTopics : list string) :
  In x (removeCustomTopic topic customTopics) <-> In x customTopics /\ x <> topic.
Proof.
  unfold removeCustomTopic. rewrite filter_In, negb_true_iff.
  destruct (String.eqb_spec x topic); intuition congruence.
Qed.

Lemma removeCustomTopic_absent (topic : string) (customTopics : list string) :
  ~ In topic customTopics -> removeCustomTopic topic customTopics = customTopics.
Proof.
  induction customTopics as [|t rest IH]; intros Hnot; [reflexivity |].
  unfold removeCustomTopic in *. cbn [List.filter].
  destruct (String.eqb_spec t topic) as [-> | Hne].
  - exfalso. apply Hnot. now left.
  - cbn [negb]. f_equal. apply IH. intros Hin. apply Hnot. now right.
Qed.

Lemma NoDup_filter_list {A : Type} (f : A -> bool) (l : list A) :
  NoDup l -> NoDup (List.filter f l).
Proof.
  induction 1 as [|x l Hx Hl IH]; simpl; [constructor |].
  destruct (f x); [| exact IH]. constructor; [| exact IH].
  rewrite list_elem_of_In, filter_In. rewrite list_elem_of_In in Hx. tauto.
Qed.

Lemma addCustomTopic_NoDup (topic : string) (customTopics : list string) :
  NoDup customTopics -> NoDup (addCustomTopic topic customTopics).
Proof.
  intros Hnd. unfold addCustomTopic.
  destruct (existsb (String.eqb topic) customTopics) eqn:Hhas; [exact Hnd |].
  assert (Hnot : ~ In topic customTopics)
    by (rewrite <- existsb_eqb_In; congruence).
  apply NoDup_app. repeat split.
  - exact Hnd.
  - intros x Hx Hx'. apply list_elem_of_In in Hx.
    apply list_elem_of_In in Hx'. destruct Hx' as [<- | []]. tauto.
  - apply NoDup_singleton.
Qed.

(** X5. The custom topics behave as a set kept in insertion order: adding
    a topic makes it present without ever duplicating it, adding a present
    topic changes nothing, removing a topic removes it and nothing else,
    and removing a topic just added to a list that lacked it gives the list
    back. *)
Theorem custom_topics_set_like (topic : string) (customTopics : list string) :
  In topic (addCustomTopic topic customTopics)
  /\ (In topic customTopics -> addCustomTopic topic customTopics = customTopics)
  /\ (NoDup customTopics -> NoDup (addCustomTopic topic customTopics))
  /\ (forall x, In x (removeCustomTopic topic customTopics)
                <-> In x customTopics /\ x <> topic)
  /\ (NoDup customTopics -> NoDup (removeCustomTopic topic customTopics))
  /\ (~ In topic customTopics ->
      removeCustomTopic topic (addCustomTopic topic customTopics) = customTopics).
Proof.
  unfold addCustomTopic.
  destruct (existsb (String.eqb topic) customTopics) eqn:Hhas.
  - apply existsb_eqb_In in Hhas.
    repeat apply conj; try tauto.
    + intros x. apply removeCustomTopic_In.
    + apply NoDup_filter_list.
  - assert (Hnot : ~ In topic customTopics)
      by (rewrite <- existsb_eqb_In; congruence).
    repeat apply conj.
    + apply in_or_app. right. now left.
    + tauto.
    + intros Hnd. pose proof (addCustomTopic_NoDup topic customTopics Hnd) as H.
      unfold addCustomTopic in H. now rewrite Hhas in H.
    + intros x. apply removeCustomTopic_In.
    + apply NoDup_filter_list.
    + intros _. unfold removeCustomTopic. rewrite List.filter_app. cbn [List.filter].
      rewrite String.eqb_refl. cbn [negb]. rewrite app_nil_r.
      now apply removeCustomTopic_absent.
Qed.

(** X6. The summary history holds the newest entry first and never more
    than 50 entries: the new entry is followed by the previous entries in
    their order, the oldest dropped beyond 50. *)
Theorem summary_history_bounded {E : Type} (historyEntry : E)
    (summaryHistory : list E) :
  addSummaryToHistory historyEntry summaryHistory
  = historyEntry :: firstn 49 summaryHistory
  /\ len (addSummaryToHistory historyEntry summaryHistory)
     = Z.min 50 (len summaryHistory + 1)
  /\ len (addSummaryToHistory historyEntry summaryHistory) <= 50.
Proof.
  assert (Heq : addSummaryToHistory historyEntry summaryHistory
                = historyEntry :: firstn 49 summaryHistory).
  { unfold addSummaryToHistory.
    destruct (Z.ltb_spec 50 (len (historyEntry :: summaryHistory))) as [Hlong | Hshort].
    - unfold JS.slice0. change (50 <? 0) with false. cbv iota.
      fold (len (historyEntry :: summaryHistory)).
      replace (Z.to_nat (Z.min 50 (len (historyEntry :: summaryHistory))))
        with 50%nat by lia.
      reflexivity.
    - f_equal. symmetry. apply firstn_all2.
      unfold len in Hshort. cbn [List.length] in Hshort. lia. }
  rewrite Heq. unfold len. cbn [List.length]. rewrite length_firstn.
  repeat split; lia.
Qed.

(** ** Custom topic routes *)

Lemma setOf_In (l : list string) (x : string) : In x (JS.setOf l) <-> In x l.
Proof.
  split; [apply setOf_incl |].
  induction l as [|y l IH]; simpl; [tauto |].
  intros [-> | Hx]; [now left |].
  destruct (String.eqb_spec y x) as [-> | Hne]; [now left | right].
  apply filter_In. split; [now apply IH |].
  apply negb_true_iff. now apply String.eqb_neq.
Qed.

Lemma setOf_NoDup (l : list string) : NoDup (JS.setOf l).
Proof.
  induction l as [|y l IH]; simpl; constructor.
  - rewrite list_elem_of_In, filter_In, negb_true_iff, String.eqb_refl.
    intros [_ H]. discriminate.
  - now apply NoDup_filter_list.
Qed.

Lemma validateTopics_None (customTopics : list string) :
  validateTopics customTopics = None
  <-> Forall (fun t => 1 <= strLen (JS.trim t) <= 50) customTopics.
Proof.
  induction customTopics as [|t rest IH]; simpl.
  - split; [constructor | reflexivity].
  - pose proof (Zle_0_nat (String.length (JS.trim t))) as Hpos.
    fold (strLen (JS.trim t)) in Hpos.
    destruct (Z.eqb_spec (strLen (JS.trim t)) 0) as [Hzero | Hnz].
    + split; [discriminate | intros H; inversion H; subst; lia].
    + destruct (Z.ltb_spec 50 (strLen (JS.trim t))) as [Hlong | Hok].
      * split; [discriminate | intros H; inversion H; subst; lia].
      * rewrite IH. split.
        -- intros Hrest. constructor; [lia | exact Hrest].
        -- intros H. now inversion H.
Qed.

(** X7. What the custom topic routes store: [PUT] replaces the list by the
    trimmed topics of the request without duplicates, each between 1 and 50
    characters long, and refuses the request as soon as one topic is blank
    or longer than 50 characters after trimming; [POST] adds the trimmed
    topic, also between 1 and 50 characters, and keeps a duplicate-free
    list duplicate-free. *)
Theorem custom_topic_routes_store_valid_topics (requested : list string)
    (topic : option string) (customTopics : list string) :
  (forall stored, putCustomTopics requested = Accepted stored ->
     NoDup stored
     /\ (forall t, In t stored <-> exists t0, In t0 requested /\ t = JS.trim t0)
     /\ Forall (fun t => 1 <= strLen t <= 50) stored)
  /\ (forall error, putCustomTopics requested = BadRequest error ->
        exists t0, In t0 requested
                   /\ (strLen (JS.trim t0) = 0 \/ 50 < strLen (JS.trim t0)))
  /\ (forall stored, postCustomTopic topic customTopics = Accepted stored ->
        exists t, topic = Some t
                  /\ stored = addCustomTopic (JS.trim t) customTopics
                  /\ 1 <= strLen (JS.trim t) <= 50
                  /\ (NoDup customTopics -> NoDup stored)).
Proof.
  split; [| split].
  - intros stored Hput. unfold putCustomTopics in Hput.
    destruct (validateTopics requested) eqn:Hvalid; [discriminate |].
    inversion Hput; subst. apply validateTopics_None in Hvalid.
    split; [apply setOf_NoDup |]. split.
    + intros t. rewrite setOf_In, in_map_iff. split.
      * intros [t0 [Heq Hin]]. now exists t0.
      * intros [t0 [Hin Heq]]. now exists t0.
    + apply List.Forall_forall. intros t Ht. apply setOf_In, in_map_iff in Ht.
      destruct Ht as [t0 [<- Hin]]. rewrite List.Forall_forall in Hvalid.
      now apply Hvalid.
  - intros error Hput. unfold putCustomTopics in Hput.
    destruct (validateTopics requested) eqn:Hvalid; [| discriminate].
    clear Hput. induction requested as [|t rest IH]; [discriminate |].
    simpl in Hvalid.
    destruct (Z.eqb_spec (strLen (JS.trim t)) 0) as [Hzero | Hnz].
    + exists t. split; [now left | now left].
    + destruct (Z.ltb_spec 50 (strLen (JS.trim t))) as [Hlong | Hok].
      * exists t. split; [now left | now right].
      * destruct (IH Hvalid) as [t0 [Hin Hbad]]. exists t0.
        split; [now right | exact Hbad].
  - intros stored Hpost. unfold postCustomTopic in Hpost.
    destruct topic as [t |]; [| discriminate]. exists t.
    destruct (negb (JS.truthy t)); cbn [orb] in Hpost; [discriminate |].
    destruct (Z.eqb_spec (strLen (JS.trim t)) 0) as [Hzero | Hnz];
      [discriminate |].
    destruct (Z.ltb_spec 50 (strLen (JS.trim t))) as [Hlong | Hok];
      [discriminate |].
    inversion Hpost; subst.
    pose proof (Zle_0_nat (String.length (JS.trim t))) as Hpos.
    fold (strLen (JS.trim t)) in Hpos.
    repeat split; try lia.
    apply addCustomTopic_NoDup.
Qed.

Example putCustomTopics_sample :
  putCustomTopics ["  chess "; "formula 1"; "chess"; "formula 1 "]
  = Accepted ["chess"; "formula 1"].
Proof. vm_compute. reflexivity. Qed.

Example putCustomTopics_blank :
  putCustomTopics ["chess"; "   "]
  = BadRequest "All topics must be non-empty strings".
Proof. vm_compute. reflexivity. Qed.

(** ** Summarizer *)

Section SummarizerMore.

Context {R : Type}.
Variable OPENAI_API_KEY : string.
Variable openai : list ChatRequest -> ChatRequest -> Outcome (option string).

Lemma len_zero_iff_nil {A : Type} (l : list A) : (len l =? 0) = true <-> l = [].
Proof.
  destruct l; unfold len; simpl; split; try reflexivity; try discriminate;
    intros H; lia.
Qed.

(** The run of [summarizeArticles] when articles and a key are there. *)
Lemma summarizeArticles_with_key (topic : string) (geo : option Geo)
    (articles : list Article) (wordCount : Z) (goodNewsOnly : bool)
    (w : @World R) :
  articles <> [] ->
  JS.truthy OPENAI_API_KEY = true ->
  let req := chatRequestFor topic articles wordCount goodNewsOnly in
  summarizeArticles OPENAI_API_KEY openai topic geo articles wordCount goodNewsOnly w
  = (Returned
       match openai (llmLog w) req with
       | Returned (Some content) =>
           if JS.truthy (JS.trim content) then JS.trim content
           else titlesFallback topic articles goodNewsOnly
       | _ => titlesFallback topic articles goodNewsOnly
       end,
     mkWorld (cache w) (newsLog w) (llmLog w ++ [req])).
Proof.
  intros Hne Hkey req. unfold summarizeArticles.
  destruct (len articles =? 0) eqn:Hlen;
    [apply len_zero_iff_nil in Hlen; contradiction |].
  rewrite Hkey. change (negb true) with false. cbv iota.
  unfold tryCatch, bind, callOpenAI. cbv beta.
  unfold titlesFallback, opening. rewrite !append_assoc.
  unfold req, chatRequestFor.
  destruct (openai (llmLog w) _) as [[content |] | e]; cbn [option_map];
    try reflexivity.
  destruct (JS.truthy (JS.trim content)); reflexivity.
Qed.

(** X8. Summarizing never fails the request: for every behaviour of the
    completion service [summarizeArticles] returns a text, leaves the cache
    and the provider log alone, and asks the service exactly once when
    there are articles and a key is configured, and not at all otherwise. *)
Theorem summarizeArticles_never_throws (topic : string) (geo : option Geo)
    (articles : list Article) (wordCount : Z) (goodNewsOnly : bool)
    (w : @World R) :
  let run :=
    summarizeArticles OPENAI_API_KEY openai topic geo articles wordCount
      goodNewsOnly w in
  (exists text, fst run = Returned text)
  /\ cache (snd run) = cache w
  /\ newsLog (snd run) = newsLog w
  /\ llmLog (snd run)
     = llmLog w
       ++ (if (len articles =? 0) || negb (JS.truthy OPENAI_API_KEY) then []
           else [chatRequestFor topic articles wordCount goodNewsOnly]).
Proof.
  intros run. unfold run.
  destruct (len articles =? 0) eqn:Hlen.
  - apply len_zero_iff_nil in Hlen. subst articles.
    unfold summarizeArticles. cbn [orb]. change (len [] =? 0) with true.
    cbv iota. unfold ret. cbn [fst snd]. rewrite app_nil_r. eauto.
  - assert (Hne : articles <> [])
      by (intros ->; discriminate).
    destruct (JS.truthy OPENAI_API_KEY) eqn:Hkey; cbn [orb negb].
    + rewrite (summarizeArticles_with_key topic geo articles wordCount
                 goodNewsOnly w Hne Hkey).
      cbn [fst snd cache newsLog llmLog]. eauto.
    + unfold summarizeArticles. rewrite Hlen, Hkey. change (negb false) with true.
      cbv iota. unfold ret. cbn [fst snd]. rewrite app_nil_r. eauto.
Qed.

(** X9. What the summary is when there are articles. Without a key: the
    opening sentence and the first three titles. With a key: the trimmed
    completion when the service returns text that is not blank, and in
    every other case (the call throws, no content, blank content) the
    opening sentence and the non-empty ones of the first three titles. *)
Theorem summarizeArticles_fallbacks (topic : string) (geo : option Geo)
    (articles : list Article) (wordCount : Z) (goodNewsOnly : bool)
    (w : @World R) :
  articles <> [] ->
  let run :=
    summarizeArticles OPENAI_API_KEY openai topic geo articles wordCount
      goodNewsOnly w in
  let req := chatRequestFor topic articles wordCount goodNewsOnly in
  (JS.truthy OPENAI_API_KEY = false ->
   fst run
   = Returned (opening topic goodNewsOnly
               +:+ JS.join ". " (List.map title (JS.slice0 articles 3)) +:+ "."))
  /\ (JS.truthy OPENAI_API_KEY = true ->
      (forall content,
         openai (llmLog w) req = Returned (Some content) ->
         JS.truthy (JS.trim content) = true ->
         fst run = Returned (JS.trim content))
      /\ ((forall content,
             openai (llmLog w) req = Returned (Some content) ->
             JS.truthy (JS.trim content) = false) ->
          fst run = Returned (titlesFallback topic articles goodNewsOnly))).
Proof.
  intros Hne run req. split.
  - intros Hkey. unfold run, summarizeArticles.
    destruct (len articles =? 0) eqn:Hlen;
      [apply len_zero_iff_nil in Hlen; contradiction |].
    rewrite Hkey. change (negb false) with true. cbv iota.
    unfold opening. rewrite !append_assoc. reflexivity.
  - intros Hkey. unfold run.
    rewrite (summarizeArticles_with_key topic geo articles wordCount
               goodNewsOnly w Hne Hkey). fold req. cbn [fst]. split.
    + intros content Hcall Htext. now rewrite Hcall, Htext.
    + intros Hblank. destruct (openai (llmLog w) req) as [[content |] | e];
        try reflexivity.
      now rewrite (Hblank content eq_refl).
Qed.

Lemma slice0_firstn {A : Type} (l : list A) (n : nat) :
  JS.slice0 (firstn n l) (Z.of_nat n) = JS.slice0 l (Z.of_nat n).
Proof.
  unfold JS.slice0. destruct (Z.ltb_spec (Z.of_nat n) 0); [lia |].
  rewrite length_firstn, firstn_firstn. f_equal. lia.
Qed.

(** X10. The completion service never sees more than the first four
    articles, and its token budget never exceeds 1200: the request built
    from a list is the request built from its first four articles. *)
Theorem completion_request_bounded (topic : string) (articles : list Article)
    (wordCount : Z) (goodNewsOnly : bool) :
  chatRequestFor topic articles wordCount goodNewsOnly
  = chatRequestFor topic (firstn 4 articles) wordCount goodNewsOnly
  /\ (max_tokens (chatRequestFor topic articles wordCount goodNewsOnly) <= 1200)%Q.
Proof.
  split.
  - unfold chatRequestFor, buildPrompt.
    pose proof (slice0_firstn articles 4) as Hfour.
    change (Z.of_nat 4) with 4 in Hfour. rewrite Hfour. reflexivity.
  - cbn [max_tokens chatRequestFor]. apply Q.le_min_r.
Qed.

End SummarizerMore.

Lemma summarizeArticles_fallbacks_witness :
  fst (summarizeArticles "sk-test" (fun _ _ => Thrown "timeout") "technology" None
         [normalize sampleRaw] 200 false freshWorld)
  = Returned (titlesFallback "technology" [normalize sampleRaw] false).
Proof.
  destruct (summarizeArticles_fallbacks (R := unit) "sk-test"
              (fun _ _ => Thrown "timeout") "technology" None
              [normalize sampleRaw] 200 false freshWorld ltac:(discriminate))
    as [_ Hkey].
  destruct (Hkey eq_refl) as [_ Hfail]. apply Hfail.
  intros content Hcontent. discriminate.
Defined.

(** ** Article fetcher: requests, failures, caching *)

Section FetcherMore.

Context {R : Type} (B : Backend R FetchResult).
Variable NEWSAPI_KEY : string.
Variable newsapi : list Request -> Request -> Response.

Lemma generalPromises_requests (countryCode : string) :
  generalPromises (R := R) newsapi countryCode
  = List.map (generalBranch newsapi) (generalRequests countryCode).
Proof. reflexivity. Qed.

Lemma allSettled_general (reqs : list Request) (w : @World R) :
  allSettled (List.map (generalBranch newsapi) reqs) w
  = (Returned
       (List.map (fun o => Returned (firstArticle o))
          (settled newsapi (newsLog w) reqs)),
     mkWorld (cache w) (newsLog w ++ reqs) (llmLog w)).
Proof.
  revert w. induction reqs as [|req rest IH]; intros w.
  - simpl. unfold ret. rewrite app_nil_r. destruct w; reflexivity.
  - cbn [List.map allSettled settled].
    assert (Hbranch : generalBranch newsapi req w
                      = (Returned (firstArticle (readResponse (newsapi (newsLog w) req))),
                         mkWorld (cache w) (newsLog w ++ [req]) (llmLog w))).
    { unfold generalBranch, tryCatch, bind, callNewsApi, ret.
      destruct (readResponse (newsapi (newsLog w) req)); reflexivity. }
    rewrite Hbranch, IH. cbn [cache newsLog llmLog].
    rewrite <- app_assoc. reflexivity.
Qed.

Lemma fulfilledValues_general (os : list (Outcome (list Raw.t))) :
  fulfilledValues (List.map (fun o => Returned (firstArticle o)) os)
  = flat_map firstArticle os.
Proof.
  unfold fulfilledValues. induction os as [|o os IH]; simpl;
    [reflexivity | now rewrite IH].
Qed.

(** The "general" strategy: its result and the requests it sends. *)
Lemma fetchRaw_general (topic : string) (geo : option Geo) (pageSize : Z)
    (w : @World R) :
  JS.toLowerCase (JS.orStr topic "") = "general" ->
  let countryCode :=
    JS.orOpt (JS.orElse (geoField country geo) (geoField countryCode geo)) "" in
  let reqs := generalRequests countryCode in
  fetchRaw newsapi topic geo pageSize w
  = (Returned
       (List.filter (fun article => JS.truthy (JS.orOpt (Raw.title article) ""))
          (flat_map firstArticle (settled newsapi (newsLog w) reqs))),
     mkWorld (cache w) (newsLog w ++ reqs) (llmLog w)).
Proof.
  intros Hgeneral countryCode reqs. unfold fetchRaw. rewrite Hgeneral.
  change (String.eqb "general" "general") with true. cbv iota.
  fold countryCode. rewrite generalPromises_requests. fold reqs.
  unfold tryCatch, bind. rewrite allSettled_general, fulfilledValues_general.
  reflexivity.
Qed.

(** The strategy of the other topics starts with [primaryRequest]; when
    that request fails, so does the strategy. *)
Lemma fetchRaw_primary_fails (topic : string) (geo : option Geo) (pageSize : Z)
    (w : @World R) (e : string) :
  JS.toLowerCase (JS.orStr topic "") <> "general" ->
  JS.toLowerCase (JS.orStr topic "") <> "local" ->
  readResponse (newsapi (newsLog w) (primaryRequest topic geo pageSize)) = Thrown e ->
  fetchRaw newsapi topic geo pageSize w
  = (Thrown e,
     mkWorld (cache w) (newsLog w ++ [primaryRequest topic geo pageSize]) (llmLog w)).
Proof.
  intros Hgeneral Hlocal Hfail. unfold fetchRaw, primaryRequest in *.
  destruct (String.eqb_spec (JS.toLowerCase (JS.orStr topic "")) "general");
    [contradiction |].
  destruct (String.eqb_spec (JS.toLowerCase (JS.orStr topic "")) "local");
    [contradiction |].
  destruct (isCore (JS.toLowerCase (JS.orStr topic ""))
            && negb (String.eqb (JS.toLowerCase (JS.orStr topic "")) "world")).
  - unfold bind, fetchTopHeadlinesByCategory, callNewsApi. cbv beta.
    rewrite Hfail. reflexivity.
  - unfold fetchArticlesEverything, callNewsApi. rewrite Hfail. reflexivity.
Qed.

Lemma validRequest_clamp_everything (q : string) (n : Z) :
  validRequest (Everything q (clampPageSize n)).
Proof. unfold validRequest. cbn [requestPageSize]. apply clampPageSize_range. Qed.

Lemma validRequest_clamp_headlines (c k q : option string) (n : Z) :
  validRequest (TopHeadlines c k q (clampPageSize n)).
Proof. unfold validRequest. cbn [requestPageSize]. apply clampPageSize_range. Qed.

Lemma localRequests_valid (city region countryCode : string) (pageSize : Z) :
  Forall validRequest (localRequests city region countryCode pageSize).
Proof.
  unfold localRequests.
  destruct (JS.truthy city), (JS.truthy region), (JS.truthy countryCode);
    cbn [app]; valid_requests validRequest_clamp_everything validRequest_clamp_headlines.
Qed.

Lemma generalRequests_valid (countryCode : string) :
  Forall validRequest (generalRequests countryCode)
  /\ List.length (generalRequests countryCode) = 7%nat.
Proof.
  split; [| reflexivity].
  unfold generalRequests. cbn [List.map app].
  repeat constructor; unfold validRequest; cbn [requestPageSize]; lia.
Qed.

(** What any strategy does to the world: it appends between 1 and 8
    requests, each with a page size from 1 to 50, to the provider log. *)
Lemma fetchRaw_sends (topic : string) (geo : option Geo) (pageSize : Z)
    (w : @World R) :
  exists reqs,
    snd (fetchRaw newsapi topic geo pageSize w)
    = mkWorld (cache w) (newsLog w ++ reqs) (llmLog w)
    /\ (1 <= List.length reqs <= 8)%nat
    /\ Forall validRequest reqs.
Proof.
  destruct (string_dec (JS.toLowerCase (JS.orStr topic "")) "general") as [Hg | Hng].
  - rewrite (fetchRaw_general topic geo pageSize w Hg). cbv zeta. cbn [snd].
    eexists. split; [reflexivity |].
    destruct (generalRequests_valid
                (JS.orOpt (JS.orElse (geoField country geo) (geoField countryCode geo)) ""))
      as [Hvalid Hlen].
    rewrite Hlen. split; [lia | exact Hvalid].
  - destruct (string_dec (JS.toLowerCase (JS.orStr topic "")) "local") as [Hl | Hnl].
    + rewrite (fetchRaw_local newsapi topic geo pageSize w Hl). cbv zeta. cbn [snd].
      eexists. split; [reflexivity |]. rewrite localRequests_length.
      split; [| apply localRequests_valid].
      destruct (JS.truthy _), (JS.truthy _), (JS.truthy _); simpl; lia.
    + unfold fetchRaw.
      destruct (String.eqb_spec (JS.toLowerCase (JS.orStr topic "")) "general");
        [contradiction |].
      destruct (String.eqb_spec (JS.toLowerCase (JS.orStr topic "")) "local");
        [contradiction |].
      destruct (isCore (JS.toLowerCase (JS.orStr topic ""))
                && negb (String.eqb (JS.toLowerCase (JS.orStr topic "")) "world")).
      * unfold bind, fetchTopHeadlinesByCategory, fetchArticlesEverything,
          callNewsApi, ret. cbv beta.
        match goal with
        | |- context [readResponse ?x] => destruct (readResponse x) as [articles | e]
        end.
        -- match goal with
           | |- context [if ?c then _ else _] => destruct c
           end; cbn [snd cache newsLog llmLog].
           ++ match goal with
              | |- context [readResponse ?x] => destruct (readResponse x)
              end; cbn [snd]; eexists; rewrite <- app_assoc;
                (split; [reflexivity |]); cbn [app List.length];
                (split; [lia | valid_requests validRequest_clamp_everything validRequest_clamp_headlines]).
           ++ eexists. split; [reflexivity |].
              cbn [List.length]. split; [lia | valid_requests validRequest_clamp_everything validRequest_clamp_headlines].
        -- cbn [snd]. eexists. split; [reflexivity |].
           cbn [List.length]. split; [lia | valid_requests validRequest_clamp_everything validRequest_clamp_headlines].
      * unfold fetchArticlesEverything, callNewsApi. cbn [snd].
        eexists. split; [reflexivity |].
        cbn [List.length]. split; [lia | valid_requests validRequest_clamp_everything validRequest_clamp_headlines].
Qed.

(** X11. A call of [fetchArticlesForTopic] only appends to the provider
    log: at most 8 requests, each asking for 1 to 50 articles; it sends
    none without a key or on a cache hit, and never touches the log of
    completion requests. *)
Theorem fetch_sends_bounded_requests (topic : string) (geo : option Geo)
    (maxResults : Z) (w : @World R) :
  let run := fetchArticlesForTopic B NEWSAPI_KEY newsapi topic geo maxResults w in
  let key := Cache.getNewsKey topic geo (clampPageSize maxResults) in
  exists reqs,
    newsLog (snd run) = newsLog w ++ reqs
    /\ llmLog (snd run) = llmLog w
    /\ (List.length reqs <= 8)%nat
    /\ Forall validRequest reqs
    /\ (JS.truthy NEWSAPI_KEY = false -> reqs = [])
    /\ (forall hit, fst (Cache.get B key (cache w)) = Returned (Some hit) ->
          reqs = []).
Proof.
  intros run key. unfold run.
  destruct (JS.truthy NEWSAPI_KEY) eqn:Hkey.
  - destruct (cache_get_returns B key (cache w)) as [v Hv].
    destruct (Cache.get B key (cache w)) as [o c0] eqn:Hget. cbn [fst] in Hv.
    subst o. destruct v as [hit |].
    + rewrite (fetchArticlesForTopic_hit B NEWSAPI_KEY newsapi topic geo
                 maxResults w hit c0 Hkey Hget).
      exists []. cbn [snd newsLog llmLog fst]. rewrite app_nil_r.
      repeat split; auto; simpl; lia.
    + destruct (fetchRaw_sends topic geo (clampPageSize maxResults)
                  (mkWorld c0 (newsLog w) (llmLog w))) as [reqs [Hsnd [Hlen Hvalid]]].
      cbn [cache newsLog llmLog] in Hsnd.
      destruct (fetchRaw newsapi topic geo (clampPageSize maxResults)
                  (mkWorld c0 (newsLog w) (llmLog w))) as [[raws | e] w1] eqn:Hraw;
        cbn [snd] in Hsnd; subst w1.
      * rewrite (fetchArticlesForTopic_miss B NEWSAPI_KEY newsapi topic geo
                   maxResults w _ c0 raws Hkey Hget Hraw).
        exists reqs. cbn [snd newsLog llmLog fst].
        repeat split; auto; try lia; try discriminate.
      * rewrite (fetchArticlesForTopic_throws B NEWSAPI_KEY newsapi topic geo
                   maxResults w _ c0 e Hkey Hget Hraw).
        exists reqs. cbn [snd newsLog llmLog fst].
        repeat split; auto; try lia; try discriminate.
  - rewrite (fetchArticlesForTopic_no_key B NEWSAPI_KEY newsapi topic geo
               maxResults w Hkey).
    exists []. cbn [snd]. rewrite app_nil_r. repeat split; auto; simpl; lia.
Qed.




(** X14. For every other topic a failure of the first provider request is
    not absorbed: [fetchArticlesForTopic] throws the provider's error after
    that one request, and stores nothing in the cache. *)
Theorem provider_failure_propagates (topic : string) (geo : option Geo)
    (maxResults : Z) (w : @World R) (c0 : CacheManager R FetchResult)
    (e : string) :
  JS.toLowerCase (JS.orStr topic "") <> "general" ->
  JS.toLowerCase (JS.orStr topic "") <> "local" ->
  JS.truthy NEWSAPI_KEY = true ->
  Cache.get B (Cache.getNewsKey topic geo (clampPageSize maxResults)) (cache w)
  = (Returned None, c0) ->
  readResponse
    (newsapi (newsLog w) (primaryRequest topic geo (clampPageSize maxResults)))
  = Thrown e ->
  fetchArticlesForTopic B NEWSAPI_KEY newsapi topic geo maxResults w
  = (Thrown e,
     mkWorld c0
       (newsLog w ++ [primaryRequest topic geo (clampPageSize maxResults)])
       (llmLog w)).
Proof.
  intros Hgeneral Hlocal Hkey Hget Hfail.
  apply (fetchArticlesForTopic_throws B NEWSAPI_KEY newsapi topic geo maxResults
           w _ c0 e Hkey Hget).
  apply (fetchRaw_primary_fails topic geo (clampPageSize maxResults)
           (mkWorld c0 (newsLog w) (llmLog w)) e Hgeneral Hlocal Hfail).
Qed.

Lemma fold_delete_other {V : Type} (key : string) (l : list (string * Z))
    (m : gmap string V) :
  List.Forall (fun timer => fst timer <> key) l ->
  fold_left (fun m timer => delete (fst timer) m) l m !! key = m !! key.
Proof.
  intros Hl. revert m. induction Hl as [|timer l Hne _ IH]; intros m; simpl.
  - reflexivity.
  - rewrite IH. now apply lookup_delete_ne.
Qed.

(** An entry outlives the time that passes while none of the timers set
    for its key runs out. *)
Lemma elapse_keeps {V : Type} (elapsed : Z) (key : string)
    (this : CacheManager R V) :
  List.Forall (fun timer => fst timer = key -> elapsed < snd timer) (timers this) ->
  fallbackCache (elapse elapsed this) !! key = fallbackCache this !! key.
Proof.
  intros Hpending. unfold elapse. cbn [fallbackCache].
  apply fold_delete_other. apply List.Forall_forall. intros timer Hin.
  apply filter_In in Hin. destruct Hin as [Hin Hdue].
  rewrite List.Forall_forall in Hpending. specialize (Hpending timer Hin).
  unfold due in Hdue. apply Z.leb_le in Hdue. intros Heq.
  specialize (Hpending Heq). lia.
Qed.

(** What a call that returns leaves in the in-process cache: the result
    under the call's key, and, when the call was a miss, one more timer,
    of 900 seconds, for that key. *)
Lemma fetch_leaves_entry (topic : string) (geo : option Geo) (maxResults : Z)
    (w w1 : @World R) (r : FetchResult) :
  let key := Cache.getNewsKey topic geo (clampPageSize maxResults) in
  JS.truthy NEWSAPI_KEY = true ->
  (forall v, truthyValue B v = true) ->
  isConnected (cache w) = false \/ client (cache w) = None ->
  fetchArticlesForTopic B NEWSAPI_KEY newsapi topic geo maxResults w
  = (Returned r, w1) ->
  (isConnected (cache w1) = false \/ client (cache w1) = None)
  /\ fallbackCache (cache w1) !! key = Some r
  /\ (fallbackCache (cache w) !! key = None ->
      timers (cache w1) = timers (cache w) ++ [(key, 900 * 1000)]).
Proof.
  intros key Hkey Htruthy Hoff Hrun.
  pose proof (cache_get_fallback B key (cache w) Hoff) as Hget.
  destruct (fallbackCache (cache w) !! key) as [hit |] eqn:Hlookup.
  - rewrite Htruthy in Hget.
    rewrite (fetchArticlesForTopic_hit B NEWSAPI_KEY newsapi topic geo
               maxResults w hit (cache w) Hkey Hget) in Hrun.
    inversion Hrun; subst. cbn [cache].
    split; [exact Hoff |]. split; [exact Hlookup | discriminate].
  - destruct (fetchRaw_sends topic geo (clampPageSize maxResults)
                (mkWorld (cache w) (newsLog w) (llmLog w)))
      as [reqs [Hsnd _]].
    destruct (fetchRaw newsapi topic geo (clampPageSize maxResults)
                (mkWorld (cache w) (newsLog w) (llmLog w)))
      as [[raws | e] w'] eqn:Hraw; cbn [snd] in Hsnd; subst w'.
    + rewrite (fetchArticlesForTopic_miss B NEWSAPI_KEY newsapi topic geo
                 maxResults w _ (cache w) raws Hkey Hget Hraw) in Hrun.
      cbv zeta in Hrun. cbn [cache newsLog llmLog] in Hrun.
      fold key in Hrun. rewrite (cache_set_fallback B key _ 900 (cache w) Hoff) in Hrun.
      cbn [snd] in Hrun. inversion Hrun; subst.
      cbn [cache isConnected client fallbackCache timers].
      split; [exact Hoff |]. split; [apply lookup_insert_eq | reflexivity].
    + rewrite (fetchArticlesForTopic_throws B NEWSAPI_KEY newsapi topic geo
                 maxResults w _ (cache w) e Hkey Hget Hraw) in Hrun.
      discriminate.
Qed.

(** X15. With the in-process cache, a result that [fetchArticlesForTopic]
    returned is returned again, without any provider request, by a call
    with the same cache key made while the entry has not expired, that is
    [elapsed] milliseconds later with every timer set for the key still
    having more than [elapsed] to wait. When the first call was a miss and
    no timer of the key was pending, that is the case for 900 seconds. The
    key is the same for the same topic, geography and size, but also for
    any geography with the same [country], [region] and [city], since
    [countryCode] and [state] are not part of the key. *)
Theorem fetch_answers_from_cache (topic topic' : string) (geo geo' : option Geo)
    (maxResults maxResults' : Z) (w w1 : @World R) (r : FetchResult)
    (elapsed : Z) :
  JS.truthy NEWSAPI_KEY = true ->
  (forall v, truthyValue B v = true) ->
  isConnected (cache w) = false \/ client (cache w) = None ->
  fetchArticlesForTopic B NEWSAPI_KEY newsapi topic geo maxResults w
  = (Returned r, w1) ->
  Cache.getNewsKey topic' geo' (clampPageSize maxResults')
  = Cache.getNewsKey topic geo (clampPageSize maxResults) ->
  let key := Cache.getNewsKey topic geo (clampPageSize maxResults) in
  let again :=
    fetchArticlesForTopic B NEWSAPI_KEY newsapi topic' geo' maxResults'
      (later elapsed w1) in
  (List.Forall (fun timer => fst timer = key -> elapsed < snd timer)
     (timers (cache w1)) ->
   again = (Returned r, later elapsed w1))
  /\ (fallbackCache (cache w) !! key = None ->
      List.Forall (fun timer => fst timer <> key) (timers (cache w)) ->
      elapsed < 900 * 1000 ->
      again = (Returned r, later elapsed w1)).
Proof.
  intros Hkey Htruthy Hoff Hrun Hsame key again.
  destruct (fetch_leaves_entry topic geo maxResults w w1 r Hkey Htruthy Hoff Hrun)
    as [Hoff1 [Hentry Htimers]].
  fold key in Hentry, Htimers.
  assert (Hwindow : List.Forall (fun timer => fst timer = key -> elapsed < snd timer)
                      (timers (cache w1)) ->
                    again = (Returned r, later elapsed w1)).
  { intros Hpending. unfold again.
    rewrite (fetchArticlesForTopic_hit B NEWSAPI_KEY newsapi topic' geo'
               maxResults' (later elapsed w1) r (cache (later elapsed w1)) Hkey).
    - reflexivity.
    - rewrite Hsame. fold key.
      rewrite (cache_get_fallback B key (cache (later elapsed w1)))
        by exact Hoff1.
      cbn [later cache].
      rewrite (elapse_keeps elapsed key (cache w1) Hpending), Hentry, Htruthy.
      reflexivity. }
  split; [exact Hwindow |].
  intros Hmiss Hnone Hshort. apply Hwindow. rewrite (Htimers Hmiss).
  apply Forall_app. split.
  - revert Hnone. apply List.Forall_impl. intros timer Hne Heq. contradiction.
  - constructor; [| constructor]. intros _. exact Hshort.
Qed.

End FetcherMore.



Example fanout_absorbs_failures :
  fst (fetchArticlesForTopic offlineBackend "key" downProvider "local"
         (Some austin) 6 freshWorld)
  = Returned {| articles := []; note := None |}
  /\ fst (fetchArticlesForTopic offlineBackend "key" downProvider "general"
            (Some austin) 6 freshWorld)
     = Returned {| articles := []; note := None |}.
Proof. split; vm_compute; reflexivity. Qed.

Lemma provider_failure_propagates_witness :
  fetchArticlesForTopic offlineBackend "key" downProvider "bitcoin" None 6 freshWorld
  = (Thrown "NewsAPI error: 503 Service Unavailable",
     mkWorld offlineCache [Everything "bitcoin" 6] []).
Proof.
  exact (provider_failure_propagates offlineBackend "key" downProvider "bitcoin"
           None 6 freshWorld offlineCache
           "NewsAPI error: 503 Service Unavailable"
           ltac:(discriminate) ltac:(discriminate) eq_refl eq_refl eq_refl).
Defined.

Lemma fetch_answers_from_cache_witness :
  exists r w1,
    fetchArticlesForTopic offlineBackend "key" onceProvider "technology"
      (Some geoUS) 6 freshWorld = (Returned r, w1)
    /\ fetchArticlesForTopic offlineBackend "key" onceProvider "technology"
         (Some geoGB) 6 (later 899999 w1) = (Returned r, later 899999 w1)
    /\ articles r = [normalize sampleRaw]
    /\ newsLog (later 899999 w1)
       = [TopHeadlines (Some "technology") (Some "us") None 6].
Proof.
  eexists. eexists. split; [vm_compute; reflexivity |].
  split; [| split; reflexivity].
  refine (proj1 (fetch_answers_from_cache offlineBackend "key" onceProvider
                   "technology" "technology" (Some geoUS) (Some geoGB) 6 6
                   freshWorld _ _ 899999 eq_refl (fun v => eq_refl)
                   (or_introl eq_refl) _ eq_refl) _).
  - vm_compute. reflexivity.
  - constructor; [intros _; reflexivity | constructor].
Defined.

(** Once the 900 seconds are over the entry is gone: the same call asks
    the provider again. *)
Example fetch_after_expiry_asks_again :
  let w1 :=
    snd (fetchArticlesForTopic offlineBackend "key" sameStoryProvider
           "technology" None 6 freshWorld) in
  fallbackCache (cache (later 900000 w1)) = ∅
  /\ timers (cache (later 900000 w1)) = []
  /\ newsLog
       (snd (fetchArticlesForTopic offlineBackend "key" sameStoryProvider
               "technology" None 6 (later 900000 w1)))
     = [TopHeadlines (Some "technology") None None 6;
        TopHeadlines (Some "technology") None None 6].
Proof. vm_compute. repeat split; reflexivity. Qed.

(** ** Relevance filter: what the output is made of *)

(** The output when the first pass falls short, the extra articles of the
    permissive pass included. *)
Lemma filterRelevantArticles_short (h : Store) (topic : string)
    (geo : option Geo) (articles : list Ref) (minCount : Z) :
  len (strictPass h topic geo articles) < minCount ->
  let strict := strictPass h topic geo articles in
  let backfilled :=
    firstn (Z.to_nat (minCount - len strict))
      (List.map fst (candidates h topic geo articles)) in
  let extra :=
    if String.eqb (JS.toLowerCase (JS.orStr topic "")) "local"
       && (len (strict ++ backfilled) <? minCount)
    then firstn (Z.to_nat (minCount - len (strict ++ backfilled)))
           (List.filter (fun r => negb (keeps h topic geo r)) articles)
    else [] in
  filterRelevantArticles h topic geo articles minCount
  = strict ++ backfilled ++ extra.
Proof.
  intros Hlt strict backfilled extra.
  destruct (filterRelevantArticles_backfill h topic geo articles minCount Hlt)
    as [extra0 [Hrun Hother]].
  fold strict backfilled in Hrun. fold strict in Hlt.
  destruct (String.eqb_spec (JS.toLowerCase (JS.orStr topic "")) "local")
    as [Hlocal | Hnot].
  - unfold extra. cbn [andb]. clear Hrun Hother extra0 extra.
    unfold filterRelevantArticles. fold strict.
    destruct (Z.geb_spec (len strict) minCount) as [Hge | _]; [lia |].
    rewrite (pushUntil_exact strict _ minCount Hlt). fold backfilled.
    rewrite Hlocal. change (String.eqb "local" "local") with true. cbn [andb].
    change (List.filter
              (fun r => negb (bool_decide (r ∈ (list_to_set strict : gset Ref))))
              articles)
      with (List.filter
              (fun r => negb (bool_decide
                 (r ∈ (list_to_set (List.filter (keeps h topic geo) articles)
                       : gset Ref))))
              articles).
    rewrite not_selected_filter.
    destruct (Z.ltb_spec (len (strict ++ backfilled)) minCount) as [Hshort | Hfull].
    + rewrite (pushUntil_exact (strict ++ backfilled) _ minCount Hshort).
      rewrite <- app_assoc.
      destruct (Z.ltb_spec 0 (len (strict ++ backfilled ++
                  firstn (Z.to_nat (minCount - len (strict ++ backfilled)))
                    (List.filter (fun r => negb (keeps h topic geo r)) articles))))
        as [_ | Hzero]; [reflexivity |].
      pose proof (candidates_len h topic geo articles) as Hsplit.
      fold strict in Hsplit.
      assert (Hnil : strict ++ backfilled ++
                  firstn (Z.to_nat (minCount - len (strict ++ backfilled)))
                    (List.filter (fun r => negb (keeps h topic geo r)) articles) = [])
        by (apply len_zero_nil;
            match goal with |- len ?l = 0 => pose proof (len_nonneg l) end; lia).
      rewrite Hnil. apply app_eq_nil in Hnil. destruct Hnil as [Hs Hrest].
      apply app_eq_nil in Hrest. destruct Hrest as [Hb _].
      assert (Hc : List.map fst (candidates h topic geo articles) = []).
      { unfold backfilled in Hb.
        destruct (List.map fst (candidates h topic geo articles)) as [|c cs];
          [reflexivity |].
        replace (Z.to_nat (minCount - len strict))
          with (S (Nat.pred (Z.to_nat (minCount - len strict)))) in Hb
          by (pose proof (len_nonneg strict); lia).
        discriminate. }
      rewrite Hs, Hc in Hsplit. change (len (@nil Ref)) with 0 in Hsplit.
      rewrite (len_zero_nil articles) by lia. apply slice0_nil.
    + rewrite app_nil_r.
      destruct (Z.ltb_spec 0 (len (strict ++ backfilled))) as [_ | Hzero];
        [reflexivity |].
      pose proof (len_nonneg (strict ++ backfilled)).
      pose proof (len_nonneg strict). lia.
  - unfold extra. cbn [andb]. rewrite Hrun, (Hother Hnot). reflexivity.
Qed.

Lemma in_slice0 {A : Type} (l : list A) (e : Z) (x : A) :
  In x (JS.slice0 l e) -> In x l.
Proof. unfold JS.slice0. apply in_firstn. Qed.

(** X16. The filter only selects: every article of its output is an
    article of its input. For a non-negative [minCount] it never returns
    more than [minCount] articles, and for every topic but "local" it
    returns exactly [min(minCount, n)] of the [n] input articles. *)
Theorem filter_selects_at_most_minCount (h : Store) (topic : string)
    (geo : option Geo) (articles : list Ref) (minCount : Z) :
  (forall r, In r (filterRelevantArticles h topic geo articles minCount) ->
             In r articles)
  /\ (0 <= minCount ->
      len (filterRelevantArticles h topic geo articles minCount) <= minCount)
  /\ (0 <= minCount -> JS.toLowerCase (JS.orStr topic "") <> "local" ->
      len (filterRelevantArticles h topic geo articles minCount)
      = Z.min minCount (len articles)).
Proof.
  pose proof (candidates_len h topic geo articles) as Hsplit.
  pose proof (len_nonneg (strictPass h topic geo articles)) as Hs.
  pose proof (len_nonneg (List.map fst (candidates h topic geo articles))) as Hc.
  pose proof (candidates_perm h topic geo articles) as Hperm.
  destruct (Z.le_gt_cases minCount (len (strictPass h topic geo articles)))
    as [Hle | Hgt].
  - rewrite (filterRelevantArticles_enough h topic geo articles minCount Hle).
    split; [| split].
    + intros r Hr. apply in_slice0 in Hr. rewrite strictPass_filter in Hr.
      apply filter_In in Hr. tauto.
    + intros Hpos. now apply len_slice0_le.
    + intros Hpos _. rewrite len_slice0.
      destruct (Z.ltb_spec minCount 0); lia.
  - rewrite (filterRelevantArticles_short h topic geo articles minCount
               ltac:(lia)).
    cbv zeta. split; [| split].
    + intros r Hr. apply in_app_or in Hr. destruct Hr as [Hr | Hr].
      * rewrite strictPass_filter in Hr. apply filter_In in Hr. tauto.
      * apply in_app_or in Hr. destruct Hr as [Hr | Hr].
        -- apply in_firstn in Hr.
           apply (Permutation_in _ Hperm) in Hr. apply filter_In in Hr. tauto.
        -- destruct (_ && _); [| contradiction].
           apply in_firstn in Hr. apply filter_In in Hr. tauto.
    + intros Hpos. rewrite !len_app.
      match goal with
      | |- context [if ?c then _ else _] => destruct c eqn:Hextra
      end.
      * apply andb_true_iff in Hextra. destruct Hextra as [_ Hshort].
        apply Z.ltb_lt in Hshort.
        rewrite ?len_app, ?len_firstn in *. rewrite ?len_app, ?len_firstn in *.
        pose proof (len_nonneg
                      (List.filter (fun r => negb (keeps h topic geo r)) articles)).
        lia.
      * change (len (@nil Ref)) with 0. rewrite ?len_firstn. lia.
    + intros Hpos Hnot.
      destruct (String.eqb_spec (JS.toLowerCase (JS.orStr topic "")) "local");
        [contradiction |].
      cbn [andb]. rewrite !len_app, len_firstn.
      change (len (@nil Ref)) with 0. lia.
Qed.

Lemma filter_all_true {A : Type} (f : A -> bool) (l : list A) :
  (forall x, In x l -> f x = true) -> List.filter f l = l.
Proof.
  induction l as [|x l IH]; intros Hall; simpl; [reflexivity |].
  rewrite (Hall x (or_introl eq_refl)). f_equal. apply IH.
  intros y Hy. apply Hall. now right.
Qed.

Lemma filter_all_false {A : Type} (f : A -> bool) (l : list A) :
  (forall x, In x l -> f x = false) -> List.filter f l = [].
Proof.
  induction l as [|x l IH]; intros Hall; simpl; [reflexivity |].
  rewrite (Hall x (or_introl eq_refl)). apply IH.
  intros y Hy. apply Hall. now right.
Qed.

(** X17. Where the first pass keeps everything - a core category, or
    "local" without any geography token - the filter is plain truncation:
    it returns [articles.slice(0, minCount)]. *)
Theorem filter_keeps_all_truncates (h : Store) (topic : string)
    (geo : option Geo) (articles : list Ref) (minCount : Z) :
  isCore (JS.toLowerCase (JS.orStr topic "")) = true
  \/ (JS.toLowerCase (JS.orStr topic "") = "local" /\ geoTokens geo = []) ->
  filterRelevantArticles h topic geo articles minCount
  = JS.slice0 articles minCount.
Proof.
  intros Hall.
  assert (Hkeeps : forall r, keeps h topic geo r = true).
  { intros r. unfold keeps, strictKeep.
    destruct Hall as [Hcore | [Hlocal Hnone]].
    - rewrite Hcore.
      destruct (String.eqb_spec (JS.toLowerCase (JS.orStr topic "")) "local")
        as [Hl | _]; [| reflexivity].
      rewrite Hl in Hcore. discriminate.
    - rewrite Hlocal, Hnone. reflexivity. }
  assert (Hstrict : strictPass h topic geo articles = articles)
    by (rewrite strictPass_filter; apply filter_all_true; auto).
  destruct (Z.le_gt_cases minCount (len articles)) as [Hle | Hgt].
  - rewrite filterRelevantArticles_enough by (rewrite Hstrict; exact Hle).
    now rewrite Hstrict.
  - rewrite filterRelevantArticles_short by (rewrite Hstrict; lia).
    cbv zeta. rewrite Hstrict.
    assert (Hnone : List.filter (fun r => negb (keeps h topic geo r)) articles = [])
      by (apply filter_all_false; intros r _; now rewrite Hkeeps).
    pose proof (candidates_perm h topic geo articles) as Hperm.
    rewrite Hnone in Hperm. apply Permutation_sym, Permutation_nil in Hperm.
    rewrite Hperm, Hnone, !firstn_nil.
    destruct (_ && _); rewrite !app_nil_r;
      unfold JS.slice0; destruct (Z.ltb_spec minCount 0);
      pose proof (len_nonneg articles); try lia;
      symmetry; apply firstn_all2; unfold len in *; lia.
Qed.

Lemma filter_keeps_all_truncates_witness :
  filterRelevantArticles sampleStore "Sports" (Some austin) [0; 1; 2; 3]%nat 3
  = [0; 1; 2]%nat.
Proof.
  exact (filter_keeps_all_truncates sampleStore "Sports" (Some austin)
           [0; 1; 2; 3]%nat 3 (or_introl eq_refl)).
Defined.

Lemma NoDup_firstn {A : Type} (n : nat) (l : list A) :
  NoDup l -> NoDup (firstn n l).
Proof.
  intros Hnd. revert n. induction Hnd as [|x l Hx Hl IH]; intros [|n]; simpl;
    try constructor.
  - rewrite list_elem_of_In. intros Hin. apply in_firstn in Hin.
    apply Hx. now apply list_elem_of_In.
  - apply IH.
Qed.

(** X18. For every topic but "local" the filter introduces no duplicate:
    an input without repeated articles gives an output without repeated
    articles. (For "local" the permissive pass can append an article a
    second time, as [filter_local_permissive_sample] shows.) *)
Theorem filter_output_without_duplicates (h : Store) (topic : string)
    (geo : option Geo) (articles : list Ref) (minCount : Z) :
  JS.toLowerCase (JS.orStr topic "") <> "local" ->
  NoDup articles ->
  NoDup (filterRelevantArticles h topic geo articles minCount).
Proof.
  intros Hnot Hnd.
  assert (Hstrict : NoDup (strictPass h topic geo articles))
    by (rewrite strictPass_filter; now apply NoDup_filter_list).
  destruct (Z.le_gt_cases minCount (len (strictPass h topic geo articles)))
    as [Hle | Hgt].
  - rewrite (filterRelevantArticles_enough h topic geo articles minCount Hle).
    unfold JS.slice0. now apply NoDup_firstn.
  - rewrite (filterRelevantArticles_short h topic geo articles minCount
               ltac:(lia)).
    cbv zeta.
    destruct (String.eqb_spec (JS.toLowerCase (JS.orStr topic "")) "local");
      [contradiction |].
    cbn [andb]. rewrite app_nil_r.
    pose proof (candidates_perm h topic geo articles) as Hperm.
    apply NoDup_app. repeat split.
    + exact Hstrict.
    + intros r Hkept Hcand. apply list_elem_of_In in Hkept.
      apply list_elem_of_In in Hcand. rewrite strictPass_filter in Hkept.
      apply filter_In in Hkept. apply in_firstn in Hcand.
      apply (Permutation_in _ Hperm), filter_In in Hcand.
      destruct Hkept as [_ Hk], Hcand as [_ Hc]. rewrite Hk in Hc. discriminate.
    + apply NoDup_firstn.
      apply (NoDup_Permutation_proper _ _ Hperm).
      now apply NoDup_filter_list.
Qed.

Lemma filter_output_without_duplicates_witness :
  NoDup (filterRelevantArticles sampleStore "bitcoin" (Some austin)
           [0; 1; 2; 3]%nat 3).
Proof.
  apply filter_output_without_duplicates.
  - vm_compute. discriminate.
  - repeat (constructor; [rewrite list_elem_of_In; simpl; intuition lia |]).
    constructor.
Defined.

Lemma textHasAny_spec (text : string) (tokens : list string) :
  Forall (fun g => JS.truthy g = true) tokens ->
  (textHasAny text tokens = true
   <-> exists tok, In tok tokens /\ occursIn tok (JS.toLowerCase text)).
Proof.
  intros Htok. unfold textHasAny. rewrite orStr_empty, existsb_exists.
  rewrite List.Forall_forall in Htok. split.
  - intros [tok [Hin Hhas]]. apply andb_true_iff in Hhas.
    exists tok. split; [exact Hin | apply includes_spec; tauto].
  - intros [tok [Hin Hocc]]. exists tok. split; [exact Hin |].
    rewrite (Htok tok Hin). now apply includes_spec.
Qed.

Lemma textHasAny_mentions (tokens : list string) (a : Article) :
  Forall (fun g => JS.truthy g = true) tokens ->
  (textHasAny (JS.orStr (title a) "") tokens
   || textHasAny (JS.orStr (description a) "") tokens = true
   <-> mentions tokens a).
Proof.
  intros Htok. rewrite orb_true_iff, !orStr_empty.
  rewrite !(textHasAny_spec _ tokens Htok). unfold mentions. split.
  - intros [[tok [Hin Hocc]] | [tok [Hin Hocc]]]; exists tok; tauto.
  - intros [tok [Hin [Hocc | Hocc]]]; [left | right]; exists tok; tauto.
Qed.

Lemma len_pos_iff {A : Type} (l : list A) : (0 <? len l) = true <-> l <> [].
Proof.
  destruct l; unfold len; simpl; split; try discriminate; try congruence.
  intros _. reflexivity.
Qed.

(** X19. The containment rule of the first pass. An article is kept for
    "local" exactly when there is no geography token at all or the article
    mentions one of them; for any other topic exactly when the topic is a
    core category or the article mentions a topic token. A geography token
    has at least 2 characters and a topic token at least 3. *)
Theorem strict_pass_containment (h : Store) (topic : string) (geo : option Geo)
    (articles : list Ref) (r : Ref) :
  let topicLower := JS.toLowerCase (JS.orStr topic "") in
  (In r (strictPass h topic geo articles)
   <-> In r articles
       /\ (if String.eqb topicLower "local"
           then geoTokens geo = [] \/ mentions (geoTokens geo) (h r)
           else isCore topicLower = true
                \/ mentions (topicTokens topicLower) (h r)))
  /\ Forall (fun tok => 2 <= strLen tok) (geoTokens geo)
  /\ Forall (fun tok => 3 <= strLen tok) (topicTokens topicLower).
Proof.
  intros topicLower. split; [| split].
  - rewrite strictPass_filter, filter_In. unfold keeps, strictKeep.
    fold topicLower.
    pose proof (textHasAny_mentions (geoTokens geo) (h r) (geoTokens_truthy geo))
      as Hgeo.
    pose proof (textHasAny_mentions (topicTokens topicLower) (h r)
                  (topicTokens_truthy topicLower)) as Htopic.
    destruct (String.eqb topicLower "local").
    + destruct (geoTokens geo) as [|g gs] eqn:Htokens.
      * cbn. intuition.
      * change (0 <? len (g :: gs)) with true. cbn [andb].
        destruct (textHasAny (JS.orStr (title (h r)) "") (g :: gs)
                  || textHasAny (JS.orStr (description (h r)) "") (g :: gs)).
        -- intuition.
        -- change (len (g :: gs) =? 0) with false. split.
           ++ intros [_ H]. discriminate.
           ++ intros [_ [H | H]]; [discriminate |].
              apply Hgeo in H. discriminate.
    + destruct (isCore topicLower); [intuition |].
      destruct (topicTokens topicLower) as [|k ks] eqn:Htokens.
      * cbn. split; [intros [_ H]; discriminate |].
        intros [_ [H | [tok [[] _]]]]. discriminate.
      * change (0 <? len (k :: ks)) with true. cbn [andb].
        destruct (textHasAny (JS.orStr (title (h r)) "") (k :: ks)
                  || textHasAny (JS.orStr (description (h r)) "") (k :: ks)).
        -- intuition.
        -- split; [intros [_ H]; discriminate |].
           intros [_ [H | H]]; [discriminate |]. apply Htopic in H. discriminate.
  - apply List.Forall_forall. intros g Hg. unfold geoTokens in Hg.
    apply setOf_incl, filter_In in Hg. destruct Hg as [_ Hlen].
    now apply Z.leb_le in Hlen.
  - apply List.Forall_forall. intros g Hg. unfold topicTokens in Hg.
    apply setOf_incl, filter_In in Hg. destruct Hg as [_ Hlen].
    apply andb_true_iff in Hlen. destruct Hlen as [_ Hlen].
    now apply Z.leb_le in Hlen.
Qed.

(** ** Text to speech *)

Lemma selectVoice_available (voice : option string) :
  In (selectVoice voice) availableVoices.
Proof.
  unfold selectVoice. cbv zeta.
  destruct (existsb _ availableVoices) eqn:Hhas; [| now left].
  apply existsb_exists in Hhas. destruct Hhas as [v [Hin Heq]].
  apply String.eqb_eq in Heq. now rewrite Heq.
Qed.

Lemma firstAudio_sent {Audio : Type}
    (create : list Speech.t -> Speech.t -> Outcome (option Audio))
    (requests : list Speech.t) (lastErr : option string) (log : list Speech.t) :
  exists sent,
    snd (firstAudio create requests lastErr log) = log ++ sent
    /\ sent `prefix_of` requests
    /\ (requests <> [] -> sent <> [])
    /\ (forall e, fst (firstAudio create requests lastErr log) = Thrown e ->
        sent = requests).
Proof.
  revert lastErr log.
  induction requests as [|request rest IH]; intros lastErr log.
  - exists []. simpl. rewrite app_nil_r.
    split; [reflexivity |]. split; [apply prefix_nil |].
    split; [intros H; now destruct H | reflexivity].
  - simpl. destruct (create log request) as [[speech |] | e] eqn:Hanswer.
    + exists [request]. simpl. repeat split.
      * apply prefix_cons, prefix_nil.
      * discriminate.
      * discriminate.
    + destruct (IH lastErr (log ++ [request])) as [sent [Hlog [Hpre [_ Hall]]]].
      exists (request :: sent). rewrite Hlog, <- app_assoc. repeat split.
      * now apply prefix_cons.
      * discriminate.
      * intros e He. f_equal. now apply (Hall e).
    + destruct (IH (Some e) (log ++ [request])) as [sent [Hlog [Hpre [_ Hall]]]].
      exists (request :: sent). rewrite Hlog, <- app_assoc. repeat split.
      * now apply prefix_cons.
      * discriminate.
      * intros e' He. f_equal. now apply (Hall e').
Qed.

(** X20. The attempts of the speech handler amount to one pass over five
    fixed requests - the three models with the selected voice, then two
    models with "alloy" - that stops at the first audio. The requests made
    are appended to the log and are a non-empty initial part of the five;
    each carries the final text and an available voice; the handler fails
    only after all five were made, with the last failure met. *)
Theorem speech_attempts_in_order {Audio : Type}
    (create : list Speech.t -> Speech.t -> Outcome (option Audio))
    (voice : option string) (finalText : Utf16.str) (log : list Speech.t) :
  synthesize create voice finalText log
  = firstAudio create (speechRequests voice finalText) None log
  /\ (exists sent,
        snd (synthesize create voice finalText log) = log ++ sent
        /\ sent `prefix_of` speechRequests voice finalText
        /\ sent <> []
        /\ (forall e, fst (synthesize create voice finalText log) = Thrown e ->
            sent = speechRequests voice finalText))
  /\ Forall (fun request => In (Speech.voice request) availableVoices
                            /\ Speech.input request = finalText)
       (speechRequests voice finalText).
Proof.
  assert (Heq : synthesize create voice finalText log
                = firstAudio create (speechRequests voice finalText) None log).
  { unfold synthesize, speechRequests, attemptLoop, tryCatch, bind, tryModel,
      ret, throw.
    cbn [List.map fst snd firstAudio].
    repeat (match goal with
            | |- context [create ?l ?r] =>
                destruct (create l r) as [[? |] | ?]
            end; try reflexivity). }
  split; [exact Heq |]. split.
  - rewrite Heq.
    destruct (firstAudio_sent create (speechRequests voice finalText) None log)
      as [sent [Hlog [Hpre [Hne Hall]]]].
    exists sent. repeat split; try assumption.
    apply Hne. discriminate.
  - pose proof (selectVoice_available voice) as Hsel.
    assert (Halloy : In "alloy" availableVoices) by now left.
    unfold speechRequests. cbn [List.map fst snd].
    repeat (apply List.Forall_cons; [split; [assumption | reflexivity] |]).
    apply List.Forall_nil.
Qed.

Example speech_falls_through_models :
  synthesize hdOnly (Some "Nova") [72; 105]%N []
  = (Returned [73; 68; 51],
     [Speech.mk "tts-1" "nova" [72; 105]%N;
      Speech.mk "tts-1-hd" "nova" [72; 105]%N]).
Proof. reflexivity. Qed.

(** ** The spoken text *)

Lemma plainQuote_idempotent (c : N) :
  Utf16.plainQuote (Utf16.plainQuote c) = Utf16.plainQuote c.
Proof.
  unfold Utf16.plainQuote.
  destruct ((c =? 10) || (c =? 13))%N eqn:H1; [reflexivity |].
  destruct ((c =? 0x2018) || (c =? 0x2019))%N eqn:H2; [reflexivity |].
  destruct ((c =? 0x201c) || (c =? 0x201d))%N eqn:H3; [reflexivity |].
  now rewrite H1, H2, H3.
Qed.

Lemma plainQuote_fixed (c : N) :
  Utf16.plainQuote c = c
  -> ~ In c [10; 13; 0x2018; 0x2019; 0x201c; 0x201d]%N.
Proof.
  intros Hfix Hin. simpl in Hin.
  repeat (destruct Hin as [<- | Hin]; [discriminate Hfix |]).
  exact Hin.
Qed.

Lemma map_fixed {A : Type} (f : A -> A) (l : list A) :
  List.Forall (fun x => f x = x) l -> List.map f l = l.
Proof.
  induction 1 as [|x l Hx _ IH]; simpl; [reflexivity |]. now rewrite Hx, IH.
Qed.

Lemma Forall_collapse (P : N -> Prop) (b : bool) (s : Utf16.str) :
  P 32%N -> List.Forall P s -> List.Forall P (Utf16.collapse b s).
Proof.
  intros Hspace Hs. revert b.
  induction Hs as [|c s Hc _ IH]; intros b; simpl; [constructor |].
  destruct (Utf16.isWhite c); [destruct b |]; try constructor; auto.
Qed.

Lemma Forall_trimStart (P : N -> Prop) (s : Utf16.str) :
  List.Forall P s -> List.Forall P (Utf16.trimStart s).
Proof.
  induction 1 as [|c s Hc Hs IH]; simpl; [constructor |].
  destruct (Utf16.isWhite c); [exact IH | now constructor].
Qed.

Lemma Forall_trimEnd (P : N -> Prop) (s : Utf16.str) :
  List.Forall P s -> List.Forall P (Utf16.trimEnd s).
Proof.
  induction 1 as [|c s Hc Hs IH]; simpl; [constructor |].
  destruct (Utf16.trimEnd s).
  - destruct (Utf16.isWhite c); repeat constructor; assumption.
  - now constructor.
Qed.

Lemma Forall_firstn_list {A : Type} (P : A -> Prop) (n : nat) (l : list A) :
  List.Forall P l -> List.Forall P (firstn n l).
Proof.
  rewrite !List.Forall_forall. intros Hl x Hx. apply Hl.
  now apply in_firstn in Hx.
Qed.

Lemma singleSpaced_collapse (b : bool) (s : Utf16.str) :
  singleSpaced b (Utf16.collapse b s) = true.
Proof.
  revert b. induction s as [|c s IH]; intros b; simpl; [reflexivity |].
  destruct (Utf16.isWhite c) eqn:Hc.
  - destruct b; [apply IH |]. simpl. change (Utf16.isWhite 32) with true.
    cbv iota. rewrite IH. reflexivity.
  - simpl. rewrite Hc. apply IH.
Qed.

Lemma collapse_singleSpaced (b : bool) (s : Utf16.str) :
  singleSpaced b s = true -> Utf16.collapse b s = s.
Proof.
  revert b. induction s as [|c s IH]; intros b; simpl; [reflexivity |].
  destruct (Utf16.isWhite c).
  - intros H. apply andb_true_iff in H. destruct H as [H Hrest].
    apply andb_true_iff in H. destruct H as [Hc Hb].
    apply N.eqb_eq in Hc. apply negb_true_iff in Hb. subst.
    f_equal. now apply IH.
  - intros H. f_equal. now apply IH.
Qed.

Lemma singleSpaced_weaken (b : bool) (s : Utf16.str) :
  singleSpaced b s = true -> singleSpaced false s = true.
Proof.
  destruct s as [|c s]; simpl; [reflexivity |].
  destruct (Utf16.isWhite c); [| tauto].
  rewrite !andb_true_iff. cbn [negb]. tauto.
Qed.

Lemma singleSpaced_trimStart (b : bool) (s : Utf16.str) :
  singleSpaced b s = true -> singleSpaced false (Utf16.trimStart s) = true.
Proof.
  revert b. induction s as [|c s IH]; intros b; simpl; [reflexivity |].
  destruct (Utf16.isWhite c) eqn:Hc.
  - intros H. apply andb_true_iff in H. destruct H as [_ Hrest].
    now apply (IH true).
  - intros H. simpl. now rewrite Hc.
Qed.

Lemma trimEnd_cons (c : N) (s : Utf16.str) :
  Utf16.trimEnd s <> [] -> Utf16.trimEnd (c :: s) = c :: Utf16.trimEnd s.
Proof.
  intros Hne. simpl. destruct (Utf16.trimEnd s); [contradiction | reflexivity].
Qed.

Lemma trimEnd_cons_black (c : N) (s : Utf16.str) :
  Utf16.isWhite c = false -> Utf16.trimEnd (c :: s) = c :: Utf16.trimEnd s.
Proof.
  intros Hc. simpl. destruct (Utf16.trimEnd s); [now rewrite Hc | reflexivity].
Qed.

Lemma singleSpaced_trimEnd (b : bool) (s : Utf16.str) :
  singleSpaced b s = true -> singleSpaced b (Utf16.trimEnd s) = true.
Proof.
  revert b. induction s as [|c s IH]; intros b H; [reflexivity |].
  destruct (Utf16.trimEnd s) as [|x r] eqn:Hend.
  - simpl. rewrite Hend. destruct (Utf16.isWhite c) eqn:Hc; [reflexivity |].
    simpl. now rewrite Hc.
  - rewrite trimEnd_cons by (rewrite Hend; discriminate). rewrite Hend.
    change (singleSpaced b (c :: x :: r))
      with (if Utf16.isWhite c
            then (c =? 32)%N && negb b && singleSpaced true (x :: r)
            else singleSpaced false (x :: r)).
    simpl in H. destruct (Utf16.isWhite c).
    + apply andb_true_iff in H. destruct H as [H Hrest]. rewrite H.
      cbn [andb]. now apply IH.
    + now apply IH.
Qed.

Lemma trimStart_head (s : Utf16.str) :
  Utf16.trimStart s = []
  \/ exists c r, Utf16.trimStart s = c :: r /\ Utf16.isWhite c = false.
Proof.
  induction s as [|c s IH]; simpl; [now left |].
  destruct (Utf16.isWhite c) eqn:Hc; [exact IH |].
  right. now exists c, s.
Qed.

Lemma trim_head (s : Utf16.str) :
  Utf16.trim s = []
  \/ exists c r, Utf16.trim s = c :: r /\ Utf16.isWhite c = false.
Proof.
  unfold Utf16.trim.
  destruct (trimStart_head s) as [-> | [c [r [-> Hc]]]]; [now left |].
  right. exists c, (Utf16.trimEnd r). split; [| exact Hc].
  now apply trimEnd_cons_black.
Qed.

Lemma trimEnd_idempotent (s : Utf16.str) :
  Utf16.trimEnd (Utf16.trimEnd s) = Utf16.trimEnd s.
Proof.
  induction s as [|c s IH]; [reflexivity |].
  destruct (Utf16.trimEnd s) as [|x r] eqn:Hend.
  - simpl. rewrite Hend. destruct (Utf16.isWhite c) eqn:Hc; [reflexivity |].
    simpl. now rewrite Hc.
  - rewrite (trimEnd_cons c s) by (rewrite Hend; discriminate).
    rewrite Hend. rewrite trimEnd_cons by (rewrite IH; discriminate).
    now rewrite IH.
Qed.

Lemma trim_idempotent (s : Utf16.str) :
  Utf16.trim (Utf16.trim s) = Utf16.trim s.
Proof.
  destruct (trim_head s) as [-> | [c [r [Heq Hc]]]]; [reflexivity |].
  unfold Utf16.trim at 1. rewrite Heq. simpl Utf16.trimStart. rewrite Hc.
  rewrite <- Heq. unfold Utf16.trim. apply trimEnd_idempotent.
Qed.

Lemma trimEnd_snoc_black (s : Utf16.str) (d : N) :
  Utf16.isWhite d = false -> Utf16.trimEnd (s ++ [d]) = s ++ [d].
Proof.
  intros Hd. induction s as [|c s IH]; simpl; [now rewrite Hd |].
  rewrite IH. destruct (s ++ [d]) eqn:Happ; [| reflexivity].
  symmetry in Happ. now apply app_cons_not_nil in Happ.
Qed.

Lemma singleSpaced_firstn (b : bool) (n : nat) (s : Utf16.str) :
  singleSpaced b s = true -> singleSpaced b (firstn n s) = true.
Proof.
  revert b n. induction s as [|c s IH]; intros b [|n]; simpl; try reflexivity.
  destruct (Utf16.isWhite c).
  - intros H. apply andb_true_iff in H. destruct H as [H Hrest]. rewrite H.
    cbn [andb]. now apply IH.
  - apply IH.
Qed.

Lemma singleSpaced_app_black (b : bool) (s t : Utf16.str) (d : N) :
  Utf16.isWhite d = false ->
  singleSpaced b s = true -> singleSpaced false t = true ->
  singleSpaced b (s ++ d :: t) = true.
Proof.
  intros Hd Hs Ht. revert b Hs.
  induction s as [|c s IH]; intros b Hs; simpl.
  - now rewrite Hd.
  - simpl in Hs. destruct (Utf16.isWhite c).
    + apply andb_true_iff in Hs. destruct Hs as [H Hrest]. rewrite H.
      cbn [andb]. now apply IH.
    + now apply IH.
Qed.

(** A text without line breaks and curly quotes, single-spaced and without
    white space at its ends, is left as it is. *)
Lemma cleanText_fixed (u : Utf16.str) :
  List.Forall (fun c => Utf16.plainQuote c = c) u ->
  singleSpaced false u = true ->
  Utf16.trim u = u ->
  cleanText u = u.
Proof.
  intros Hplain Hspaced Htrim. unfold cleanText.
  rewrite (map_fixed _ _ Hplain), (collapse_singleSpaced _ _ Hspaced).
  exact Htrim.
Qed.

Lemma cleanText_clean (text : Utf16.str) :
  List.Forall (fun c => Utf16.plainQuote c = c) (cleanText text)
  /\ singleSpaced false (cleanText text) = true
  /\ Utf16.trim (cleanText text) = cleanText text.
Proof.
  unfold cleanText. split; [| split].
  - unfold Utf16.trim. apply Forall_trimEnd, Forall_trimStart.
    apply Forall_collapse; [reflexivity |].
    apply List.Forall_forall. intros c Hc. apply in_map_iff in Hc.
    destruct Hc as [c0 [<- _]]. apply plainQuote_idempotent.
  - unfold Utf16.trim.
    apply singleSpaced_trimEnd, (singleSpaced_trimStart false).
    apply singleSpaced_collapse.
  - apply trim_idempotent.
Qed.

(** X21. The text that is spoken: never longer than 4000 code units, free
    of line breaks and curly quotes, with white space only as single
    spaces, and already in its final form - sanitising it again changes
    nothing. *)
Theorem spoken_text_sanitised (text : Utf16.str) :
  let finalText := finalTextOf text in
  len finalText <= maxLength
  /\ List.Forall
       (fun c => ~ In c [10; 13; 0x2018; 0x2019; 0x201c; 0x201d]%N) finalText
  /\ singleSpaced false finalText = true
  /\ finalTextOf finalText = finalText.
Proof.
  cbv zeta.
  destruct (cleanText_clean text) as [Hplain [Hspaced Htrim]].
  assert (Hfinal : List.Forall (fun c => Utf16.plainQuote c = c)
                     (finalTextOf text)
                   /\ singleSpaced false (finalTextOf text) = true
                   /\ Utf16.trim (finalTextOf text) = finalTextOf text
                   /\ len (finalTextOf text) <= maxLength).
  { unfold finalTextOf. cbv zeta. unfold maxLength.
    destruct (Z.ltb_spec 4000 (len (cleanText text))) as [Hlong | Hshort];
      [| tauto].
    remember (cleanText text) as u eqn:Hu. clear Hu.
    assert (Hcut : JS.slice0 u (4000 - 3) = firstn 3997 u).
    { unfold JS.slice0. change (4000 - 3 <? 0) with false. cbv iota.
      fold (len u). f_equal. lia. }
    rewrite Hcut.
    assert (Hlen : List.length (firstn 3997 u) = 3997%nat).
    { rewrite length_firstn. unfold len in Hlong. lia. }
    split; [| split; [| split]].
    - apply Forall_app. split; [now apply Forall_firstn_list |].
      repeat constructor.
    - apply singleSpaced_app_black;
        [reflexivity | now apply singleSpaced_firstn | reflexivity].
    - destruct (trim_head u) as [Hnil | [c [r [Heq Hc]]]].
      + rewrite Htrim in Hnil. subst u. unfold len in Hlong.
        cbn [List.length] in Hlong. lia.
      + rewrite Htrim in Heq. rewrite Heq. unfold Utf16.trim.
        change (firstn 3997 (c :: r)) with (c :: firstn 3996 r).
        cbn [app Utf16.trimStart]. rewrite Hc.
        replace (c :: firstn 3996 r ++ Utf16.ellipsis)
          with ((c :: firstn 3996 r ++ [46; 46]%N) ++ [46]%N).
        * now apply trimEnd_snoc_black.
        * cbn [app]. f_equal. rewrite <- app_assoc. reflexivity.
    - unfold len. rewrite length_app, Hlen. cbn. lia. }
  destruct Hfinal as [Hplain' [Hspaced' [Htrim' Hlen']]].
  repeat split.
  - exact Hlen'.
  - revert Hplain'. apply List.Forall_impl. exact plainQuote_fixed.
  - exact Hspaced'.
  - unfold finalTextOf at 1. cbv zeta.
    rewrite (cleanText_fixed _ Hplain' Hspaced' Htrim').
    destruct (Z.ltb_spec maxLength (len (finalTextOf text))); [lia | reflexivity].
Qed.

Example finalTextOf_sample :
  finalTextOf [32; 0x201c; 72; 105; 0x201d; 10; 13; 0x2028; 33; 9]%N
  = [34; 72; 105; 34; 32; 33]%N.
Proof. reflexivity. Qed.
